(** * PaperBack page printer: block codec, page geometry and page assembly

    A shallow embedding of [Drawblock], [Initializeprinting] and
    [Printnextpage] (docs/C_SOURCE), with the properties of the printed
    page format stated and proved over it.

    Conventions of the embedding.
    - A C [int] is a [Z]; [/] and [%] are [Z.quot] and [Z.rem] (C truncates
      towards zero).  Signed overflow is undefined in C, so statements
      that depend on the value of an [int] carry the range they need.
    - A [uint32_t] is a [Z] reduced with [to_u32] after every operation that
      can leave [0, 2^32).
    - Bytes are [Z] in [0, 256); a C array of bytes is a [list Z].
    - The effects of a routine (error reports, allocation, blocks handed to
      [Drawblock], pixel stores, file operations) are returned as a list of
      events next to the new job state. *)

From Stdlib Require Import ZArith List Lia Bool String Permutation.
From stdpp Require Import base list list_numbers.
Import ListNotations.

Local Open Scope Z_scope.

(** ** Machine integers *)

Definition to_u32 (z : Z) : Z := z mod 2 ^ 32.
Definition to_u16 (z : Z) : Z := z mod 2 ^ 16.
Definition to_uchar (z : Z) : Z := z mod 2 ^ 8.

(** Conversion of a 32-bit pattern to [int] (two's complement). *)
Definition to_int (z : Z) : Z :=
  let u := to_u32 z in if u <? 2 ^ 31 then u else u - 2 ^ 32.

Definition INT_MAX : Z := 2 ^ 31 - 1.

(** Little-endian layout of an integer field in [n] bytes, and back. *)
Fixpoint le_bytes (n : nat) (v : Z) : list Z :=
  match n with
  | O => []
  | S k => v mod 256 :: le_bytes k (v / 256)
  end.

Fixpoint le_value (bs : list Z) : Z :=
  match bs with
  | [] => 0
  | b :: r => b + 256 * le_value r
  end.

(** ** Declarations of the project header

    The sources refer to constants, types and helpers of the project
    header and of its codec files.  They are collected here as the
    parameters of the development. *)

Class Header := {
  (** useful data bytes of a block *)
  NDATA : Z;
  (** reserved block address that marks a superblock *)
  SUPERBLOCK : Z;
  (** [sizeof(print->superdata.name)] *)
  NAMESIZE : Z;
  PBM_COMPRESSED : Z;
  PBM_ENCRYPTED : Z;
  (** READONLY | HIDDEN | SYSTEM | ARCHIVE | NORMAL *)
  FILE_ATTRIBUTE_MASK : Z;
  (** [Crc16(bytes, length)], applied to the bytes it reads *)
  Crc16 : list Z -> Z;
  (** [Encode8(message, parity, pad)]: the parity bytes it writes *)
  Encode8 : list Z -> Z -> list Z;
  (** [fnsplit(path, NULL, NULL, nam, ext)]: whether the EXTENSION flag is
      set, the name and the extension *)
  fnsplit : list Z -> bool * list Z * list Z
}.

(** Modelled from the spec: NDOT is missing from the sources; the spec gives
    [NDOT = 32], the number of logical dots per block edge. *)
Definition NDOT : Z := 32.

(** ** Data model *)

(** [t_data]: a block as it goes to paper. *)
Record t_data := mk_data {
  addr : Z;
  data : list Z;
  crc : Z;
  ecc : list Z
}.

(** [t_superdata]: the page identification block. *)
Record t_superdata := mk_superdata {
  sd_addr : Z;
  sd_datasize : Z;
  sd_pagesize : Z;
  sd_origsize : Z;
  sd_mode : Z;
  sd_attributes : Z;
  sd_page : Z;
  sd_modified : Z;
  sd_filecrc : Z;
  sd_name : list Z;
  sd_crc : Z;
  sd_ecc : list Z
}.

(** The job descriptor [t_printdata], with the fields the three routines
    read or write.  [drawbits] is [Some n] for an allocated bitmap of [n]
    bytes and [None] for a null pointer. *)
Record t_printdata := mk_printdata {
  step : Z;
  infile : list Z;
  outbmp : list Z;
  buf : list Z;
  bufcrc : Z;
  origsize : Z;
  datasize : Z;
  alignedsize : Z;
  compression : Z;
  encryption : Z;
  attributes : Z;
  modified : Z;
  redundancy : Z;
  printborder : Z;
  frompage : Z;
  topage : Z;
  ppix : Z;
  ppiy : Z;
  extratop : Z;
  extrabottom : Z;
  black : Z;
  borderleft : Z;
  borderright : Z;
  bordertop : Z;
  borderbottom : Z;
  border : Z;
  dx : Z;
  dy : Z;
  px : Z;
  py : Z;
  nx : Z;
  ny : Z;
  width : Z;
  height : Z;
  pagesize : Z;
  drawbits : option Z;
  superdata : t_superdata
}.

(** The process-wide options read by [Initializeprinting]. *)
Record t_options := mk_options {
  pb_resx : Z;
  pb_resy : Z;
  pb_dpi : Z;
  pb_dotpercent : Z
}.

(** What the file system answers while a page is saved: whether [fopen]
    gives a file, and the counts returned by the three [fwrite]. *)
Record io_outcome := mk_io {
  fopen_ok : bool;
  fwrite_bmfh : Z;
  fwrite_bmi : Z;
  fwrite_bits : Z
}.

(** What a routine does besides changing the job. *)
Inductive event :=
| Reporterror (msg : string)
| Message (page npages : Z)
| Malloc (size : Z)
| Drawn (index : Z) (block : t_data)
| Fopen
| Fwrite (count : Z)
| Fclose.

(** The cell indices handed to [Drawblock], read off the events. *)
Fixpoint drawn_cells (evs : list event) : list Z :=
  match evs with
  | [] => []
  | Drawn k _ :: r => k :: drawn_cells r
  | _ :: r => drawn_cells r
  end.

(** The error messages reported, read off the events. *)
Fixpoint reported (evs : list event) : list string :=
  match evs with
  | [] => []
  | Reporterror m :: r => m :: reported r
  | _ :: r => reported r
  end.

(** The allocations requested, read off the events. *)
Fixpoint allocated (evs : list event) : list Z :=
  match evs with
  | [] => []
  | Malloc n :: r => n :: allocated r
  | _ :: r => allocated r
  end.

(** ** The block as bytes and as words *)

Definition block_bytes (b : t_data) : list Z :=
  le_bytes 4 (addr b) ++ data b ++ le_bytes 2 (crc b) ++ ecc b.

(** The [j]-th 32-bit word of the record, as the dot loop reads it. *)
Definition block_word (b : t_data) (j : Z) : Z :=
  le_value (take 4 (drop (Z.to_nat (4 * j)) (block_bytes b))).

(** Modelled from the spec: the layout of [t_superdata] is missing from the
    sources.  The spec (section 6) lists the fields of the data region in
    this order, each little-endian, with [name] last, followed by the [crc]
    and [ecc] of every block record.  This is the view that the cast of
    [&print->superdata] to a block pointer gives. *)
Definition superdata_block (s : t_superdata) : t_data :=
  {| addr := sd_addr s;
     data := le_bytes 4 (sd_datasize s) ++ le_bytes 4 (sd_origsize s) ++
             le_bytes 4 (sd_pagesize s) ++ le_bytes 2 (sd_mode s) ++
             le_bytes 1 (sd_attributes s) ++ le_bytes 2 (sd_page s) ++
             le_bytes 8 (sd_modified s) ++ le_bytes 2 (sd_filecrc s) ++
             sd_name s;
     crc := sd_crc s;
     ecc := sd_ecc s |}.

(** ** The routines *)

Section Code.
Context `{Header}.

(** *** Drawblock *)

(** The codec half of [Drawblock]: the CRC of the address and data, then the
    error correction code over everything before it. *)
Definition Drawblock_encode (b : t_data) : t_data :=
  let c := to_u16 (Z.lxor (Crc16 (take (Z.to_nat (NDATA + 4)) (block_bytes b)))
                          0x55AA) in
  let b1 := {| addr := addr b; data := data b; crc := c; ecc := ecc b |} in
  {| addr := addr b; data := data b; crc := c;
     ecc := Encode8 (take (Z.to_nat (NDATA + 6)) (block_bytes b1)) 127 |}.

(** A pixel store: offset from the start of the bitmap, and value. *)
Definition store : Type := Z * Z.

(** The two innermost loops: a dot of [py] rows of [px] pixels. *)
Definition dot_stores (bits x width px py black : Z) : list store :=
  flat_map (fun m =>
    (fun n => (bits + (x - m * width + n), to_uchar black)) <$> seqZ 0 px)
    (seqZ 0 py).

(** The loop over the 32 bits of a word; [t] is shifted and [x] advanced at
    each turn. *)
Fixpoint word_stores (cnt : nat) (t x bits width dx px py black : Z)
  : list store :=
  match cnt with
  | O => []
  | S c =>
      (if Z.land t 1 =? 0 then [] else dot_stores bits x width px py black)
      ++ word_stores c (Z.shiftr t 1) (x + dx) bits width dx px py black
  end.

(** The loop over the 32 words; [bits] moves up by [dy] scan lines at each
    turn. *)
Fixpoint rows_stores (cnt : nat) (b : t_data) (j bits width dx dy px py black : Z)
  : list store :=
  match cnt with
  | O => []
  | S c =>
      let t := block_word b j in
      let t := if Z.land j 1 =? 0 then Z.lxor t 0x55555555
               else Z.lxor t 0xAAAAAAAA in
      word_stores 32 t 0 bits width dx px py black
      ++ rows_stores c b (j + 1) (bits - dy * width) width dx dy px py black
  end.

(** The painting half of [Drawblock], for a block that has its CRC and ECC:
    "Convert cell index into the X-Y bitmap coordinates", then print.  The
    coordinates and the offsets are the integers that the source computes
    on [int] as long as these stay in the range of an [int]; the theorems
    on the stores carry this range. *)
Definition Drawblock_stores (index : Z) (block : t_data)
  (width height border nx ny dx dy px py black : Z) : list store :=
  let x := Z.rem index nx * (NDOT + 3) * dx + 2 * dx + border in
  let y := Z.quot index nx * (NDOT + 3) * dy + 2 * dy + border in
  let bits := (height - y - 1) * width + x in
  rows_stores 32 block 0 bits width dx dy px py black.

(** [Drawblock]: the block as it is left in memory, and the pixels set. *)
Definition Drawblock (index : Z) (block : t_data)
  (width height border nx ny dx dy px py black : Z) : t_data * list store :=
  let block' := Drawblock_encode block in
  (block',
   Drawblock_stores index block' width height border nx ny dx dy px py black).

(** *** Fillblock *)

(** The raster word of row [j] of a border cell. *)
Definition Fillblock_word (blockx blocky nx ny j : Z) : Z :=
  if Z.land j 1 =? 0 then 0x55555555
  else if (blocky <? 0) && (j <=? 24) then 0
  else if (blocky >=? ny) && (j >? 8) then 0
  else if blockx <? 0 then 0xAA000000
  else if blockx >=? nx then 0x000000AA
  else 0xAAAAAAAA.

(** A dot of the raster, clipped to the bitmap pixel by pixel. *)
Definition Fillblock_dot (x0 y0 i j width height dx dy px py black : Z)
  : list store :=
  flat_map (fun m =>
    flat_map (fun n =>
      let x := x0 + i * dx + n in
      let y := y0 + j * dy + m in
      if (x <? 0) || (x >=? width) || (y <? 0) || (y >=? height) then []
      else [((height - y - 1) * width + x, to_uchar black)])
      (seqZ 0 px))
    (seqZ 0 py).

Fixpoint Fillblock_bits (cnt : nat) (t i x0 y0 j width height dx dy px py black : Z)
  : list store :=
  match cnt with
  | O => []
  | S c =>
      (if Z.land t 1 =? 0 then []
       else Fillblock_dot x0 y0 i j width height dx dy px py black)
      ++ Fillblock_bits c (Z.shiftr t 1) (i + 1) x0 y0 j width height
                        dx dy px py black
  end.

(** [Fillblock]: the pixels set for the border cell [(blockx, blocky)],
    which may lie outside the bitmap. *)
Definition Fillblock (blockx blocky width height border nx ny dx dy px py black : Z)
  : list store :=
  let x0 := blockx * (NDOT + 3) * dx + 2 * dx + border in
  let y0 := blocky * (NDOT + 3) * dy + 2 * dy + border in
  flat_map (fun j =>
    Fillblock_bits 32 (Fillblock_word blockx blocky nx ny j) 0 x0 y0 j
                   width height dx dy px py black)
    (seqZ 0 32).

(** *** Initializeprinting *)

(** [strncpy(dest, src, n)] on a destination holding [dest]: [n] bytes are
    written, the source first and zeros after it. *)
Definition strncpy (dest src : list Z) (n : Z) : list Z :=
  take (Z.to_nat n) (src ++ repeat 0 (Z.to_nat n)) ++ drop (Z.to_nat n) dest.

(** [s.name[i] = v].  C does not check the index: the array starts at the
    field, and an index at or past its size lands in the bytes that follow
    [name] in the record. *)
Definition store_name (s : t_superdata) (i v : Z) : t_superdata :=
  let n := length (sd_name s) in
  let tail := sd_name s ++ le_bytes 2 (sd_crc s) ++ sd_ecc s in
  let tail' := <[Z.to_nat i := v]> tail in
  {| sd_addr := sd_addr s; sd_datasize := sd_datasize s;
     sd_pagesize := sd_pagesize s; sd_origsize := sd_origsize s;
     sd_mode := sd_mode s; sd_attributes := sd_attributes s;
     sd_page := sd_page s; sd_modified := sd_modified s;
     sd_filecrc := sd_filecrc s;
     sd_name := take n tail';
     sd_crc := le_value (take 2 (drop n tail'));
     sd_ecc := drop (n + 2)%nat tail' |}.

(** [fil]: the name of the input file with its extension, as [fnsplit]
    and [fnmerge] give it. *)
Definition job_fil (p : t_printdata) : list Z :=
  let '(has_ext, nam, ext) := fnsplit (infile p) in
  if has_ext then nam ++ ext else nam.

(** "Prepare superdata." *)
Definition prepare_superdata (p : t_printdata) : t_superdata :=
  let s := superdata p in
  let mode1 := if compression p =? 0 then sd_mode s
               else Z.lor (sd_mode s) PBM_COMPRESSED in
  let mode2 := if encryption p =? 0 then mode1
               else Z.lor mode1 PBM_ENCRYPTED in
  let fil := job_fil p in
  let dataSize := NAMESIZE in
  let s1 :=
    {| sd_addr := SUPERBLOCK;
       sd_datasize := alignedsize p;
       sd_pagesize := sd_pagesize s;
       sd_origsize := origsize p;
       sd_mode := mode2;
       sd_attributes := to_uchar (Z.land (attributes p) FILE_ATTRIBUTE_MASK);
       sd_page := sd_page s;
       sd_modified := modified p;
       sd_filecrc := to_u16 (bufcrc p);
       sd_name := strncpy (sd_name s) fil dataSize;
       sd_crc := sd_crc s;
       sd_ecc := sd_ecc s |} in
  store_name s1 dataSize 0.

(** Modelled from the spec: [Stopprinting] is missing from the sources.  The
    spec describes it as the stop that puts the job in its terminal state
    and releases its allocations; the terminal (idle) step is 0. *)
Definition Stopprinting (p : t_printdata) : t_printdata :=
  {| step := 0; infile := infile p; outbmp := outbmp p; buf := [];
     bufcrc := bufcrc p; origsize := origsize p; datasize := datasize p;
     alignedsize := alignedsize p; compression := compression p;
     encryption := encryption p; attributes := attributes p;
     modified := modified p; redundancy := redundancy p;
     printborder := printborder p; frompage := frompage p;
     topage := topage p; ppix := ppix p; ppiy := ppiy p;
     extratop := extratop p; extrabottom := extrabottom p; black := black p;
     borderleft := borderleft p; borderright := borderright p;
     bordertop := bordertop p; borderbottom := borderbottom p;
     border := border p; dx := dx p; dy := dy p; px := px p; py := py p;
     nx := nx p; ny := ny p; width := width p; height := height p;
     pagesize := pagesize p; drawbits := None; superdata := superdata p |}.

(** The values computed on the way, in the order of the source. *)
Definition plan_ppix (o : t_options) : Z :=
  if (pb_resx o =? 0) || (pb_resy o =? 0) then 300 else pb_resx o.
Definition plan_ppiy (o : t_options) : Z :=
  if (pb_resx o =? 0) || (pb_resy o =? 0) then 300 else pb_resy o.

(** Printable area: the A4 page less the borders and the extra space. *)
Definition plan_area_width (o : t_options) : Z :=
  Z.quot (plan_ppix o * 8270) 1000
  - (plan_ppix o + Z.quot (plan_ppix o) 2).
Definition plan_area_height (o : t_options) (p : t_printdata) : Z :=
  Z.quot (plan_ppiy o * 11690) 1000
  - (Z.quot (plan_ppiy o) 2 + Z.quot (plan_ppiy o) 2
     + extratop p + extrabottom p).

Definition plan_dx (o : t_options) : Z :=
  Z.max (Z.quot (plan_ppix o) (pb_dpi o)) 2.
Definition plan_px (o : t_options) : Z :=
  Z.max (Z.quot (plan_dx o * pb_dotpercent o) 100) 1.
Definition plan_dy (o : t_options) : Z :=
  Z.max (Z.quot (plan_ppiy o) (pb_dpi o)) 2.
Definition plan_py (o : t_options) : Z :=
  Z.max (Z.quot (plan_dy o * pb_dotpercent o) 100) 1.

Definition plan_border (o : t_options) (p : t_printdata) : Z :=
  if negb (printborder p =? 0) then plan_dx o * 16
  else match outbmp p with
       | [] => 0
       | _ :: _ => 25
       end.

Definition plan_nx (o : t_options) (p : t_printdata) : Z :=
  Z.quot (plan_area_width o - plan_px o - 2 * plan_border o p)
         (NDOT * plan_dx o + 3 * plan_dx o).
Definition plan_ny (o : t_options) (p : t_printdata) : Z :=
  Z.quot (plan_area_height o p - plan_py o - 2 * plan_border o p)
         (NDOT * plan_dy o + 3 * plan_dy o).

(** The test that ends with "Printable area is too small". *)
Definition too_small (o : t_options) (p : t_printdata) : bool :=
  (plan_nx o p <? redundancy p + 1) || (plan_ny o p <? 3)
  || (plan_nx o p * plan_ny o p <? 2 * redundancy p + 2).

(** "Calculate final size of the bitmap where I will draw the image." *)
Definition plan_width_raw (o : t_options) (p : t_printdata) : Z :=
  plan_nx o p * (NDOT + 3) * plan_dx o + plan_px o + 2 * plan_border o p + 3.
Definition plan_width (o : t_options) (p : t_printdata) : Z :=
  to_int (Z.land (to_u32 (plan_width_raw o p)) 0xFFFFFFFC).
Definition plan_height (o : t_options) (p : t_printdata) : Z :=
  plan_ny o p * (NDOT + 3) * plan_dy o + plan_py o + 2 * plan_border o p.

(** "Calculate the total size of useful data, bytes, that fits onto the
    page." *)
Definition plan_pagesize (o : t_options) (p : t_printdata) : Z :=
  Z.quot (plan_nx o p * plan_ny o p - redundancy p - 2) (redundancy p + 1)
  * redundancy p * NDATA.

(** The job with everything that is stored before the size test. *)
Definition init_defaults (o : t_options) (p : t_printdata) : t_printdata :=
  {| step := step p; infile := infile p; outbmp := outbmp p; buf := buf p;
     bufcrc := bufcrc p; origsize := origsize p; datasize := datasize p;
     alignedsize := alignedsize p; compression := compression p;
     encryption := encryption p; attributes := attributes p;
     modified := modified p; redundancy := redundancy p;
     printborder := printborder p;
     frompage := 0;
     topage := 9999;
     ppix := plan_ppix o;
     ppiy := plan_ppiy o;
     extratop := extratop p; extrabottom := extrabottom p;
     black := 64;
     borderleft := plan_ppix o;
     borderright := Z.quot (plan_ppix o) 2;
     bordertop := Z.quot (plan_ppiy o) 2;
     borderbottom := Z.quot (plan_ppiy o) 2;
     border := plan_border o p;
     dx := dx p; dy := dy p; px := px p; py := py p;
     nx := nx p; ny := ny p; width := width p; height := height p;
     pagesize := pagesize p; drawbits := drawbits p;
     superdata := prepare_superdata p |}.

Definition set_drawbits (p : t_printdata) (d : option Z) : t_printdata :=
  {| step := step p; infile := infile p; outbmp := outbmp p; buf := buf p;
     bufcrc := bufcrc p; origsize := origsize p; datasize := datasize p;
     alignedsize := alignedsize p; compression := compression p;
     encryption := encryption p; attributes := attributes p;
     modified := modified p; redundancy := redundancy p;
     printborder := printborder p; frompage := frompage p;
     topage := topage p; ppix := ppix p; ppiy := ppiy p;
     extratop := extratop p; extrabottom := extrabottom p; black := black p;
     borderleft := borderleft p; borderright := borderright p;
     bordertop := bordertop p; borderbottom := borderbottom p;
     border := border p; dx := dx p; dy := dy p; px := px p; py := py p;
     nx := nx p; ny := ny p; width := width p; height := height p;
     pagesize := pagesize p; drawbits := d; superdata := superdata p |}.

Definition set_sd_pagesize (s : t_superdata) (v : Z) : t_superdata :=
  {| sd_addr := sd_addr s; sd_datasize := sd_datasize s; sd_pagesize := v;
     sd_origsize := sd_origsize s; sd_mode := sd_mode s;
     sd_attributes := sd_attributes s; sd_page := sd_page s;
     sd_modified := sd_modified s; sd_filecrc := sd_filecrc s;
     sd_name := sd_name s; sd_crc := sd_crc s; sd_ecc := sd_ecc s |}.

(** The job after the last part: page size, saved parameters, next step. *)
Definition init_finish (o : t_options) (p0 p : t_printdata) : t_printdata :=
  {| step := step p + 1; infile := infile p; outbmp := outbmp p;
     buf := buf p; bufcrc := bufcrc p; origsize := origsize p;
     datasize := datasize p; alignedsize := alignedsize p;
     compression := compression p; encryption := encryption p;
     attributes := attributes p; modified := modified p;
     redundancy := redundancy p; printborder := printborder p;
     frompage := frompage p; topage := topage p; ppix := ppix p;
     ppiy := ppiy p; extratop := extratop p; extrabottom := extrabottom p;
     black := black p; borderleft := borderleft p;
     borderright := borderright p; bordertop := bordertop p;
     borderbottom := borderbottom p; border := border p;
     dx := plan_dx o; dy := plan_dy o; px := plan_px o; py := plan_py o;
     nx := plan_nx o p0; ny := plan_ny o p0;
     width := plan_width o p0; height := plan_height o p0;
     pagesize := to_u32 (plan_pagesize o p0);
     drawbits := drawbits p;
     superdata := set_sd_pagesize (superdata p) (to_u32 (plan_pagesize o p0)) |}.

(** [malloc_ok] tells whether the allocation of the bitmap succeeds.  The
    size asked for is the product [width * height] as the source computes
    it, on [int].  The bitmap header and palette kept in [print->bmi] are
    not part of the modelled job. *)
Definition Initializeprinting (o : t_options) (p : t_printdata)
  (malloc_ok : bool) : t_printdata * list event :=
  let p1 := init_defaults o p in
  if too_small o p then
    (Stopprinting p1,
     [Reporterror "Printable area is too small, reduce borders or block size"])
  else
    match outbmp p with
    | [] =>
        (Stopprinting p1,
         [Reporterror "Outbmp unspecified, can not creat BMP"])
    | _ :: _ =>
        let size := to_int (plan_width o p * plan_height o p) in
        if malloc_ok then
          (init_finish o p (set_drawbits p1 (Some size)), [Malloc size])
        else
          (set_drawbits p1 None,
           [Malloc size; Reporterror "Low memory, can't create bitmap"])
    end.

(** *** Printnextpage *)

(** "Calculate offset of this page in data." *)
Definition page_offset (p : t_printdata) : Z :=
  to_u32 (frompage p * pagesize p).

(** "All requested pages are printed": the test that ends the step. *)
Definition pages_done (p : t_printdata) : bool :=
  (page_offset p >=? datasize p) || (frompage p >? topage p).

Definition page_npages (p : t_printdata) : Z :=
  Z.quot (to_u32 (datasize p + pagesize p - 1)) (pagesize p).

(** "Number of groups (length of string)" on this page. *)
Definition page_nstring (p : t_printdata) : Z :=
  let l := to_int (Z.min (to_u32 (alignedsize p - page_offset p)) (pagesize p)) in
  let n := Z.quot (l + NDATA - 1) NDATA in
  Z.quot (n + redundancy p - 1) (redundancy p).

(** The number of rows of this page: "at least 3 rows", and no more than
    planned. *)
Definition page_ny (p : t_printdata) : Z :=
  let n := (page_nstring p + 1) * (redundancy p + 1) + 1 in
  let n := Z.max (Z.quot (n + nx p - 1) (nx p)) 3 in
  if ny p >? n then n else ny p.

Definition page_height (p : t_printdata) : Z :=
  page_ny p * (NDOT + 3) * dy p + py p + 2 * border p.

(** "Next line calculates how I must rotate the j-th string." *)
Definition rotation (nx redundancy nstring j : Z) : Z :=
  let k := j * (nstring + 1) in
  Z.rem (Z.quot nx (redundancy + 1) * j - Z.rem k nx + nx) nx.

(** Cell of the superblock that starts string [j]. *)
Definition super_cell (nx redundancy nstring j : Z) : Z :=
  let k := j * (nstring + 1) in
  if nstring + 1 >=? nx then k + rotation nx redundancy nstring j else k.

(** Cell of block [i] of string [j]; the recovery block is in string
    [redundancy]. *)
Definition block_cell (nx redundancy nstring i j : Z) : Z :=
  let k := j * (nstring + 1) in
  if nstring + 1 <? nx then k + (i + 1)
  else
    let rot := rotation nx redundancy nstring j in
    k + Z.rem (i + 1 + rot) (nstring + 1).

(** "Fill block with data": [l] bytes copied from the buffer at [offset],
    then zeros up to [NDATA] bytes. *)
Definition fill_data (buf : list Z) (size offset : Z) : list Z :=
  let l := if offset <? size then
             let l := to_int (size - offset) in
             if l >? NDATA then NDATA else l
           else 0 in
  take (Z.to_nat NDATA)
       (take (Z.to_nat l) (drop (Z.to_nat offset) buf)
        ++ repeat 0 (Z.to_nat NDATA)).

(** "Update redundancy block." *)
Definition xor_bytes (a b : list Z) : list Z := zip_with Z.lxor a b.

(** A block handed to [Drawblock]: its cell and the block as stamped. *)
Definition draw : Type := Z * t_data.

(** "Process data group": the loop over the [redundancy] data blocks of
    group [i].  It carries the offset and the recovery data. *)
Fixpoint data_blocks (p : t_printdata) (nstring i : Z) (cnt : nat)
  (j offset : Z) (cksum : list Z) : Z * list Z * list draw :=
  match cnt with
  | O => (offset, cksum, [])
  | S c =>
      let block := {| addr := offset;
                      data := fill_data (buf p) (alignedsize p) offset;
                      crc := 0; ecc := [] |} in
      let cksum := xor_bytes cksum (data block) in
      let k := block_cell (nx p) (redundancy p) nstring i j in
      let '(offset', cksum', ds) :=
        data_blocks p nstring i c (j + 1) (to_u32 (offset + NDATA)) cksum in
      (offset', cksum', (k, Drawblock_encode block) :: ds)
  end.

(** One turn of the loop over the groups: the recovery block is prepared,
    the data blocks are drawn, then the recovery block. *)
Definition one_group (p : t_printdata) (nstring i offset : Z)
  : Z * list draw :=
  let cksum_addr := Z.lxor offset (to_u32 (Z.shiftl (redundancy p) 28)) in
  let '(offset', cksum, ds) :=
    data_blocks p nstring i (Z.to_nat (redundancy p)) 0 offset
                (repeat 0xFF (Z.to_nat NDATA)) in
  let k := block_cell (nx p) (redundancy p) nstring i (redundancy p) in
  (offset',
   ds ++ [(k, Drawblock_encode {| addr := cksum_addr; data := cksum;
                                  crc := 0; ecc := [] |})]).

Fixpoint groups (p : t_printdata) (nstring : Z) (cnt : nat) (i offset : Z)
  : list (list draw) :=
  match cnt with
  | O => []
  | S c =>
      let '(offset', g) := one_group p nstring i offset in
      g :: groups p nstring c (i + 1) offset'
  end.

(** The superblock drawn in each cell of [cells], one after the other.
    [Drawblock] writes the CRC and ECC into the record it is given. *)
Fixpoint super_draws (cells : list Z) (sb : t_data) : t_data * list draw :=
  match cells with
  | [] => (sb, [])
  | k :: r =>
      let sb' := Drawblock_encode sb in
      let '(sb'', ds) := super_draws r sb' in
      (sb'', (k, sb') :: ds)
  end.

Definition set_sd_page (s : t_superdata) (v : Z) : t_superdata :=
  {| sd_addr := sd_addr s; sd_datasize := sd_datasize s;
     sd_pagesize := sd_pagesize s; sd_origsize := sd_origsize s;
     sd_mode := sd_mode s; sd_attributes := sd_attributes s; sd_page := v;
     sd_modified := sd_modified s; sd_filecrc := sd_filecrc s;
     sd_name := sd_name s; sd_crc := sd_crc s; sd_ecc := sd_ecc s |}.

Definition set_sd_code (s : t_superdata) (b : t_data) : t_superdata :=
  {| sd_addr := sd_addr s; sd_datasize := sd_datasize s;
     sd_pagesize := sd_pagesize s; sd_origsize := sd_origsize s;
     sd_mode := sd_mode s; sd_attributes := sd_attributes s;
     sd_page := sd_page s; sd_modified := sd_modified s;
     sd_filecrc := sd_filecrc s; sd_name := sd_name s;
     sd_crc := crc b; sd_ecc := ecc b |}.

(** The groups of the page, in the order they are drawn. *)
Definition page_groups (p : t_printdata) : list (list draw) :=
  groups p (page_nstring p) (Z.to_nat (page_nstring p)) 0 (page_offset p).

(** The superblocks that start the strings, and the record after them. *)
Definition page_supers (p : t_printdata) : t_data * list draw :=
  super_draws
    (super_cell (nx p) (redundancy p) (page_nstring p)
       <$> seqZ 0 (redundancy p + 1))
    (superdata_block (set_sd_page (superdata p) (to_u16 (frompage p + 1)))).

(** "Print superblock in all remaining cells." *)
Definition page_fillers (p : t_printdata) : t_data * list draw :=
  let first := (page_nstring p + 1) * (redundancy p + 1) in
  super_draws (seqZ first (nx p * page_ny p - first)) (fst (page_supers p)).

(** Every block drawn on the page, in the order of the calls. *)
Definition page_draws (p : t_printdata) : list draw :=
  snd (page_supers p) ++ concat (page_groups p) ++ snd (page_fillers p).

(** The job after the page is drawn: the superblock has its page number and
    the code of the last [Drawblock]. *)
Definition page_drawn (p : t_printdata) : t_printdata :=
  {| step := step p; infile := infile p; outbmp := outbmp p; buf := buf p;
     bufcrc := bufcrc p; origsize := origsize p; datasize := datasize p;
     alignedsize := alignedsize p; compression := compression p;
     encryption := encryption p; attributes := attributes p;
     modified := modified p; redundancy := redundancy p;
     printborder := printborder p; frompage := frompage p;
     topage := topage p; ppix := ppix p; ppiy := ppiy p;
     extratop := extratop p; extrabottom := extrabottom p; black := black p;
     borderleft := borderleft p; borderright := borderright p;
     bordertop := bordertop p; borderbottom := borderbottom p;
     border := border p; dx := dx p; dy := dy p; px := px p; py := py p;
     nx := nx p; ny := ny p; width := width p; height := height p;
     pagesize := pagesize p; drawbits := drawbits p;
     superdata :=
       set_sd_code (set_sd_page (superdata p) (to_u16 (frompage p + 1)))
                   (fst (page_fillers p)) |}.

Definition set_step_frompage (p : t_printdata) (s f : Z) : t_printdata :=
  {| step := s; infile := infile p; outbmp := outbmp p; buf := buf p;
     bufcrc := bufcrc p; origsize := origsize p; datasize := datasize p;
     alignedsize := alignedsize p; compression := compression p;
     encryption := encryption p; attributes := attributes p;
     modified := modified p; redundancy := redundancy p;
     printborder := printborder p; frompage := f;
     topage := topage p; ppix := ppix p; ppiy := ppiy p;
     extratop := extratop p; extrabottom := extrabottom p; black := black p;
     borderleft := borderleft p; borderright := borderright p;
     bordertop := bordertop p; borderbottom := borderbottom p;
     border := border p; dx := dx p; dy := dy p; px := px p; py := py p;
     nx := nx p; ny := ny p; width := width p; height := height p;
     pagesize := pagesize p; drawbits := drawbits p;
     superdata := superdata p |}.

(** Modelled from the spec: the sizes of the bitmap file header and of the
    info header with its 256-entry palette, whose types are missing from
    the sources; the spec gives 14 and 40 + 1024 bytes. *)
Definition sizeof_bmfh : Z := 14.
Definition sizeof_bmi : Z := 40 + 256 * 4.

(** "Save bitmap to file": what happens to the job and which events are
    seen, after the page is drawn.  The name of the file and the contents
    of the headers are not modelled. *)
Definition save_page (p : t_printdata) (io : io_outcome)
  : t_printdata * list event :=
  if negb (fopen_ok io) then
    (Stopprinting p, [Fopen; Reporterror "Unable to create bitmap file"])
  else
    let next := set_step_frompage p (step p) (frompage p + 1) in
    let u := to_u32 (fwrite_bmfh io) in
    if negb (u =? sizeof_bmfh) then
      (* success=0: the whole block that follows is skipped *)
      (next, [Fopen; Fwrite sizeof_bmfh])
    else
      let n := sizeof_bmi in
      let u := to_u32 (fwrite_bmi io) in
      let size := width p * page_height p in
      let '(success, ev) :=
        if negb (u =? to_u32 n) then (false, [])
        else
          let u := to_u32 (fwrite_bits io) in
          (u =? to_u32 size, [Fwrite size]) in
      let evs := [Fopen; Fwrite sizeof_bmfh; Fwrite n] ++ ev ++ [Fclose] in
      if success then (next, evs)
      else (Stopprinting p, evs ++ [Reporterror "Unable to save bitmap"]).

(** [io] is what the file system answers.  Of the bitmap, the events give
    the blocks handed to [Drawblock]; the stores into the bitmap -- the
    clearing, the grid lines, the border raster of [Fillblock] and the
    dots of the blocks -- are [page_stores], below. *)
Definition Printnextpage (p : t_printdata) (io : io_outcome)
  : t_printdata * list event :=
  if pages_done p then
    (set_step_frompage p (step p + 1) (frompage p), [])
  else
    let '(p', evs) := save_page (page_drawn p) io in
    (p',
     Message (frompage p + 1) (page_npages p)
     :: (uncurry Drawn <$> page_draws p) ++ evs).

(** The emit phase: the states in which [Printnextpage] is called.  It is
    entered when [Initializeprinting] succeeds (it reports no error), in a
    step that is not the terminal one, and left when [Printnextpage]
    changes the step. *)
Inductive emitting (o : t_options) (p0 : t_printdata) : t_printdata -> Prop :=
| emitting_first m :
    reported (snd (Initializeprinting o p0 m)) = [] -> step p0 + 1 <> 0 ->
    emitting o p0 (fst (Initializeprinting o p0 m))
| emitting_next p io :
    emitting o p0 p ->
    step (fst (Printnextpage p io)) = step p ->
    emitting o p0 (fst (Printnextpage p io)).

(** Modelled from the spec: the outer stepper is missing from the sources.
    The spec has it call [Printnextpage] once per invocation while the job
    is in the emit step.  Here it runs through the answers [ios] of the
    file system, one call for each, as long as the job stays in the step
    in which the phase started. *)
Fixpoint emit_phase (ios : list io_outcome) (p : t_printdata) : t_printdata :=
  match ios with
  | [] => p
  | io :: r =>
      let p' := fst (Printnextpage p io) in
      if step p' =? step p then emit_phase r p' else p'
  end.

End Code.

(** ** The bitmap of a page

    The stores that [Printnextpage] makes into the bitmap before the file
    is written, in the order of the source: the clearing, the grid lines,
    the border raster and the blocks. *)

Section PageBitmap.
Context `{Header}.

(** [memset(bits + start, v, n)] *)
Definition memset_stores (start v n : Z) : list store :=
  (fun t => (start + t, to_uchar v)) <$> seqZ 0 n.

(** One vertical line: [cnt] scan lines of [px] black pixels; [basex] moves
    up by [width] at each turn. *)
Fixpoint vline_stores (cnt : nat) (basex width px : Z) : list store :=
  match cnt with
  | O => []
  | S c =>
      ((fun k => (basex + k, 0)) <$> seqZ 0 px)
      ++ vline_stores c (basex + width) width px
  end.

(** "Draw vertical grid lines." *)
Definition page_vlines (p : t_printdata) : list store :=
  flat_map (fun i =>
    if negb (printborder p =? 0) then
      vline_stores
        (Z.to_nat (page_ny p * (NDOT + 3) * dy p + py p + 2 * border p))
        (i * (NDOT + 3) * dx p + border p) (width p) (px p)
    else
      vline_stores
        (Z.to_nat (page_ny p * (NDOT + 3) * dy p))
        (i * (NDOT + 3) * dx p + width p * border p + border p)
        (width p) (px p))
    (seqZ 0 (nx p + 1)).

(** "Draw horizontal grid lines." *)
Definition page_hlines (p : t_printdata) : list store :=
  flat_map (fun j =>
    flat_map (fun k =>
      if negb (printborder p =? 0) then
        memset_stores ((j * (NDOT + 3) * dy p + k + border p) * width p)
                      0 (width p)
      else
        memset_stores
          ((j * (NDOT + 3) * dy p + k + border p) * width p + border p)
          0 (nx p * (NDOT + 3) * dx p + px p))
      (seqZ 0 (py p)))
    (seqZ 0 (page_ny p + 1)).

(** "Fill borders with regular raster." *)
Definition page_raster (p : t_printdata) : list store :=
  let fill bx by_ :=
    Fillblock bx by_ (width p) (page_height p) (border p) (nx p) (page_ny p)
              (dx p) (dy p) (px p) (py p) (black p) in
  if negb (printborder p =? 0) then
    flat_map (fun j => fill (-1) j ++ fill (nx p) j) (seqZ (-1) (page_ny p + 2))
    ++ flat_map (fun i => fill i (-1) ++ fill i (page_ny p)) (seqZ 0 (nx p))
  else [].

(** The dots of the blocks handed to [Drawblock]. *)
Definition page_block_stores (p : t_printdata) : list store :=
  flat_map (fun d =>
    Drawblock_stores (fst d) (snd d) (width p) (page_height p) (border p)
      (nx p) (page_ny p) (dx p) (dy p) (px p) (py p) (black p))
    (page_draws p).

Definition page_lines (p : t_printdata) : list store :=
  page_vlines p ++ page_hlines p.

(** Every store into the bitmap of the page. *)
Definition page_stores (p : t_printdata) : list store :=
  memset_stores 0 255 (page_height p * width p)
  ++ page_lines p ++ page_raster p ++ page_block_stores p.

End PageBitmap.

(** ** A concrete header and concrete jobs

    Used to run the routines on inputs.  The constants are those of a
    128-byte record with a 32-byte code: [4 + NDATA + 2 + 32 = 128]. *)

(** CRC-16 with polynomial 0x1021, bit by bit. *)
Definition crc16_shift (c : Z) : Z :=
  to_u16 (if Z.testbit c 15 then Z.lxor (Z.shiftl c 1) 0x1021
          else Z.shiftl c 1).

Fixpoint crc16_bits (n : nat) (c : Z) : Z :=
  match n with
  | O => c
  | S k => crc16_shift (crc16_bits k c)
  end.

Definition crc16_byte (c b : Z) : Z :=
  crc16_bits 8 (Z.lxor c (Z.shiftl b 8)).

Definition crc16 (bs : list Z) : Z := fold_left crc16_byte bs 0.

(** A stand-in for the Reed-Solomon encoder, which is outside the sources:
    32 bytes, each the sum of the message bytes of one residue class. *)
Definition parity32 (msg : list Z) (pad : Z) : list Z :=
  (fun k => to_uchar (fold_left Z.add
     ((fun i => if Z.rem i 32 =? k then nth (Z.to_nat i) msg 0 else 0)
        <$> seqZ 0 (Z.of_nat (length msg))) 0)) <$> seqZ 0 32.

(** Name and extension of a path without a directory part: split at the
    first dot (46). *)
Fixpoint split_name (path : list Z) : bool * list Z * list Z :=
  match path with
  | [] => (false, [], [])
  | c :: r =>
      if c =? 46 then (true, [], path)
      else let '(e, nam, ext) := split_name r in (e, c :: nam, ext)
  end.

#[local] Instance paperbak_h : Header := {|
  NDATA := 90;
  SUPERBLOCK := 0xFFFFFFFF;
  NAMESIZE := 63;
  PBM_COMPRESSED := 1;
  PBM_ENCRYPTED := 2;
  FILE_ATTRIBUTE_MASK := 0xA7;
  Crc16 := crc16;
  Encode8 := parity32;
  fnsplit := split_name
|}.

(** A job as [Initializeprinting] receives it: the file [name], its data
    [bytes] (already aligned), the [redundancy] and the border flag; the
    output goes to "out.bmp". *)
Definition new_job (name bytes : list Z) (r border : Z) : t_printdata :=
  {| step := 7; infile := name;
     outbmp := [111; 117; 116; 46; 98; 109; 112];
     buf := bytes; bufcrc := crc16 bytes;
     origsize := Z.of_nat (length bytes);
     datasize := Z.of_nat (length bytes);
     alignedsize := Z.of_nat (length bytes);
     compression := 0; encryption := 0; attributes := 0x20; modified := 0;
     redundancy := r; printborder := border; frompage := 0; topage := 0;
     ppix := 0; ppiy := 0; extratop := 0; extrabottom := 0; black := 0;
     borderleft := 0; borderright := 0; bordertop := 0; borderbottom := 0;
     border := 0; dx := 0; dy := 0; px := 0; py := 0; nx := 0; ny := 0;
     width := 0; height := 0; pagesize := 0; drawbits := None;
     superdata :=
       {| sd_addr := 0; sd_datasize := 0; sd_pagesize := 0; sd_origsize := 0;
          sd_mode := 0; sd_attributes := 0; sd_page := 0; sd_modified := 0;
          sd_filecrc := 0; sd_name := repeat 0 63; sd_crc := 0xFFFF;
          sd_ecc := repeat 0 32 |} |}.

(** 300 dpi, 200 dots per inch, dots of 70 percent. *)
Definition options_200 : t_options :=
  {| pb_resx := 300; pb_resy := 300; pb_dpi := 200; pb_dotpercent := 70 |}.

(** 300 dpi, 67 dots per inch, dots of 70 percent. *)
Definition options_67 : t_options :=
  {| pb_resx := 300; pb_resy := 300; pb_dpi := 67; pb_dotpercent := 70 |}.

Definition io_ok (p : t_printdata) : io_outcome :=
  {| fopen_ok := true; fwrite_bmfh := sizeof_bmfh; fwrite_bmi := sizeof_bmi;
     fwrite_bits := width p * page_height p |}.

(** One byte 0x41, padded to 16 bytes, redundancy 1, with border;
    the name is "a.txt". *)
Definition job_one_byte : t_printdata :=
  new_job [97; 46; 116; 120; 116] (0x41 :: repeat 0 15) 1 1.

(** 15744 zero bytes, redundancy 5, no border. *)
Definition job_skew : t_printdata :=
  new_job [97; 46; 116; 120; 116] (repeat 0 (Z.to_nat 15744)) 5 0.

(** A file whose name has 70 letters "a". *)
Definition job_long_name : t_printdata :=
  new_job (repeat 97 70) (0x41 :: repeat 0 15) 1 1.

(** ** Notions used in the statements *)

(** Byte-wise XOR of the data of some blocks, starting from [acc]. *)
Definition xor_all (acc : list Z) (ds : list (list Z)) : list Z :=
  fold_left xor_bytes ds acc.

(** A group as drawn: its data blocks, then its recovery block. *)
Definition members_data (g : list draw) : list (list Z) :=
  (fun d => data (snd d)) <$> removelast g.

Definition parity_data (g : list draw) : list Z :=
  match last g with
  | Some d => data (snd d)
  | None => []
  end.

(** A data block of the page: [NDATA] bytes taken from the buffer at some
    offset and filled with zeros. *)
Definition from_buffer `{Header} (p : t_printdata) (d : list Z) : Prop :=
  length d = Z.to_nat NDATA
  /\ exists off, d = fill_data (buf p) (alignedsize p) off.

(** The recovery data of every group of the page is the plain XOR of the
    data of its members. *)
Definition plain_parity `{Header} (p : t_printdata) : Prop :=
  forall g, g ∈ page_groups p ->
    parity_data g = xor_all (repeat 0 (Z.to_nat NDATA)) (members_data g).

(** The job after [Initializeprinting] succeeded. *)
Definition ready `{Header} (o : t_options) (p : t_printdata) : t_printdata :=
  fst (Initializeprinting o p true).

(** What the emit phase keeps of the plan made by [Initializeprinting] for
    the job [p0]. *)
Definition planned `{Header} (o : t_options) (p0 p : t_printdata) : Prop :=
  too_small o p0 = false /\
  step p = step p0 + 1 /\ step p <> 0 /\
  redundancy p = redundancy p0 /\
  nx p = plan_nx o p0 /\ ny p = plan_ny o p0 /\
  dx p = plan_dx o /\ dy p = plan_dy o /\
  px p = plan_px o /\ py p = plan_py o /\
  border p = plan_border o p0 /\
  width p = plan_width o p0 /\ height p = plan_height o p0 /\
  pagesize p = to_u32 (plan_pagesize o p0) /\
  drawbits p = Some (to_int (plan_width o p0 * plan_height o p0)) /\
  topage p = 9999 /\ 0 <= frompage p /\
  datasize p = datasize p0 /\ alignedsize p = alignedsize p0.

(** The bytes of a C string held in a byte array: up to the first zero. *)
Fixpoint c_string (bs : list Z) : list Z :=
  match bs with
  | [] => []
  | b :: r => if b =? 0 then [] else b :: c_string r
  end.

(** The data bytes of the data blocks of a page, in the order the blocks
    are drawn. *)
Definition page_data `{Header} (p : t_printdata) : list Z :=
  concat (concat (members_data <$> page_groups p)).

(** The addresses of the data blocks of a group, and of its recovery
    block. *)
Definition members_addr (g : list draw) : list Z :=
  (fun d => addr (snd d)) <$> removelast g.

Definition parity_addr (g : list draw) : Z :=
  match last g with
  | Some d => addr (snd d)
  | None => 0
  end.

(** The useful bytes of the page: what is left of the data, at most a page
    size. *)
Definition page_length `{Header} (p : t_printdata) : Z :=
  Z.min (alignedsize p - page_offset p) (pagesize p).

(** The answers of a file system that creates the file and writes all that
    is asked, for the page of the job [p], whatever the header. *)
Definition io_saved `{Header} (p : t_printdata) : io_outcome :=
  {| fopen_ok := true; fwrite_bmfh := sizeof_bmfh; fwrite_bmi := sizeof_bmi;
     fwrite_bits := width p * page_height p |}.

(** [n] calls of [Printnextpage] with such answers. *)
Fixpoint save_pages `{Header} (n : nat) (p : t_printdata) : t_printdata :=
  match n with
  | O => p
  | S k => save_pages k (fst (Printnextpage p (io_saved p)))
  end.

(** The dots of the raster of a border cell: on the even rows every other
    dot; on the odd rows the dots between them, thinned out on the side
    that looks away from the grid. *)
Definition raster_dot (blockx blocky nx ny i j : Z) : Prop :=
  (Z.odd j = false /\ Z.odd i = false)
  \/ (Z.odd j = true /\ Z.odd i = true
      /\ (blocky < 0 -> 24 < j)
      /\ (ny <= blocky -> j <= 8)
      /\ (blockx < 0 -> 25 <= i)
      /\ (0 <= blockx -> nx <= blockx -> i <= 7)).

(** ** Properties *)

(** *** Integers and lists *)

Lemma seqZ_shift (f : Z -> Z) (c a n : Z) :
  (forall i, a <= i < a + n -> f i = i + c) ->
  f <$> seqZ a n = seqZ (a + c) n.
Proof.
  intros Hf.
  replace (a + c) with (c + a) by lia.
  rewrite <- (fmap_add_seqZ c a n).
  apply Forall_fmap_ext, Forall_forall. intros i Hi.
  apply elem_of_seqZ in Hi. rewrite Hf by lia. lia.
Qed.

Lemma concat_heads {A B} (g : A -> B) (h : A -> list B) (l : list A) :
  Permutation ((g <$> l) ++ concat (h <$> l))
              (concat ((fun a => g a :: h a) <$> l)).
Proof.
  induction l as [|a l IH]; simpl; [constructor|].
  constructor. rewrite <- IH.
  rewrite !app_assoc. apply Permutation_app_tail, Permutation_app_comm.
Qed.

Lemma concat_transpose {A B C} (f : A -> B -> C) (la : list A) (lb : list B) :
  Permutation (concat ((fun a => f a <$> lb) <$> la))
              (concat ((fun b => (fun a => f a b) <$> la) <$> lb)).
Proof.
  induction la as [|a la IH]; simpl.
  - induction lb; simpl; auto.
  - rewrite IH. apply (concat_heads (f a) (fun b => (fun a' => f a' b) <$> la)).
Qed.

Lemma concat_seqZ_rows (N : Z) (cnt : nat) (j : Z) :
  0 <= N -> 
  concat ((fun j => seqZ (j * N) N) <$> seqZ j (Z.of_nat cnt))
  = seqZ (j * N) (Z.of_nat cnt * N).
Proof.
  intros HN. revert j. induction cnt as [|cnt IH]; intros j.
  - simpl. rewrite seqZ_nil by lia. reflexivity.
  - rewrite seqZ_cons by lia. simpl.
    replace (Z.pred (Z.of_nat (S cnt))) with (Z.of_nat cnt) by lia.
    rewrite IH.
    replace (Z.of_nat (S cnt) * N) with (N + Z.of_nat cnt * N) by lia.
    rewrite seqZ_app by nia. do 2 f_equal. lia.
Qed.

(** A string is filled by its first block at [rot] and the others after it,
    around the end of the string. *)
Lemma rotated_string (N rot : Z) :
  0 <= rot < N ->
  Permutation (rot :: ((fun i => (i + 1 + rot) `mod` N) <$> seqZ 0 (N - 1)))
              (seqZ 0 N).
Proof.
  intros Hr.
  replace (N - 1) with ((N - 1 - rot) + rot) by lia.
  rewrite seqZ_app, fmap_app by lia.
  rewrite (seqZ_shift _ (1 + rot) 0 (N - 1 - rot)).
  2:{ intros i Hi. rewrite Z.mod_small by lia. lia. }
  rewrite (seqZ_shift _ (1 + rot - N) (0 + (N - 1 - rot)) rot).
  2:{ intros i Hi. replace (i + 1 + rot) with ((i + 1 + rot - N) + 1 * N) by lia.
      rewrite Z.mod_add by lia. rewrite Z.mod_small by lia. lia. }
  replace (0 + (N - 1 - rot) + (1 + rot - N)) with 0 by lia.
  replace (0 + (1 + rot)) with (Z.succ rot) by lia.
  replace (N - 1 - rot) with (Z.pred (N - rot)) by lia.
  rewrite app_comm_cons, <- (seqZ_cons rot (N - rot)) by lia.
  rewrite Permutation_app_comm.
  replace N with (rot + (N - rot)) at 2 by lia.
  rewrite seqZ_app by lia. reflexivity.
Qed.

Lemma to_u32_small (z : Z) : 0 <= z < 2 ^ 32 -> to_u32 z = z.
Proof. intros Hz. unfold to_u32. apply Z.mod_small. exact Hz. Qed.

Lemma to_u32_range (z : Z) : 0 <= to_u32 z < 2 ^ 32.
Proof. unfold to_u32. apply Z.mod_pos_bound. lia. Qed.

Lemma lxor_u16 (a b : Z) :
  0 <= a < 2 ^ 16 -> 0 <= b < 2 ^ 16 -> 0 <= Z.lxor a b < 2 ^ 16.
Proof.
  intros Ha Hb.
  assert (Hn : 0 <= Z.lxor a b) by (apply Z.lxor_nonneg; lia).
  split; [exact Hn|].
  destruct (Z.eq_dec (Z.lxor a b) 0) as [->|Hz]; [lia|].
  apply Z.log2_lt_pow2; [lia|].
  pose proof (Z.log2_lxor a b ltac:(lia) ltac:(lia)) as Hl.
  assert (Z.log2 a < 16).
  { destruct (Z.eq_dec a 0) as [->|]; [cbn; lia|].
    apply Z.log2_lt_pow2; lia. }
  assert (Z.log2 b < 16).
  { destruct (Z.eq_dec b 0) as [->|]; [cbn; lia|].
    apply Z.log2_lt_pow2; lia. }
  lia.
Qed.

(** Clearing the two low bits rounds down to a multiple of 4. *)
Lemma land_FFFFFFFC (w : Z) :
  0 <= w < 2 ^ 32 -> Z.land w 0xFFFFFFFC = 4 * (w / 4).
Proof.
  intros Hw.
  change 0xFFFFFFFC with (Z.shiftl (Z.ones 30) 2).
  replace (4 * (w / 4)) with (Z.shiftl (Z.shiftr w 2) 2)
    by (rewrite Z.shiftl_mul_pow2, Z.shiftr_div_pow2 by lia;
        change (2 ^ 2) with 4; lia).
  apply Z.bits_inj'. intros n Hn.
  rewrite Z.land_spec, !Z.shiftl_spec by lia.
  destruct (Z.ltb_spec n 2) as [Hlt|Hge].
  - rewrite !(Z.testbit_neg_r _ (n - 2)) by lia. apply andb_false_r.
  - rewrite Z.shiftr_spec by lia. replace (n - 2 + 2) with n by lia.
    destruct (Z.ltb_spec n 32) as [Hlt|Hbig].
    + rewrite Z.ones_spec_low by lia. apply andb_true_r.
    + rewrite Z.ones_spec_high by lia.
      rewrite andb_false_r. symmetry.
      destruct (Z.eq_dec w 0) as [->|Hz]; [apply Z.bits_0|].
      apply Z.bits_above_log2; [lia|].
      apply Z.lt_le_trans with 32; [|lia].
      apply Z.log2_lt_pow2; lia.
Qed.

Lemma length_le_bytes (n : nat) (v : Z) : length (le_bytes n v) = n.
Proof. revert v. induction n; intros v; simpl; auto. Qed.

Lemma to_int_small (z : Z) : 0 <= z <= INT_MAX -> to_int z = z.
Proof.
  unfold INT_MAX, to_int. intros Hz.
  rewrite to_u32_small by lia.
  destruct (Z.ltb_spec z (2 ^ 31)); lia.
Qed.

(** The page size leaves room for the strings of a full page: with [ns]
    groups for [l] bytes, [l] at most the page size, the [ns + 1] cells of
    each of the [r + 1] strings and one more cell fit in [nx * ny]. *)
Lemma capacity_arith (nx ny r nd l : Z) :
  0 < nd -> 1 <= r -> 2 * r + 2 <= nx * ny ->
  0 <= l <= Z.quot (nx * ny - r - 2) (r + 1) * r * nd ->
  let n := Z.quot (l + nd - 1) nd in
  let ns := Z.quot (n + r - 1) r in
  0 <= ns /\ (ns + 1) * (r + 1) + 1 <= nx * ny.
Proof.
  intros Hnd Hr Hcells Hl n ns.
  rewrite Z.quot_div_nonneg in Hl by lia.
  set (q := (nx * ny - r - 2) / (r + 1)) in *.
  assert (Hq : 0 <= q) by (apply Z.div_pos; lia).
  assert (Hq' : (r + 1) * q <= nx * ny - r - 2)
    by (apply Z.mul_div_le; lia).
  assert (Hn : 0 <= n < q * r + 1).
  { unfold n. rewrite Z.quot_div_nonneg by lia. split.
    - apply Z.div_pos; lia.
    - apply Z.div_lt_upper_bound; nia. }
  assert (Hns : 0 <= ns < q + 1).
  { unfold ns. rewrite Z.quot_div_nonneg by lia. split.
    - apply Z.div_pos; lia.
    - apply Z.div_lt_upper_bound; nia. }
  split; [lia|nia].
Qed.

(** The rows kept on a page hold one cell more than [first]. *)
Lemma rows_arith (nx ny first : Z) :
  0 < nx -> 3 <= ny -> 0 <= first -> first + 1 <= nx * ny ->
  let n := Z.max (Z.quot (first + 1 + nx - 1) nx) 3 in
  let ny' := if ny >? n then n else ny in
  3 <= ny' <= ny /\ first + 1 <= nx * ny'.
Proof.
  intros Hnx Hny Hf Hfit n ny'.
  assert (Hrows : first + 1 <= nx * Z.quot (first + 1 + nx - 1) nx).
  { rewrite Z.quot_div_nonneg by lia.
    pose proof (Z.mul_succ_div_gt (first + 1 + nx - 1) nx Hnx). lia. }
  unfold ny'. destruct (Z.gtb_spec ny n); unfold n in *; split; try lia; nia.
Qed.

Section Facts.
Context `{Header}.

(** *** Cells of a page *)

Lemma rotation_range (nx r ns j : Z) :
  0 < nx -> 0 <= r -> 0 <= ns -> 0 <= j ->
  0 <= rotation nx r ns j < nx.
Proof.
  intros Hnx Hr Hns Hj. unfold rotation.
  assert (0 <= Z.quot nx (r + 1) * j).
  { apply Z.mul_nonneg_nonneg; [apply Z.quot_pos; lia | lia]. }
  assert (0 <= Z.rem (j * (ns + 1)) nx < nx).
  { apply Z.rem_bound_pos; nia. }
  rewrite Z.rem_mod_nonneg by lia.
  apply Z.mod_pos_bound. lia.
Qed.

(** The cells of string [j]: its superblock and its [ns] blocks fill the
    [ns + 1] cells from [j * (ns + 1)] on. *)
Lemma string_cells (nx r ns j : Z) :
  0 < nx -> 0 <= r -> 0 <= ns -> 0 <= j ->
  Permutation (super_cell nx r ns j
               :: ((fun i => block_cell nx r ns i j) <$> seqZ 0 ns))
              (seqZ (j * (ns + 1)) (ns + 1)).
Proof.
  intros Hnx Hr Hns Hj.
  set (rot := if ns + 1 >=? nx then rotation nx r ns j else 0).
  assert (Hrot : 0 <= rot < ns + 1).
  { unfold rot. destruct (Z.geb_spec (ns + 1) nx); [|lia].
    pose proof (rotation_range nx r ns j Hnx Hr Hns Hj). lia. }
  assert (Hs : super_cell nx r ns j = j * (ns + 1) + rot).
  { unfold super_cell, rot. destruct (ns + 1 >=? nx); lia. }
  assert (Hb : forall i, 0 <= i < ns ->
             block_cell nx r ns i j
             = j * (ns + 1) + (i + 1 + rot) `mod` (ns + 1)).
  { intros i Hi. unfold block_cell, rot.
    destruct (Z.ltb_spec (ns + 1) nx) as [Hlt|Hge].
    - destruct (Z.geb_spec (ns + 1) nx); [lia|].
      rewrite Z.mod_small by lia. lia.
    - destruct (Z.geb_spec (ns + 1) nx); [|lia].
      pose proof (rotation_range nx r ns j Hnx Hr Hns Hj).
      rewrite Z.rem_mod_nonneg by lia. reflexivity. }
  rewrite Hs.
  rewrite (proj1 (Forall_fmap_ext _
             (fun i => j * (ns + 1) + (i + 1 + rot) `mod` (ns + 1)) _)).
  2:{ apply Forall_forall. intros i Hi. apply elem_of_seqZ in Hi.
      apply Hb. lia. }
  rewrite (list_fmap_compose (fun i => (i + 1 + rot) `mod` (ns + 1))
             (Z.add (j * (ns + 1)))).
  change (j * (ns + 1) + rot :: (Z.add (j * (ns + 1)) <$>
            ((fun i => (i + 1 + rot) `mod` (ns + 1)) <$> seqZ 0 ns)))
    with (Z.add (j * (ns + 1)) <$>
            (rot :: ((fun i => (i + 1 + rot) `mod` (ns + 1)) <$> seqZ 0 ns))).
  pose proof (rotated_string (ns + 1) rot Hrot) as HP.
  replace (ns + 1 - 1) with ns in HP by lia.
  rewrite HP.
  rewrite fmap_add_seqZ. replace (j * (ns + 1) + 0) with (j * (ns + 1)) by lia.
  reflexivity.
Qed.

(** All strings together fill the first [(ns + 1) * (r + 1)] cells. *)
Lemma strings_cells (nx r ns : Z) :
  0 < nx -> 0 <= r -> 0 <= ns ->
  Permutation
    ((super_cell nx r ns <$> seqZ 0 (r + 1))
     ++ concat ((fun i => block_cell nx r ns i <$> seqZ 0 (r + 1))
                  <$> seqZ 0 ns))
    (seqZ 0 ((ns + 1) * (r + 1))).
Proof.
  intros Hnx Hr Hns.
  rewrite (concat_transpose (block_cell nx r ns) (seqZ 0 ns) (seqZ 0 (r + 1))).
  rewrite (concat_heads (super_cell nx r ns)
             (fun j => (fun i => block_cell nx r ns i j) <$> seqZ 0 ns)).
  transitivity
    (concat ((fun j => seqZ (j * (ns + 1)) (ns + 1)) <$> seqZ 0 (r + 1))).
  - assert (Hall : Forall (fun j => 0 <= j) (seqZ 0 (r + 1))).
    { apply Forall_forall. intros j Hj. apply elem_of_seqZ in Hj. lia. }
    induction Hall as [|j l Hj _ IH]; [constructor|].
    rewrite !fmap_cons, !concat_cons.
    apply Permutation_app; [|exact IH].
    apply string_cells; assumption.
  - replace (r + 1) with (Z.of_nat (Z.to_nat (r + 1))) at 1 by lia.
    rewrite (concat_seqZ_rows (ns + 1) (Z.to_nat (r + 1)) 0) by lia.
    replace (0 * (ns + 1)) with 0 by lia.
    replace (Z.of_nat (Z.to_nat (r + 1)) * (ns + 1))
      with ((ns + 1) * (r + 1)) by lia.
    reflexivity.
Qed.

Lemma data_blocks_cells p ns i cnt j off ck :
  fst <$> snd (data_blocks p ns i cnt j off ck)
  = block_cell (nx p) (redundancy p) ns i <$> seqZ j (Z.of_nat cnt).
Proof.
  revert j off ck. induction cnt as [|cnt IH]; intros j off ck.
  - reflexivity.
  - rewrite seqZ_cons by lia.
    replace (Z.pred (Z.of_nat (S cnt))) with (Z.of_nat cnt) by lia.
    cbn [data_blocks].
    specialize (IH (j + 1) (to_u32 (off + NDATA))
                   (xor_bytes ck (fill_data (buf p) (alignedsize p) off))).
    cbn [data] in *.
    destruct (data_blocks p ns i cnt (j + 1) _ _) as [[o' c'] ds].
    cbn [snd fst fmap list_fmap] in *. rewrite IH. reflexivity.
Qed.

Lemma one_group_cells p ns i off :
  0 <= redundancy p ->
  fst <$> snd (one_group p ns i off)
  = block_cell (nx p) (redundancy p) ns i <$> seqZ 0 (redundancy p + 1).
Proof.
  intros Hr. unfold one_group.
  pose proof (data_blocks_cells p ns i (Z.to_nat (redundancy p)) 0 off
                (repeat 255 (Z.to_nat NDATA))) as Hd.
  destruct (data_blocks p ns i _ 0 off _) as [[o' c'] ds].
  cbn [snd fst] in *.
  rewrite fmap_app, Hd, Z2Nat.id by lia.
  rewrite (seqZ_app 0 (redundancy p) 1) by lia.
  rewrite fmap_app. reflexivity.
Qed.

Lemma groups_cells p ns cnt i off :
  0 <= redundancy p ->
  fst <$> concat (groups p ns cnt i off)
  = concat ((fun i => block_cell (nx p) (redundancy p) ns i
                        <$> seqZ 0 (redundancy p + 1))
              <$> seqZ i (Z.of_nat cnt)).
Proof.
  intros Hr. revert i off. induction cnt as [|cnt IH]; intros i off.
  - reflexivity.
  - rewrite (seqZ_cons i) by lia.
    replace (Z.pred (Z.of_nat (S cnt))) with (Z.of_nat cnt) by lia.
    cbn [groups].
    pose proof (one_group_cells p ns i off Hr) as Hg.
    destruct (one_group p ns i off) as [o' g]. cbn [snd] in Hg.
    rewrite concat_cons, fmap_app, Hg, IH. reflexivity.
Qed.

Lemma super_draws_cells cells sb :
  fst <$> snd (super_draws cells sb) = cells.
Proof.
  revert sb. induction cells as [|k cells IH]; intros sb; [reflexivity|].
  cbn [super_draws]. specialize (IH (Drawblock_encode sb)).
  destruct (super_draws cells _) as [sb' ds]. cbn [snd fmap list_fmap] in *.
  rewrite IH. reflexivity.
Qed.

(** The cells of a page in the order of the calls: the superblocks of the
    strings, the groups, the remaining cells. *)
Lemma page_draws_cells p :
  0 <= redundancy p -> 0 <= page_nstring p ->
  fst <$> page_draws p
  = (super_cell (nx p) (redundancy p) (page_nstring p)
       <$> seqZ 0 (redundancy p + 1))
    ++ concat ((fun i => block_cell (nx p) (redundancy p) (page_nstring p) i
                           <$> seqZ 0 (redundancy p + 1))
                 <$> seqZ 0 (page_nstring p))
    ++ seqZ ((page_nstring p + 1) * (redundancy p + 1))
            (nx p * page_ny p - (page_nstring p + 1) * (redundancy p + 1)).
Proof.
  intros Hr Hns. unfold page_draws, page_fillers, page_supers, page_groups.
  rewrite !fmap_app, !super_draws_cells, groups_cells by assumption.
  rewrite Z2Nat.id by assumption. reflexivity.
Qed.

Lemma drawn_cells_app evs1 evs2 :
  drawn_cells (evs1 ++ evs2) = drawn_cells evs1 ++ drawn_cells evs2.
Proof.
  induction evs1 as [|e evs1 IH]; [reflexivity|].
  destruct e; simpl; rewrite IH; reflexivity.
Qed.

Lemma drawn_cells_Drawn (ds : list draw) :
  drawn_cells (uncurry Drawn <$> ds) = fst <$> ds.
Proof.
  induction ds as [|[k b] ds IH]; [reflexivity|].
  simpl. f_equal. exact IH.
Qed.

Lemma save_page_no_draw p io : drawn_cells (snd (save_page p io)) = [].
Proof.
  unfold save_page.
  destruct (negb (fopen_ok io)); [reflexivity|].
  destruct (negb (_ =? sizeof_bmfh)); [reflexivity|].
  destruct (negb (_ =? to_u32 sizeof_bmi)); [reflexivity|].
  destruct (_ =? _); reflexivity.
Qed.

(** What [Printnextpage] leaves: the next step when all pages are done, a
    stopped job, or the same step with the next page. *)
Lemma Printnextpage_cases p io :
  (pages_done p = true /\
   Printnextpage p io = (set_step_frompage p (step p + 1) (frompage p), []))
  \/ (pages_done p = false /\
      fst (Printnextpage p io) = Stopprinting (page_drawn p))
  \/ (pages_done p = false /\
      fst (Printnextpage p io)
      = set_step_frompage (page_drawn p) (step p) (frompage p + 1)).
Proof.
  unfold Printnextpage. destruct (pages_done p); [left; auto|right].
  assert (Hs : fst (save_page (page_drawn p) io) = Stopprinting (page_drawn p)
               \/ fst (save_page (page_drawn p) io)
                  = set_step_frompage (page_drawn p) (step p) (frompage p + 1)).
  { unfold save_page.
    destruct (negb (fopen_ok io)); [left; reflexivity|].
    destruct (negb (_ =? sizeof_bmfh)); [right; reflexivity|].
    destruct (negb (_ =? to_u32 sizeof_bmi)); [left; reflexivity|].
    destruct (_ =? _); [right|left]; reflexivity. }
  destruct (save_page (page_drawn p) io) as [p' evs]. cbn [fst] in *.
  destruct Hs; [left|right]; auto.
Qed.

Lemma Printnextpage_drawn_cells p io :
  pages_done p = false ->
  drawn_cells (snd (Printnextpage p io)) = fst <$> page_draws p.
Proof.
  intros Hd. unfold Printnextpage. rewrite Hd.
  pose proof (save_page_no_draw (page_drawn p) io) as Hs.
  destruct (save_page (page_drawn p) io) as [p' evs]. cbn [snd] in *.
  cbn [drawn_cells]. rewrite drawn_cells_app, Hs, drawn_cells_Drawn.
  apply app_nil_r.
Qed.

(** *** The plan in the emit phase *)

(** [Initializeprinting] reports no error exactly when the area is large
    enough, the output is named and the bitmap is allocated. *)
Lemma init_ok_inv o p m :
  reported (snd (Initializeprinting o p m)) = [] ->
  too_small o p = false /\ outbmp p <> [] /\ m = true.
Proof.
  unfold Initializeprinting.
  destruct (too_small o p); [discriminate|].
  destruct (outbmp p) as [|c rest]; [discriminate|].
  destruct m; [auto|discriminate].
Qed.

Lemma emitting_planned o p0 p : emitting o p0 p -> planned o p0 p.
Proof.
  induction 1 as [m Hok Hstep | p io Hem IH Hsame].
  - apply init_ok_inv in Hok as (Hsmall & Hout & ->).
    unfold Initializeprinting. rewrite Hsmall.
    destruct (outbmp p0) as [|c rest] eqn:Ho; [congruence|].
    unfold planned. cbn. repeat split; try reflexivity; try lia. assumption.
  - destruct (Printnextpage_cases p io) as [[_ Hp] | [[_ Hp] | [_ Hp]]].
    + rewrite Hp in Hsame. cbn in Hsame. lia.
    + rewrite Hp in Hsame. cbn in Hsame.
      destruct IH as (_ & _ & Hnz & _). congruence.
    + rewrite Hp. unfold planned in *. cbn.
      repeat match goal with H : _ /\ _ |- _ => destruct H as [? H] end.
      repeat split; try assumption. lia.
Qed.


Lemma planned_feasible o p0 p :
  planned o p0 p ->
  redundancy p + 1 <= nx p /\ 3 <= ny p /\ 2 * redundancy p + 2 <= nx p * ny p.
Proof.
  intros (Hsmall & _ & _ & Hr & Hnx & Hny & _).
  unfold too_small in Hsmall. rewrite Hr, Hnx, Hny.
  apply orb_false_elim in Hsmall as [Hsmall H3].
  apply orb_false_elim in Hsmall as [H1 H2].
  apply Z.ltb_ge in H1, H2, H3. lia.
Qed.

Lemma planned_pagesize o p0 p :
  0 < NDATA -> 1 <= redundancy p0 -> plan_pagesize o p0 <= INT_MAX ->
  planned o p0 p ->
  pagesize p
  = Z.quot (nx p * ny p - redundancy p - 2) (redundancy p + 1)
    * redundancy p * NDATA
  /\ 0 <= pagesize p <= INT_MAX.
Proof.
  intros Hnd Hr Hmax Hpl.
  pose proof (planned_feasible o p0 p Hpl) as (Hf1 & Hf2 & Hf3).
  destruct Hpl as (_ & _ & _ & Hr' & Hnx & Hny & _ & _ & _ & _ & _ & _ & _
                   & Hps & _).
  assert (Hpos : 0 <= plan_pagesize o p0).
  { unfold plan_pagesize. rewrite <- Hnx, <- Hny, <- Hr'.
    rewrite Z.quot_div_nonneg by lia.
    assert (0 <= (nx p * ny p - redundancy p - 2) / (redundancy p + 1))
      by (apply Z.div_pos; lia).
    nia. }
  unfold INT_MAX in *.
  rewrite Hps, to_u32_small by lia.
  split; [|lia]. unfold plan_pagesize. rewrite Hnx, Hny, Hr'. reflexivity.
Qed.

(** The strings of a page and one cell more fit in the rows of the page. *)
Lemma page_capacity o p0 p :
  0 < NDATA -> 1 <= redundancy p0 -> plan_pagesize o p0 <= INT_MAX ->
  planned o p0 p ->
  0 <= page_nstring p
  /\ (page_nstring p + 1) * (redundancy p + 1) + 1 <= nx p * page_ny p
  /\ 3 <= page_ny p <= ny p.
Proof.
  intros Hnd Hr Hmax Hpl.
  pose proof (planned_feasible o p0 p Hpl) as (Hf1 & Hf2 & Hf3).
  pose proof (planned_pagesize o p0 p Hnd Hr Hmax Hpl) as [Hps Hrange].
  assert (Hr' : redundancy p = redundancy p0) by apply Hpl.
  set (l := to_int (Z.min (to_u32 (alignedsize p - page_offset p))
                          (pagesize p))).
  assert (Hl : 0 <= l <= pagesize p).
  { unfold l.
    pose proof (to_u32_range (alignedsize p - page_offset p)).
    rewrite to_int_small; lia. }
  rewrite Hps in Hl.
  pose proof (capacity_arith (nx p) (ny p) (redundancy p) NDATA l
                Hnd ltac:(lia) Hf3 Hl) as [Hns Hfit].
  fold l in Hns, Hfit.
  change (Z.quot (Z.quot (l + NDATA - 1) NDATA + redundancy p - 1)
                 (redundancy p)) with (page_nstring p) in Hns, Hfit.
  split; [exact Hns|].
  assert (Hfirst : 0 <= (page_nstring p + 1) * (redundancy p + 1))
    by (apply Z.mul_nonneg_nonneg; lia).
  pose proof (rows_arith (nx p) (ny p)
                ((page_nstring p + 1) * (redundancy p + 1))
                ltac:(lia) Hf2 Hfirst Hfit) as [Hny Hrows].
  split; [|exact Hny]. unfold page_ny. lia.
Qed.

(** ** C2: every cell of the page is drawn once *)

(** Claim C2.  On every page that [Printnextpage] emits in the emit phase
    (after [Initializeprinting] succeeded with a redundancy of at least 1),
    the cell indices handed to [Drawblock] -- superblocks of the strings,
    data blocks, recovery blocks and the superblocks in the remaining
    cells -- are a rearrangement of [0, ..., nx * ny - 1], where [ny] is
    the number of rows of this page (possibly reduced on the last page):
    every cell is drawn exactly once and no other index is drawn. *)
Theorem page_cells_once o p0 p io :
  0 < NDATA -> 1 <= redundancy p0 -> plan_pagesize o p0 <= INT_MAX ->
  emitting o p0 p -> pages_done p = false ->
  Permutation (drawn_cells (snd (Printnextpage p io)))
              (seqZ 0 (nx p * page_ny p)).
Proof.
  intros Hnd Hr Hmax Hem Hdone.
  pose proof (emitting_planned o p0 p Hem) as Hpl.
  pose proof (page_capacity o p0 p Hnd Hr Hmax Hpl) as (Hns & Hfit & Hny).
  pose proof (planned_feasible o p0 p Hpl) as (Hf1 & Hf2 & Hf3).
  assert (Hr' : redundancy p = redundancy p0) by apply Hpl.
  rewrite Printnextpage_drawn_cells by assumption.
  rewrite page_draws_cells by lia.
  rewrite app_assoc.
  rewrite (strings_cells (nx p) (redundancy p) (page_nstring p)) by lia.
  set (first := (page_nstring p + 1) * (redundancy p + 1)) in *.
  replace (nx p * page_ny p) with (first + (nx p * page_ny p - first)) at 2
    by lia.
  rewrite (seqZ_app 0 first) by (unfold first; nia).
  reflexivity.
Qed.


(** ** C1: the recovery block of a group *)

Lemma xor_bytes_assoc (a b c : list Z) :
  xor_bytes (xor_bytes a b) c = xor_bytes a (xor_bytes b c).
Proof.
  unfold xor_bytes. revert b c.
  induction a as [|x a IH]; intros [|y b] [|z c]; simpl; try reflexivity.
  rewrite IH, Z.lxor_assoc. reflexivity.
Qed.

Lemma xor_all_acc (a b : list Z) (ds : list (list Z)) :
  xor_all (xor_bytes a b) ds = xor_bytes a (xor_all b ds).
Proof.
  unfold xor_all. revert b. induction ds as [|d ds IH]; intros b; simpl.
  - reflexivity.
  - rewrite xor_bytes_assoc. apply IH.
Qed.

Lemma xor_bytes_zeros (v : Z) (n : nat) :
  xor_bytes (repeat v n) (repeat 0 n) = repeat v n.
Proof.
  unfold xor_bytes. induction n as [|n IH]; simpl; [reflexivity|].
  rewrite IH, Z.lxor_0_r. reflexivity.
Qed.

Lemma length_xor_bytes (a b : list Z) (n : nat) :
  length a = n -> length b = n -> length (xor_bytes a b) = n.
Proof.
  intros Ha Hb. unfold xor_bytes. rewrite length_zip_with. lia.
Qed.

Lemma length_fill_data bs size off :
  length (fill_data bs size off) = Z.to_nat NDATA.
Proof.
  unfold fill_data. rewrite length_take, length_app, repeat_length. lia.
Qed.

(** Blocks that start at or past the end of the data are all zero. *)
Lemma fill_data_past_end bs size off :
  size <= off -> fill_data bs size off = repeat 0 (Z.to_nat NDATA).
Proof.
  intros Hoff. unfold fill_data.
  destruct (Z.ltb_spec off size); [lia|].
  cbn [Z.to_nat firstn app]. apply take_ge. rewrite repeat_length. lia.
Qed.

Lemma data_blocks_parity p ns i cnt j off ck :
  length ck = Z.to_nat NDATA ->
  let r := data_blocks p ns i cnt j off ck in
  snd (fst r) = xor_all ck ((fun d => data (snd d)) <$> snd r)
  /\ length (snd (fst r)) = Z.to_nat NDATA
  /\ length (snd r) = cnt
  /\ Forall (fun d => from_buffer p (data (snd d))) (snd r).
Proof.
  revert j off ck. induction cnt as [|cnt IH]; intros j off ck Hck.
  - cbn. auto.
  - cbn [data_blocks data].
    specialize (IH (j + 1) (to_u32 (off + NDATA))
                   (xor_bytes ck (fill_data (buf p) (alignedsize p) off))).
    destruct (data_blocks p ns i cnt (j + 1) _ _) as [[o' c'] ds].
    cbn [fst snd] in *.
    destruct IH as (Hx & Hlen & Hcnt & Hall).
    { apply length_xor_bytes; [assumption|apply length_fill_data]. }
    rewrite fmap_cons. cbn [snd data Drawblock_encode].
    repeat split; try assumption.
    + cbn [length]. lia.
    + constructor; [|assumption].
      split; [apply length_fill_data|exists off; reflexivity].
Qed.

(** What one group looks like: [redundancy] data blocks of [NDATA] bytes,
    then the recovery block, whose data is the XOR of 0xFF and of the data
    of the members, byte by byte. *)
Lemma one_group_parity p ns i off :
  let g := snd (one_group p ns i off) in
  length (members_data g) = Z.to_nat (redundancy p)
  /\ Forall (from_buffer p) (members_data g)
  /\ length (parity_data g) = Z.to_nat NDATA
  /\ parity_data g
     = xor_bytes (repeat 0xFF (Z.to_nat NDATA))
                 (xor_all (repeat 0 (Z.to_nat NDATA)) (members_data g)).
Proof.
  unfold one_group.
  pose proof (data_blocks_parity p ns i (Z.to_nat (redundancy p)) 0 off
                (repeat 255 (Z.to_nat NDATA)) (repeat_length _ _))
    as (Hx & Hlen & Hcnt & Hall).
  destruct (data_blocks p ns i _ 0 off _) as [[o' c'] ds].
  cbn [fst snd] in *.
  unfold members_data, parity_data.
  rewrite removelast_last, last_snoc. cbn [snd data Drawblock_encode].
  rewrite length_fmap.
  repeat split; try assumption.
  - apply Forall_fmap. exact Hall.
  - rewrite Hx. rewrite <- xor_all_acc. rewrite xor_bytes_zeros. reflexivity.
Qed.

Lemma groups_parity p ns cnt i off g :
  g ∈ groups p ns cnt i off ->
  length (members_data g) = Z.to_nat (redundancy p)
  /\ Forall (from_buffer p) (members_data g)
  /\ length (parity_data g) = Z.to_nat NDATA
  /\ parity_data g
     = xor_bytes (repeat 0xFF (Z.to_nat NDATA))
                 (xor_all (repeat 0 (Z.to_nat NDATA)) (members_data g)).
Proof.
  revert i off. induction cnt as [|cnt IH]; intros i off Hin.
  - cbn in Hin. inversion Hin.
  - cbn [groups] in Hin.
    pose proof (one_group_parity p ns i off) as Hg.
    destruct (one_group p ns i off) as [o' g'].
    cbn [snd] in Hg.
    apply elem_of_cons in Hin as [-> | Hin]; [exact Hg|].
    exact (IH _ _ Hin).
Qed.

(** Claim C1, as amended.  For every group of every page, the group is
    drawn as [redundancy] data blocks followed by one recovery block; each
    data block holds [NDATA] bytes of the buffer, filled with zeros past
    the end of the data ([fill_data_past_end]: all zeros for a block that
    starts at or past the end); and the data of the recovery block is,
    byte by byte, the XOR of 0xFF with the XOR of the data of the members
    (the recovery data starts as all 0xFF, not as zeros). *)
Theorem parity_is_complemented_xor p g :
  g ∈ page_groups p ->
  length (members_data g) = Z.to_nat (redundancy p)
  /\ Forall (from_buffer p) (members_data g)
  /\ length (parity_data g) = Z.to_nat NDATA
  /\ parity_data g
     = xor_bytes (repeat 0xFF (Z.to_nat NDATA))
                 (xor_all (repeat 0 (Z.to_nat NDATA)) (members_data g)).
Proof. apply groups_parity. Qed.

(** ** C6: the printable area is too small *)

(** Claim C6.  [Initializeprinting] reports "Printable area is too small"
    if and only if the computed cell counts satisfy [nx < redundancy + 1]
    or [ny < 3] or [nx * ny < 2 * redundancy + 2]; in that case the report
    is all it does besides stopping the job: the job is left in the
    terminal step with no bitmap, no allocation is requested, no block is
    drawn and no file operation takes place, and the job has no state in
    the emit phase, where pages are emitted. *)
Theorem too_small_iff o p m :
  let msg := "Printable area is too small, reduce borders or block size"%string in
  let r := Initializeprinting o p m in
  let small := plan_nx o p < redundancy p + 1 \/ plan_ny o p < 3
               \/ plan_nx o p * plan_ny o p < 2 * redundancy p + 2 in
  (msg ∈ reported (snd r) <-> small)
  /\ (small ->
      fst r = Stopprinting (init_defaults o p)
      /\ snd r = [Reporterror msg]
      /\ step (fst r) = 0 /\ drawbits (fst r) = None
      /\ allocated (snd r) = [] /\ drawn_cells (snd r) = []
      /\ forall q, ~ emitting o p q).
Proof.
  intros msg r small.
  assert (Hs : too_small o p = true <-> small).
  { unfold too_small, small.
    rewrite !orb_true_iff, !Z.ltb_lt. tauto. }
  subst r. unfold Initializeprinting.
  destruct (too_small o p) eqn:Hts.
  - split.
    + split; [intros _; apply Hs; reflexivity|].
      intros _. cbn. apply list_elem_of_here.
    + intros _. cbn. repeat (split; [reflexivity|]).
      intros q Hq. apply emitting_planned in Hq as [Hq _]. congruence.
  - assert (Hns : ~ small) by (rewrite <- Hs; discriminate).
    split; [|tauto].
    split; [|tauto]. intros Hin. exfalso.
    destruct (outbmp p); [|destruct m]; cbn in Hin;
      repeat (apply elem_of_cons in Hin as [Hin|Hin]; [discriminate Hin|]);
      inversion Hin.
Qed.

(** ** C7: the page size *)

(** Claim C7.  When [Initializeprinting] succeeds (with a redundancy that
    is not negative and a page size that fits an [int]), the page size it
    stores in the job, and copies into the superblock, is
    [floor ((nx * ny - redundancy - 2) / (redundancy + 1)) * redundancy
     * NDATA] for the cell counts [nx] and [ny] it stores. *)
Theorem pagesize_formula o p m :
  0 <= NDATA -> 0 <= redundancy p -> plan_pagesize o p <= INT_MAX ->
  reported (snd (Initializeprinting o p m)) = [] ->
  let p' := fst (Initializeprinting o p m) in
  nx p' = plan_nx o p /\ ny p' = plan_ny o p
  /\ pagesize p'
     = (nx p' * ny p' - redundancy p - 2) / (redundancy p + 1)
       * redundancy p * NDATA
  /\ sd_pagesize (superdata p') = pagesize p'.
Proof.
  intros Hnd Hr Hmax Hok p'.
  pose proof (init_ok_inv o p m Hok) as (Hsmall & Hout & ->).
  subst p'. unfold Initializeprinting. rewrite Hsmall.
  destruct (outbmp p) as [|c rest]; [congruence|]. cbn.
  unfold too_small in Hsmall.
  apply orb_false_elim in Hsmall as [Hsmall H3].
  apply orb_false_elim in Hsmall as [H1 H2].
  apply Z.ltb_ge in H1, H2, H3.
  repeat split.
  unfold plan_pagesize in *. rewrite Z.quot_div_nonneg in * by lia.
  apply to_u32_small. unfold INT_MAX in Hmax.
  assert (0 <= (plan_nx o p * plan_ny o p - redundancy p - 2)
                / (redundancy p + 1)) by (apply Z.div_pos; lia).
  split; [nia|lia].
Qed.

(** ** C5: the error paths *)

(** Claim C5 fails on the allocation path.  When the bitmap cannot be
    allocated, [Initializeprinting] reports "Low memory" and returns
    without stopping: the job keeps the step it had. *)
Theorem low_memory_not_stopped o p :
  too_small o p = false -> outbmp p <> [] ->
  let r := Initializeprinting o p false in
  reported (snd r) = ["Low memory, can't create bitmap"%string]
  /\ step (fst r) = step p
  /\ fst r = set_drawbits (init_defaults o p) None.
Proof.
  intros Hsmall Hout r. subst r. unfold Initializeprinting. rewrite Hsmall.
  destruct (outbmp p) as [|c rest]; [congruence|]. cbn. auto.
Qed.

(** The same claim fails on a short write of the file header: nothing is
    reported, the file is not closed and the next page is prepared. *)
Lemma short_header_write_goes_on p io :
  pages_done p = false -> fopen_ok io = true ->
  to_u32 (fwrite_bmfh io) <> sizeof_bmfh ->
  let r := Printnextpage p io in
  reported (snd r) = [] /\ step (fst r) = step p
  /\ frompage (fst r) = frompage p + 1
  /\ Fclose ∉ snd r.
Proof.
  intros Hdone Hopen Hshort r. subst r. unfold Printnextpage, save_page.
  rewrite Hdone, Hopen. cbn [negb].
  destruct (Z.eqb_spec (to_u32 (fwrite_bmfh io)) sizeof_bmfh); [contradiction|].
  cbn [negb fst snd reported].
  assert (Hrep : forall ds : list draw, reported (uncurry Drawn <$> ds) = []).
  { induction ds as [|[k b] ds IH]; [reflexivity|exact IH]. }
  assert (Hrep' : forall a b, reported (a ++ b) = reported a ++ reported b).
  { induction a as [|e a IH]; intros b; [reflexivity|].
    destruct e; cbn; rewrite ?IH; reflexivity. }
  rewrite Hrep', Hrep. cbn. repeat split.
  intros Hin. apply elem_of_cons in Hin as [Hin|Hin]; [discriminate|].
  apply elem_of_app in Hin as [Hin|Hin].
  - apply list_elem_of_fmap in Hin as ([k b] & Hin & _). discriminate.
  - repeat (apply elem_of_cons in Hin as [Hin|Hin]; [discriminate|]).
    inversion Hin.
Qed.


(** ** C8: the CRC of a drawn block *)

(** Claim C8.  For a block with [NDATA] data bytes, [Drawblock] leaves a
    record whose first [NDATA + 4] bytes are the 4-byte address followed by
    the data, whose [crc] is the CRC-16 of these bytes XOR 0x55AA, and
    whose two bytes after the data are this value, low byte first.  (The
    CRC routine returns a 16-bit value.) *)
Theorem drawblock_crc index block w h bo cx cy ddx ddy ppx ppy bl :
  0 <= NDATA -> length (data block) = Z.to_nat NDATA ->
  (forall bs, 0 <= Crc16 bs < 2 ^ 16) ->
  let b' := fst (Drawblock index block w h bo cx cy ddx ddy ppx ppy bl) in
  let covered := take (Z.to_nat (NDATA + 4)) (block_bytes b') in
  covered = le_bytes 4 (addr block) ++ data block
  /\ crc b' = Z.lxor (Crc16 covered) 0x55AA
  /\ take 2 (drop (Z.to_nat (NDATA + 4)) (block_bytes b'))
     = [crc b' mod 256; crc b' / 256]
  /\ 0 <= crc b' / 256 < 256.
Proof.
  intros Hnd Hlen Hcrc b' covered.
  assert (Hn : Z.to_nat (NDATA + 4) = length (le_bytes 4 (addr block) ++ data block)).
  { rewrite length_app, length_le_bytes, Hlen. lia. }
  assert (Hcov : forall c e,
            take (Z.to_nat (NDATA + 4))
              (le_bytes 4 (addr block) ++ data block ++ le_bytes 2 c ++ e)
            = le_bytes 4 (addr block) ++ data block).
  { intros c e. rewrite app_assoc. apply take_app_length'. exact Hn. }
  assert (Hc : crc b'
               = Z.lxor (Crc16 (le_bytes 4 (addr block) ++ data block)) 0x55AA).
  { subst b'. cbn [Drawblock fst Drawblock_encode crc].
    unfold block_bytes. rewrite Hcov.
    apply Z.mod_small, lxor_u16; [apply Hcrc|lia]. }
  assert (Hb : block_bytes b'
               = (le_bytes 4 (addr block) ++ data block)
                 ++ le_bytes 2 (crc b') ++ ecc b').
  { unfold block_bytes. subst b'. cbn. reflexivity. }
  assert (Hrange : 0 <= crc b' < 2 ^ 16).
  { rewrite Hc. apply lxor_u16; [apply Hcrc|lia]. }
  subst covered. rewrite Hb.
  rewrite (take_app_length' _ _ _ Hn), (drop_app_length' _ _ _ Hn).
  repeat split.
  - exact Hc.
  - cbn [le_bytes app firstn]. rewrite (Z.mod_small (crc b' / 256)); [reflexivity|].
    split; [apply Z.div_pos; lia|apply Z.div_lt_upper_bound; lia].
  - apply Z.div_pos; lia.
  - apply Z.div_lt_upper_bound; lia.
Qed.

(** ** C4: the name in the superblock *)

(** For every job, the terminator that follows [strncpy] is stored one byte
    past the [name] field: the name is what [strncpy] left, and the low
    byte of the CRC field that follows it is cleared. *)
Lemma terminator_lands_after_name p :
  0 <= NAMESIZE -> length (sd_name (superdata p)) = Z.to_nat NAMESIZE ->
  let s := prepare_superdata p in
  sd_name s
  = take (Z.to_nat NAMESIZE) (job_fil p ++ repeat 0 (Z.to_nat NAMESIZE))
  /\ sd_crc s = 256 * (sd_crc (superdata p) / 256 mod 256).
Proof.
  intros Hn Hlen s. subst s. unfold prepare_superdata, store_name.
  cbn [sd_name sd_crc sd_ecc].
  set (name1 := strncpy (sd_name (superdata p)) (job_fil p) NAMESIZE).
  assert (Hl1 : length name1 = Z.to_nat NAMESIZE).
  { unfold name1, strncpy.
    rewrite length_app, length_take, length_drop, length_app, repeat_length.
    lia. }
  assert (Hname : name1 = take (Z.to_nat NAMESIZE)
                            (job_fil p ++ repeat 0 (Z.to_nat NAMESIZE))).
  { unfold name1, strncpy. rewrite drop_ge by lia. apply app_nil_r. }
  assert (Hins : <[Z.to_nat NAMESIZE := 0]>
                   (name1 ++ le_bytes 2 (sd_crc (superdata p))
                          ++ sd_ecc (superdata p))
                 = name1 ++ 0 :: sd_crc (superdata p) / 256 mod 256
                               :: sd_ecc (superdata p)).
  { replace (Z.to_nat NAMESIZE) with (length name1 + 0)%nat by lia.
    rewrite insert_app_r. reflexivity. }
  rewrite Hins, take_app_length, drop_app_length.
  split; [exact Hname|]. simpl. lia.
Qed.

End Facts.

(** Claim C4 fails for the file name of 70 letters "a" (with a [name]
    field of 63 bytes): after [Initializeprinting] the field holds 63
    letters and no zero byte, and the CRC field after it, 0xFFFF before,
    has lost its low byte to the terminator. *)
Theorem name_terminator_outside :
  let s0 := superdata job_long_name in
  let s := superdata (ready options_67 job_long_name) in
  sd_name s = repeat 97 63 /\ (0 ∉ sd_name s)
  /\ sd_crc s0 = 0xFFFF /\ sd_crc s = 0xFF00.
Proof.
  cbv zeta. split; [vm_compute; reflexivity|].
  split; [|split; vm_compute; reflexivity].
  replace (sd_name (superdata (ready options_67 job_long_name)))
    with (repeat 97 63) by (vm_compute; reflexivity).
  intros Hin. apply list_elem_of_In, repeat_spec in Hin. discriminate.
Qed.

(** ** C3: blocks of a group and bitmap columns *)

(** Claim C3 fails for 15744 data bytes with redundancy 5 on a page of 28
    columns (300 dpi, 200 dots per inch): the page has 35 groups, so
    [nstring + 1 = 36 >= nx = 28], and in group 15 the data blocks 0 and 2
    are drawn in cells 16 and 72, both in column 16. *)
Theorem skew_same_column :
  let p := ready options_200 job_skew in
  (nx p, page_nstring p + 1,
   (fun d => (fst d, Z.rem (fst d) (nx p))) <$> (page_groups p !!! 15%nat))
  = (28, 36, [(16, 16); (40, 12); (72, 16); (140, 0); (172, 4); (204, 8)]).
Proof. vm_compute. reflexivity. Qed.

(** ** C1: the recovery block, as stated *)

(** Claim C1 as stated fails for one byte 0x41 with redundancy 1: the only
    group has one data block that starts with 0x41 and a recovery block
    that starts with 0xBE. *)
Lemma parity_not_plain_xor :
  ~ plain_parity (ready options_67 job_one_byte).
Proof.
  intros Hp.
  assert (Hin : (page_groups (ready options_67 job_one_byte) !!! 0%nat)
                ∈ page_groups (ready options_67 job_one_byte)).
  { vm_compute. apply list_elem_of_here. }
  specialize (Hp _ Hin). vm_compute in Hp. discriminate Hp.
Qed.

(** ** C10: the pixels of a block stay in the bitmap *)

Section Bitmap.
Context `{Header}.

Lemma dot_stores_in bits x w ppx ppy bl off v :
  (off, v) ∈ dot_stores bits x w ppx ppy bl ->
  exists m n, 0 <= m < ppy /\ 0 <= n < ppx /\ off = bits + (x - m * w + n).
Proof.
  unfold dot_stores. intros Hin.
  apply list_elem_of_In, in_flat_map in Hin as (m & Hm & Hin).
  apply list_elem_of_In, elem_of_seqZ in Hm.
  apply list_elem_of_In, list_elem_of_fmap in Hin as (n & Heq & Hn).
  apply elem_of_seqZ in Hn. inversion Heq; subst.
  exists m, n. repeat split; lia.
Qed.

Lemma word_stores_in cnt t x bits w ddx ppx ppy bl off v :
  (off, v) ∈ word_stores cnt t x bits w ddx ppx ppy bl ->
  exists i m n, 0 <= i < Z.of_nat cnt /\ 0 <= m < ppy /\ 0 <= n < ppx
                /\ off = bits + (x + i * ddx - m * w + n).
Proof.
  revert t x. induction cnt as [|cnt IH]; intros t x Hin.
  - inversion Hin.
  - cbn [word_stores] in Hin. apply elem_of_app in Hin as [Hin|Hin].
    + destruct (Z.land t 1 =? 0); [inversion Hin|].
      apply dot_stores_in in Hin as (m & n & Hm & Hn & ->).
      exists 0, m, n. repeat split; lia.
    + apply IH in Hin as (i & m & n & Hi & Hm & Hn & ->).
      exists (i + 1), m, n. repeat split; lia.
Qed.

Lemma rows_stores_in cnt b j bits w ddx ddy ppx ppy bl off v :
  (off, v) ∈ rows_stores cnt b j bits w ddx ddy ppx ppy bl ->
  exists jj i m n, 0 <= jj < Z.of_nat cnt /\ 0 <= i < 32
                   /\ 0 <= m < ppy /\ 0 <= n < ppx
                   /\ off = bits - jj * (ddy * w) + (i * ddx - m * w + n).
Proof.
  revert j bits. induction cnt as [|cnt IH]; intros j bits Hin.
  - inversion Hin.
  - cbn [rows_stores] in Hin. apply elem_of_app in Hin as [Hin|Hin].
    + apply word_stores_in in Hin as (i & m & n & Hi & Hm & Hn & ->).
      exists 0, i, m, n. repeat split; lia.
    + apply IH in Hin as (jj & i & m & n & Hj & Hi & Hm & Hn & ->).
      exists (jj + 1), i, m, n. repeat split; lia.
Qed.

(** Every pixel of a block is in a row and a column of the bitmap, for a
    cell of the grid and a bitmap as wide and as high as the grid needs. *)
Lemma Drawblock_stores_in index block w h bo cx cy ddx ddy ppx ppy bl off v :
  0 < cx -> 0 <= index < cx * cy ->
  2 <= ddx -> 2 <= ddy -> 0 <= bo ->
  cx * (NDOT + 3) * ddx + ppx + 2 * bo <= w ->
  h = cy * (NDOT + 3) * ddy + ppy + 2 * bo ->
  (off, v) ∈ Drawblock_stores index block w h bo cx cy ddx ddy ppx ppy bl ->
  exists row col, 0 <= row < h /\ 0 <= col < w /\ off = row * w + col.
Proof.
  intros Hcx Hidx Hdx Hdy Hbo Hw Hh Hin. unfold Drawblock_stores in Hin.
  apply rows_stores_in in Hin as (jj & i & m & n & Hj & Hi & Hm & Hn & ->).
  rewrite Z.rem_mod_nonneg, Z.quot_div_nonneg by lia.
  pose proof (Z.mod_pos_bound index cx Hcx) as Hcol.
  assert (Hrow : 0 <= index / cx < cy).
  { split; [apply Z.div_pos; lia|apply Z.div_lt_upper_bound; lia]. }
  set (c := index `mod` cx) in *. set (r := index / cx) in *.
  unfold NDOT in *.
  exists (h - 1 - (r * (32 + 3) * ddy + 2 * ddy + bo + jj * ddy + m)),
         (c * (32 + 3) * ddx + 2 * ddx + bo + i * ddx + n).
  assert (c * ddx <= (cx - 1) * ddx) by nia.
  assert (r * ddy <= (cy - 1) * ddy) by nia.
  assert (0 <= c * ddx) by nia.
  assert (0 <= r * ddy) by nia.
  assert (0 <= i * ddx <= 31 * ddx) by nia.
  assert (0 <= jj * ddy <= 31 * ddy) by nia.
  repeat split; try lia.
Qed.

Lemma Fillblock_bits_in cnt t i x0 y0 j w h ddx ddy ppx ppy bl off v :
  In (off, v) (Fillblock_bits cnt t i x0 y0 j w h ddx ddy ppx ppy bl) ->
  exists row col, 0 <= row < h /\ 0 <= col < w /\ off = row * w + col.
Proof.
  revert t i. induction cnt as [|cnt IH]; intros t i Hin; [inversion Hin|].
  cbn [Fillblock_bits] in Hin. apply in_app_or in Hin as [Hin|Hin].
  - destruct (Z.land t 1 =? 0); [inversion Hin|].
    unfold Fillblock_dot in Hin.
    apply in_flat_map in Hin as (m & _ & Hin).
    apply in_flat_map in Hin as (n & _ & Hin).
    cbv zeta in Hin.
    match type of Hin with
    | In _ (if ?c then _ else _) => destruct c eqn:Hclip
    end; [inversion Hin|].
    destruct Hin as [Heq|[]]. injection Heq as <- <-.
    apply orb_false_elim in Hclip as [Hclip Hy2].
    apply orb_false_elim in Hclip as [Hclip Hy1].
    apply orb_false_elim in Hclip as [Hx1 Hx2].
    apply Z.ltb_ge in Hx1, Hy1. rewrite Z.geb_leb in Hx2, Hy2.
    apply Z.leb_gt in Hx2, Hy2.
    refine (ex_intro _ _ (ex_intro _ _ (conj _ (conj _ eq_refl)))); lia.
  - exact (IH _ _ Hin).
Qed.

(** [Fillblock] tests every pixel, so its stores are in the bitmap for any
    cell, inside or outside the grid. *)
Lemma Fillblock_in_bitmap bx by_ w h bo cx cy ddx ddy ppx ppy bl off v :
  (off, v) ∈ Fillblock bx by_ w h bo cx cy ddx ddy ppx ppy bl ->
  exists row col, 0 <= row < h /\ 0 <= col < w /\ off = row * w + col.
Proof.
  unfold Fillblock. intros Hin.
  apply list_elem_of_In, in_flat_map in Hin as (j & _ & Hin).
  exact (Fillblock_bits_in _ _ _ _ _ _ _ _ _ _ _ _ _ _ _ Hin).
Qed.

Lemma plan_width_bounds o p :
  0 <= plan_width_raw o p <= INT_MAX ->
  plan_width_raw o p - 3 <= plan_width o p <= plan_width_raw o p.
Proof.
  unfold INT_MAX. intros Hraw. unfold plan_width.
  rewrite to_u32_small, land_FFFFFFFC by lia.
  rewrite to_int_small; unfold INT_MAX.
  - pose proof (Z.mul_div_le (plan_width_raw o p) 4 ltac:(lia)).
    pose proof (Z.mul_succ_div_gt (plan_width_raw o p) 4 ltac:(lia)). lia.
  - pose proof (Z.mul_div_le (plan_width_raw o p) 4 ltac:(lia)).
    pose proof (Z.mul_succ_div_gt (plan_width_raw o p) 4 ltac:(lia)). lia.
Qed.

Lemma plan_dots o :
  2 <= plan_dx o /\ 2 <= plan_dy o /\ 1 <= plan_px o /\ 1 <= plan_py o.
Proof. unfold plan_dx, plan_dy, plan_px, plan_py. lia. Qed.

Lemma plan_border_nonneg o p : 0 <= plan_border o p.
Proof.
  unfold plan_border. pose proof (plan_dots o).
  destruct (negb _); [lia|]. destruct (outbmp p); lia.
Qed.

Lemma page_ny_bounds p : 3 <= ny p -> 3 <= page_ny p <= ny p.
Proof.
  unfold page_ny. cbv zeta.
  match goal with |- context [?a >? ?b] => destruct (Z.gtb_spec a b) end; lia.
Qed.

(** Claim C10.  In the emit phase (after [Initializeprinting] succeeded,
    with a bitmap whose width and whose size [width * height] fit an
    [int], as the source computes them), for every cell index in
    [0, nx * ny) -- [ny] the number of rows of the page, possibly reduced
    on the last page, with the height computed for it -- every pixel that
    [Drawblock] stores is in a row and a column of the bitmap of that
    width and height, which lies inside the allocated buffer of
    [width * height] bytes; the offset at which [Drawblock] starts and the
    offset of every store are in the range of an [int]. *)
Theorem drawblock_in_bitmap o p0 p index block off v :
  plan_width_raw o p0 <= INT_MAX ->
  plan_width o p0 * plan_height o p0 <= INT_MAX ->
  emitting o p0 p ->
  0 <= index < nx p * page_ny p ->
  (off, v) ∈ snd (Drawblock index block (width p) (page_height p) (border p)
                    (nx p) (page_ny p) (dx p) (dy p) (px p) (py p) (black p)) ->
  let x := Z.rem index (nx p) * (NDOT + 3) * dx p + 2 * dx p + border p in
  let y := Z.quot index (nx p) * (NDOT + 3) * dy p + 2 * dy p + border p in
  (exists row col, 0 <= row < page_height p /\ 0 <= col < width p
                   /\ off = row * width p + col)
  /\ page_height p <= height p
  /\ drawbits p = Some (width p * height p)
  /\ 0 <= off < width p * height p
  /\ width p * height p <= INT_MAX
  /\ 0 <= (page_height p - y - 1) * width p + x < width p * height p.
Proof.
  intros Hmax Hsize Hem Hidx Hin x y. cbn [Drawblock snd] in Hin.
  pose proof (emitting_planned o p0 p Hem) as Hpl.
  pose proof (planned_feasible o p0 p Hpl) as (Hf1 & Hf2 & Hf3).
  destruct Hpl as (_ & _ & _ & _ & Hnx & Hny & Hdx & Hdy & Hpx & Hpy & Hbo
                   & Hw & Hh & _ & Hbits & _).
  pose proof (plan_dots o) as (Hd1 & Hd2 & Hd3 & Hd4).
  pose proof (plan_border_nonneg o p0) as Hb.
  pose proof (page_ny_bounds p Hf2) as Hle.
  assert (Hcx : 0 < nx p) by nia.
  assert (Hraw : 0 <= plan_width_raw o p0).
  { unfold plan_width_raw, NDOT. rewrite <- Hnx. nia. }
  pose proof (plan_width_bounds o p0 (conj Hraw Hmax)) as Hwb.
  unfold plan_width_raw in Hwb.
  rewrite <- Hnx, <- Hdx, <- Hpx, <- Hbo, <- Hw in Hwb.
  rewrite <- Hdx in Hd1. rewrite <- Hdy in Hd2.
  rewrite <- Hpx in Hd3. rewrite <- Hpy in Hd4. rewrite <- Hbo in Hb.
  assert (Hfit : exists row col, 0 <= row < page_height p
                   /\ 0 <= col < width p /\ off = row * width p + col).
  { apply (Drawblock_stores_in index (Drawblock_encode block)
             (width p) (page_height p)
             (border p) (nx p) (page_ny p) (dx p) (dy p) (px p) (py p)
             (black p) off v); try lia; [reflexivity|exact Hin]. }
  assert (Hhh : page_height p <= height p).
  { rewrite Hh. unfold page_height, plan_height.
    rewrite <- Hny, <- Hdy, <- Hpy, <- Hbo. unfold NDOT. nia. }
  assert (Hh0 : 0 < height p).
  { rewrite Hh. unfold plan_height.
    rewrite <- Hny, <- Hdy, <- Hpy, <- Hbo. unfold NDOT. nia. }
  assert (Hw0 : 0 < width p) by (unfold NDOT in Hwb; nia).
  assert (Hprod : 0 <= width p * height p <= INT_MAX).
  { rewrite Hw, Hh. split; [|exact Hsize]. rewrite <- Hw, <- Hh. nia. }
  split; [exact Hfit|]. split; [exact Hhh|].
  split; [rewrite Hbits, <- Hw, <- Hh, to_int_small by exact Hprod;
          reflexivity|].
  split; [destruct Hfit as (row & col & Hrow & Hcol & ->); nia|].
  split; [apply Hprod|].
  subst x y. rewrite Z.rem_mod_nonneg, Z.quot_div_nonneg by lia.
  pose proof (Z.mod_pos_bound index (nx p) Hcx) as Hcol.
  assert (Hrow : 0 <= index / nx p < page_ny p).
  { split; [apply Z.div_pos; lia|apply Z.div_lt_upper_bound; lia]. }
  set (c := index `mod` nx p) in *. set (r := index / nx p) in *.
  unfold page_height in *. unfold NDOT in *.
  assert (c * dx p <= (nx p - 1) * dx p) by nia.
  assert (r * dy p <= (page_ny p - 1) * dy p) by nia.
  assert (0 <= c * dx p) by nia.
  assert (0 <= r * dy p) by nia.
  nia.
Qed.

End Bitmap.

(** ** C9: the emit phase ends *)

Section Termination.
Context `{Header}.

(** A page that is saved leaves the job in the same step with the next
    page number; nothing else changes in what the page test reads. *)
Lemma Printnextpage_same_step o p0 p io :
  emitting o p0 p -> step (fst (Printnextpage p io)) = step p ->
  pages_done p = false
  /\ frompage (fst (Printnextpage p io)) = frompage p + 1
  /\ pagesize (fst (Printnextpage p io)) = pagesize p
  /\ datasize (fst (Printnextpage p io)) = datasize p
  /\ topage (fst (Printnextpage p io)) = topage p.
Proof.
  intros Hem Hsame.
  pose proof (emitting_planned o p0 p Hem) as (_ & _ & Hnz & _).
  destruct (Printnextpage_cases p io) as [[_ Hp] | [[_ Hp] | [Hd Hp]]].
  - rewrite Hp in Hsame. cbn in Hsame. lia.
  - rewrite Hp in Hsame. cbn in Hsame. congruence.
  - rewrite Hp. cbn. auto.
Qed.

(** The page size is at least one group of data. *)
Lemma planned_pagesize_pos o p0 p :
  0 < NDATA -> 1 <= redundancy p0 -> plan_pagesize o p0 <= INT_MAX ->
  planned o p0 p ->
  0 < redundancy p0 * NDATA <= pagesize p /\ pagesize p <= INT_MAX.
Proof.
  intros Hnd Hr Hmax Hpl.
  pose proof (planned_feasible o p0 p Hpl) as (Hf1 & Hf2 & Hf3).
  pose proof (planned_pagesize o p0 p Hnd Hr Hmax Hpl) as [Hps Hrange].
  assert (Hr' : redundancy p = redundancy p0) by apply Hpl.
  rewrite Hr' in *.
  rewrite Z.quot_div_nonneg in Hps by nia.
  assert (Hq : 1 <= (nx p * ny p - redundancy p0 - 2) / (redundancy p0 + 1)).
  { apply Z.div_le_lower_bound; nia. }
  split; [|lia]. split; [nia|]. rewrite Hps. nia.
Qed.

(** The phase ends within the pages up to [topage] and one more call. *)
Lemma emit_phase_ends_topage o p0 ios p :
  emitting o p0 p ->
  Z.max 1 (topage p + 2 - frompage p) <= Z.of_nat (length ios) ->
  step (emit_phase ios p) <> step p.
Proof.
  revert p. induction ios as [|io ios IH]; intros p Hem Hlen.
  - cbn in Hlen. lia.
  - cbn [emit_phase].
    destruct (Z.eqb_spec (step (fst (Printnextpage p io))) (step p))
      as [Hsame|Hne]; [|exact Hne].
    pose proof (Printnextpage_same_step o p0 p io Hem Hsame)
      as (Hd & Hf & _ & _ & Ht).
    rewrite <- Hsame. apply IH; [apply emitting_next; assumption|].
    unfold pages_done in Hd. apply orb_false_elim in Hd as [_ Hd].
    rewrite Z.gtb_ltb in Hd. apply Z.ltb_ge in Hd.
    rewrite Hf, Ht. cbn [length] in Hlen. lia.
Qed.

(** Without wrap-around of the offset, the phase ends within the pages
    that the data fill and one more call. *)
Lemma emit_phase_ends_data o p0 ios p :
  0 < pagesize p -> 0 <= datasize p -> datasize p + pagesize p <= 2 ^ 32 ->
  emitting o p0 p ->
  0 <= frompage p -> frompage p * pagesize p < datasize p + pagesize p ->
  page_npages p + 1 - frompage p <= Z.of_nat (length ios) ->
  step (emit_phase ios p) <> step p.
Proof.
  intros Hps Hds Hfit.
  assert (Hn : datasize p <= page_npages p * pagesize p).
  { unfold page_npages. rewrite to_u32_small by lia.
    rewrite Z.quot_div_nonneg by lia.
    pose proof (Z.mul_succ_div_gt (datasize p + pagesize p - 1) (pagesize p) Hps).
    lia. }
  revert p Hps Hds Hfit Hn.
  induction ios as [|io ios IH]; intros p Hps Hds Hfit Hn Hem Hf0 Hinv Hlen.
  - cbn in Hlen. nia.
  - cbn [emit_phase].
    destruct (Z.eqb_spec (step (fst (Printnextpage p io))) (step p))
      as [Hsame|Hne]; [|exact Hne].
    pose proof (Printnextpage_same_step o p0 p io Hem Hsame)
      as (Hd & Hf & Hp & Hdt & _).
    assert (Hnp : page_npages (fst (Printnextpage p io)) = page_npages p).
    { unfold page_npages. rewrite Hp, Hdt. reflexivity. }
    unfold pages_done in Hd. apply orb_false_elim in Hd as [Hd _].
    unfold page_offset in Hd. rewrite to_u32_small in Hd by nia.
    assert (Hlt : frompage p * pagesize p < datasize p).
    { destruct (Z.geb_spec (frompage p * pagesize p) (datasize p));
        [discriminate|lia]. }
    rewrite <- Hsame.
    apply IH; rewrite ?Hnp, ?Hp, ?Hdt, ?Hf; try assumption; try lia.
    + apply emitting_next; assumption.
    + cbn [length] in Hlen. lia.
Qed.

(** Claim C9.  When [Initializeprinting] succeeds with a redundancy of at
    least 1 (page size and data size within the range of an [int]):
    - the page size is at least [redundancy * NDATA], which is positive;
    - in the emit phase the page size stays what it is and is not zero, so
      the page count divides by a non-zero number;
    - a call of [Printnextpage] that saves its page and goes on moves the
      byte offset of the page strictly forward;
    - the emit phase ends: the job has left the step after at most one call
      of [Printnextpage] more than the page count, and in any case after
      at most 10001 calls, whatever the file system answers. *)
Theorem emit_phase_terminates o p0 m :
  0 < NDATA -> 1 <= redundancy p0 -> plan_pagesize o p0 <= INT_MAX ->
  0 <= datasize p0 <= INT_MAX ->
  reported (snd (Initializeprinting o p0 m)) = [] -> step p0 + 1 <> 0 ->
  let p1 := fst (Initializeprinting o p0 m) in
  0 < redundancy p0 * NDATA <= pagesize p1
  /\ (forall p, emitting o p0 p -> pagesize p = pagesize p1 /\ pagesize p <> 0)
  /\ (forall p io, emitting o p0 p ->
        step (fst (Printnextpage p io)) = step p ->
        page_offset p < page_offset (fst (Printnextpage p io)))
  /\ (forall ios, page_npages p1 + 1 <= Z.of_nat (length ios) ->
        step (emit_phase ios p1) <> step p1)
  /\ (forall ios, 10001 <= Z.of_nat (length ios) ->
        step (emit_phase ios p1) <> step p1).
Proof.
  intros Hnd Hr Hmax Hdata Hok Hstep p1.
  assert (Hem1 : emitting o p0 p1) by (apply emitting_first; assumption).
  pose proof (emitting_planned o p0 p1 Hem1) as Hpl1.
  pose proof (planned_pagesize_pos o p0 p1 Hnd Hr Hmax Hpl1) as [Hpos1 Hr1].
  assert (Hsame : forall p, emitting o p0 p ->
                    pagesize p = pagesize p1 /\ 0 < pagesize p
                    /\ datasize p = datasize p0).
  { intros p Hem. pose proof (emitting_planned o p0 p Hem) as Hpl.
    assert (pagesize p = pagesize p1).
    { transitivity (to_u32 (plan_pagesize o p0)); [apply Hpl|symmetry; apply Hpl1]. }
    split; [assumption|]. split; [lia|apply Hpl]. }
  assert (Hf1 : frompage p1 = 0 /\ topage p1 = 9999).
  { subst p1. apply init_ok_inv in Hok as (Hsmall & Hout & ->).
    unfold Initializeprinting. rewrite Hsmall.
    destruct (outbmp p0); [congruence|]. cbn. auto. }
  destruct Hf1 as (Hfrom & Hto).
  destruct (Hsame p1 Hem1) as (_ & _ & Hds).
  unfold INT_MAX in *.
  split; [exact Hpos1|].
  split; [intros p Hem; destruct (Hsame p Hem) as (? & ? & _); split;
          [assumption|lia]|].
  split.
  { intros p io Hem Hst.
    pose proof (Printnextpage_same_step o p0 p io Hem Hst)
      as (Hd & Hf & Hp & _).
    destruct (Hsame p Hem) as (Hpp & Hpos & Hdp).
    unfold pages_done in Hd. apply orb_false_elim in Hd as [Hd _].
    assert (Hlt : page_offset p < datasize p).
    { destruct (Z.geb_spec (page_offset p) (datasize p)); [discriminate|lia]. }
    unfold page_offset in *. rewrite Hf, Hp.
    replace ((frompage p + 1) * pagesize p)
      with (frompage p * pagesize p + pagesize p) by lia.
    unfold to_u32 in *. rewrite <- Zplus_mod_idemp_l.
    pose proof (Z.mod_pos_bound (frompage p * pagesize p) (2 ^ 32) ltac:(lia)).
    rewrite (Z.mod_small (_ + _)) by lia. lia. }
  split.
  { intros ios Hlen.
    apply (emit_phase_ends_data o p0); rewrite ?Hfrom, ?Hds; try lia; assumption. }
  intros ios Hlen. apply (emit_phase_ends_topage o p0); [assumption|].
  rewrite Hfrom, Hto. lia.
Qed.

End Termination.

(** ** The statements at concrete jobs *)

Lemma crc16_byte_range (c b : Z) : 0 <= crc16_byte c b < 2 ^ 16.
Proof.
  unfold crc16_byte. cbn [crc16_bits]. unfold crc16_shift at 1, to_u16.
  apply Z.mod_pos_bound. lia.
Qed.

Lemma fold_left_invariant {A B} (P : A -> Prop) (f : A -> B -> A)
  (l : list B) (a : A) :
  P a -> (forall a b, P a -> P (f a b)) -> P (fold_left f l a).
Proof.
  intros Ha Hf. revert a Ha.
  induction l as [|b l IH]; intros a Ha; [exact Ha|].
  cbn [fold_left]. apply IH, Hf, Ha.
Qed.

Lemma crc16_range (bs : list Z) : 0 <= crc16 bs < 2 ^ 16.
Proof.
  unfold crc16.
  apply (fold_left_invariant (fun c => 0 <= c < 2 ^ 16) crc16_byte bs 0).
  - lia.
  - intros a b _. apply crc16_byte_range.
Qed.

Lemma ready_one_byte_emitting :
  emitting options_67 job_one_byte (ready options_67 job_one_byte).
Proof.
  apply (emitting_first options_67 job_one_byte true).
  - vm_compute. reflexivity.
  - vm_compute. discriminate.
Defined.

Lemma parity_is_complemented_xor_witness :
  let p := ready options_67 job_one_byte in
  let g := page_groups p !!! 0%nat in
  g ∈ page_groups p
  /\ parity_data g
     = xor_bytes (repeat 0xFF (Z.to_nat NDATA))
                 (xor_all (repeat 0 (Z.to_nat NDATA)) (members_data g)).
Proof.
  cbv zeta.
  assert (Hin : (page_groups (ready options_67 job_one_byte) !!! 0%nat)
                ∈ page_groups (ready options_67 job_one_byte)).
  { vm_compute. apply list_elem_of_here. }
  split; [exact Hin|].
  apply (parity_is_complemented_xor (ready options_67 job_one_byte) _ Hin).
Defined.

Lemma page_cells_once_witness :
  let p := ready options_67 job_one_byte in
  pages_done p = false
  /\ Permutation (drawn_cells (snd (Printnextpage p (io_ok p))))
                 (seqZ 0 (nx p * page_ny p)).
Proof.
  cbv zeta. split; [vm_compute; reflexivity|].
  apply (page_cells_once options_67 job_one_byte).
  - vm_compute. reflexivity.
  - vm_compute. discriminate.
  - vm_compute. discriminate.
  - exact ready_one_byte_emitting.
  - vm_compute. reflexivity.
Defined.

Lemma low_memory_not_stopped_witness :
  let r := Initializeprinting options_67 job_one_byte false in
  step job_one_byte = 7
  /\ reported (snd r) = ["Low memory, can't create bitmap"%string]
  /\ step (fst r) = 7.
Proof.
  cbv zeta. split; [reflexivity|].
  destruct (low_memory_not_stopped options_67 job_one_byte) as (Hr & Hs & _).
  - vm_compute. reflexivity.
  - vm_compute. discriminate.
  - split; [exact Hr|exact Hs].
Defined.

Lemma pagesize_formula_witness :
  let p' := fst (Initializeprinting options_67 job_one_byte true) in
  reported (snd (Initializeprinting options_67 job_one_byte true)) = []
  /\ nx p' = 13 /\ ny p' = 21
  /\ pagesize p' = (nx p' * ny p' - 1 - 2) / (1 + 1) * 1 * 90
  /\ sd_pagesize (superdata p') = pagesize p'.
Proof.
  cbv zeta.
  assert (Hok : reported (snd (Initializeprinting options_67 job_one_byte true))
                = []) by (vm_compute; reflexivity).
  split; [exact Hok|].
  destruct (pagesize_formula options_67 job_one_byte true)
    as (Hx & Hy & Hp & Hs);
    [vm_compute; discriminate | vm_compute; discriminate
     | vm_compute; discriminate | exact Hok |].
  split; [rewrite Hx; vm_compute; reflexivity|].
  split; [rewrite Hy; vm_compute; reflexivity|].
  split; [exact Hp|exact Hs].
Defined.

Lemma drawblock_crc_witness :
  let block := {| addr := 0; data := 0x41 :: repeat 0 89; crc := 0; ecc := [] |} in
  let b' := fst (Drawblock 0 block 1952 550 64 13 3 4 4 2 2 64) in
  let covered := take (Z.to_nat (NDATA + 4)) (block_bytes b') in
  length (data block) = Z.to_nat NDATA
  /\ crc b' = Z.lxor (Crc16 covered) 0x55AA.
Proof.
  cbv zeta. split; [reflexivity|].
  destruct (drawblock_crc 0
              {| addr := 0; data := 0x41 :: repeat 0 89; crc := 0; ecc := [] |}
              1952 550 64 13 3 4 4 2 2 64) as (_ & Hc & _).
  - vm_compute. discriminate.
  - reflexivity.
  - exact crc16_range.
  - exact Hc.
Defined.

Lemma emit_phase_terminates_witness :
  let p1 := fst (Initializeprinting options_67 job_one_byte true) in
  0 < 1 * 90 <= pagesize p1
  /\ step (emit_phase [io_ok p1; io_ok p1] p1) <> step p1.
Proof.
  cbv zeta.
  destruct (emit_phase_terminates options_67 job_one_byte true)
    as (Hpos & _ & _ & Hend & _);
    [vm_compute; reflexivity | vm_compute; discriminate
     | vm_compute; discriminate | vm_compute; split; discriminate
     | vm_compute; reflexivity | vm_compute; discriminate |].
  split; [exact Hpos|].
  apply Hend; vm_compute; discriminate.
Defined.

Lemma drawblock_in_bitmap_witness :
  let p := ready options_67 job_one_byte in
  let block := {| addr := 0; data := 0x41 :: repeat 0 89; crc := 0; ecc := [] |} in
  let stores := snd (Drawblock 38 block (width p) (page_height p) (border p)
                       (nx p) (page_ny p) (dx p) (dy p) (px p) (py p) (black p)) in
  0 <= 38 < nx p * page_ny p
  /\ (386296, 64) ∈ stores
  /\ 0 <= 386296 < width p * height p.
Proof.
  cbv zeta. split; [vm_compute; split; [discriminate|reflexivity]|].
  assert (Hin : (386296, 64)
                ∈ snd (Drawblock 38
                         {| addr := 0; data := 0x41 :: repeat 0 89;
                            crc := 0; ecc := [] |}
                         (width (ready options_67 job_one_byte))
                         (page_height (ready options_67 job_one_byte))
                         (border (ready options_67 job_one_byte))
                         (nx (ready options_67 job_one_byte))
                         (page_ny (ready options_67 job_one_byte))
                         (dx (ready options_67 job_one_byte))
                         (dy (ready options_67 job_one_byte))
                         (px (ready options_67 job_one_byte))
                         (py (ready options_67 job_one_byte))
                         (black (ready options_67 job_one_byte)))).
  { vm_compute. apply list_elem_of_here. }
  split; [exact Hin|].
  destruct (drawblock_in_bitmap options_67 job_one_byte
              (ready options_67 job_one_byte) 38
              {| addr := 0; data := 0x41 :: repeat 0 89; crc := 0; ecc := [] |}
              386296 64)
    as (_ & _ & _ & Hoff & _).
  - vm_compute. discriminate.
  - vm_compute. discriminate.
  - exact ready_one_byte_emitting.
  - vm_compute. split; [discriminate|reflexivity].
  - exact Hin.
  - exact Hoff.
Defined.

(** * Further properties of the routines *)


(** ** Further properties of [Initializeprinting] *)

Section InitFacts.
Context `{Header}.

(** X1.  When [Initializeprinting] succeeds (redundancy not negative, the
    width of the bitmap and its size [width * height] within the range of
    an [int]), the job is in the next step at page 0 with a bitmap of
    [width * height] bytes, the one allocation that was asked for; the
    width is a multiple of 4, at least what the grid needs and less than 4
    more; the height is what the grid needs and positive; the dot pitch is
    at least 2, the dot size at least 1, and there are at least
    [redundancy + 1] columns and 3 rows of cells. *)
Theorem init_success_geometry o p m :
  0 <= redundancy p -> plan_width_raw o p <= INT_MAX ->
  plan_width o p * plan_height o p <= INT_MAX ->
  reported (snd (Initializeprinting o p m)) = [] ->
  let p' := fst (Initializeprinting o p m) in
  let need := nx p' * (NDOT + 3) * dx p' + px p' + 2 * border p' in
  step p' = step p + 1 /\ frompage p' = 0
  /\ drawbits p' = Some (width p' * height p')
  /\ allocated (snd (Initializeprinting o p m)) = [width p' * height p']
  /\ width p' mod 4 = 0 /\ need <= width p' < need + 4
  /\ height p' = ny p' * (NDOT + 3) * dy p' + py p' + 2 * border p'
  /\ 0 < height p'
  /\ 2 <= dx p' /\ 2 <= dy p' /\ 1 <= px p' /\ 1 <= py p' /\ 0 <= border p'
  /\ redundancy p + 1 <= nx p' /\ 3 <= ny p'.
Proof.
  intros Hr Hmax Hsize Hok p' need.
  pose proof (init_ok_inv o p m Hok) as (Hsmall & Hout & ->).
  pose proof (plan_dots o) as (Hd1 & Hd2 & Hd3 & Hd4).
  pose proof (plan_border_nonneg o p) as Hb.
  assert (Hfeas : redundancy p + 1 <= plan_nx o p /\ 3 <= plan_ny o p).
  { unfold too_small in Hsmall.
    apply orb_false_elim in Hsmall as [Hsmall _].
    apply orb_false_elim in Hsmall as [H1 H2].
    apply Z.ltb_ge in H1, H2. lia. }
  assert (Hraw : 0 <= plan_width_raw o p).
  { unfold plan_width_raw, NDOT. nia. }
  pose proof (plan_width_bounds o p (conj Hraw Hmax)) as Hwb.
  assert (Hw4 : plan_width o p mod 4 = 0).
  { unfold plan_width. unfold INT_MAX in Hmax.
    rewrite to_u32_small, land_FFFFFFFC by lia.
    pose proof (Z.mul_div_le (plan_width_raw o p) 4 ltac:(lia)).
    pose proof (Z.div_pos (plan_width_raw o p) 4 Hraw ltac:(lia)).
    rewrite to_int_small by (unfold INT_MAX; lia).
    rewrite Z.mul_comm. apply Z.mod_mul. lia. }
  assert (Hprod : to_int (plan_width o p * plan_height o p)
                  = plan_width o p * plan_height o p).
  { apply to_int_small. split; [|exact Hsize].
    unfold plan_width_raw in Hwb. unfold plan_height, NDOT in *.
    apply Z.mul_nonneg_nonneg; nia. }
  subst p' need. unfold Initializeprinting. rewrite Hsmall.
  destruct (outbmp p) as [|c rest] eqn:Ho; [congruence|].
  cbn. rewrite Hprod. unfold plan_width_raw in Hwb.
  unfold plan_height, NDOT in *.
  repeat split; try lia; nia.
Qed.

(** X2.  [Initializeprinting] reports "Outbmp unspecified" if and only if
    the printable area is large enough and the output path is empty; then
    the report is all it does besides stopping the job: no allocation is
    requested, the job is in the terminal step without a bitmap and never
    enters the emit phase.  The size of the area is tested first. *)
Theorem outbmp_missing_iff o p m :
  let msg := "Outbmp unspecified, can not creat BMP"%string in
  let r := Initializeprinting o p m in
  (msg ∈ reported (snd r) <-> too_small o p = false /\ outbmp p = [])
  /\ (too_small o p = false -> outbmp p = [] ->
      fst r = Stopprinting (init_defaults o p)
      /\ snd r = [Reporterror msg]
      /\ step (fst r) = 0 /\ drawbits (fst r) = None
      /\ forall q, ~ emitting o p q).
Proof.
  intros msg r. subst r. unfold Initializeprinting.
  destruct (too_small o p) eqn:Hts.
  - split; [|discriminate]. split; [|intros [? _]; discriminate].
    intros Hin. cbn in Hin.
    apply elem_of_cons in Hin as [Hin|Hin]; [discriminate|inversion Hin].
  - destruct (outbmp p) as [|c rest] eqn:Ho.
    + split.
      * split; [auto|]. intros _. cbn. apply list_elem_of_here.
      * intros _ _. cbn. repeat (split; [reflexivity|]).
        intros q Hq. induction Hq as [m' Hok _|]; [|assumption].
        apply init_ok_inv in Hok as (_ & Hne & _). congruence.
    + split; [|discriminate]. split; [|intros [_ ?]; discriminate].
      intros Hin. exfalso. destruct m; cbn in Hin;
        repeat (apply elem_of_cons in Hin as [Hin|Hin]; [discriminate|]);
        inversion Hin.
Qed.

Lemma c_string_app_zero (a r : list Z) :
  Forall (fun c => c <> 0) a -> c_string (a ++ 0 :: r) = a.
Proof.
  induction 1 as [|c a Hc _ IH]; [reflexivity|].
  cbn [app c_string]. destruct (Z.eqb_spec c 0); [contradiction|].
  rewrite IH. reflexivity.
Qed.

Lemma init_superdata_name o p m :
  sd_name (superdata (fst (Initializeprinting o p m)))
  = sd_name (prepare_superdata p).
Proof.
  unfold Initializeprinting.
  destruct (too_small o p); [reflexivity|].
  destruct (outbmp p); [reflexivity|]. destruct m; reflexivity.
Qed.

(** X3.  Whatever the outcome of [Initializeprinting], the [name] field of
    the superblock holds the first [sizeof(name)] bytes of the file name,
    followed by zeros when the name is shorter.  A name without zero bytes
    that is shorter than the field is read back from the field as a C
    string; a longer one is cut to the size of the field. *)
Theorem init_name_field o p m :
  0 <= NAMESIZE -> length (sd_name (superdata p)) = Z.to_nat NAMESIZE ->
  Forall (fun c => c <> 0) (job_fil p) ->
  let name := sd_name (superdata (fst (Initializeprinting o p m))) in
  length name = Z.to_nat NAMESIZE
  /\ name = take (Z.to_nat NAMESIZE) (job_fil p ++ repeat 0 (Z.to_nat NAMESIZE))
  /\ (Z.of_nat (length (job_fil p)) < NAMESIZE -> c_string name = job_fil p)
  /\ (NAMESIZE <= Z.of_nat (length (job_fil p)) ->
      name = take (Z.to_nat NAMESIZE) (job_fil p)).
Proof.
  intros Hn Hlen Hnz name. subst name. rewrite init_superdata_name.
  pose proof (terminator_lands_after_name p Hn Hlen) as [Hname _].
  rewrite Hname.
  split; [rewrite length_take, length_app, repeat_length; lia|].
  split; [reflexivity|]. split.
  - intros Hshort. rewrite take_app_ge by lia.
    set (k := (Z.to_nat NAMESIZE - length (job_fil p))%nat).
    assert (Hk : (0 < k)%nat) by (unfold k; lia).
    replace (Z.to_nat NAMESIZE) with (k + length (job_fil p))%nat at 1
      by (unfold k; lia).
    rewrite repeat_app, take_app_length' by (rewrite repeat_length; reflexivity).
    destruct k as [|k']; [lia|].
    cbn [repeat]. apply c_string_app_zero. exact Hnz.
  - intros Hlong. rewrite take_app_le by lia. reflexivity.
Qed.

End InitFacts.

Lemma init_success_geometry_witness :
  let p' := fst (Initializeprinting options_67 job_one_byte true) in
  reported (snd (Initializeprinting options_67 job_one_byte true)) = []
  /\ width p' mod 4 = 0 /\ 0 < height p'
  /\ drawbits p' = Some (width p' * height p').
Proof.
  cbv zeta.
  assert (Hok : reported (snd (Initializeprinting options_67 job_one_byte true))
                = []) by (vm_compute; reflexivity).
  split; [exact Hok|].
  destruct (init_success_geometry options_67 job_one_byte true)
    as (_ & _ & Hbits & _ & Hw4 & _ & _ & Hh & _);
    [vm_compute; discriminate | vm_compute; discriminate
    | vm_compute; discriminate | exact Hok |].
  split; [exact Hw4|]. split; [exact Hh|exact Hbits].
Defined.

Lemma split_name_nonzero :
  Forall (fun c => c <> 0) (job_fil job_one_byte).
Proof. vm_compute. repeat constructor; discriminate. Defined.

Lemma init_name_field_witness :
  let name := sd_name (superdata
                (fst (Initializeprinting options_67 job_one_byte true))) in
  Z.of_nat (length (job_fil job_one_byte)) < NAMESIZE
  /\ c_string name = [97; 46; 116; 120; 116].
Proof.
  cbv zeta. split; [vm_compute; reflexivity|].
  destruct (init_name_field options_67 job_one_byte true)
    as (_ & _ & Hshort & _);
    [vm_compute; discriminate | reflexivity | exact split_name_nonzero |].
  rewrite Hshort by (vm_compute; reflexivity). reflexivity.
Defined.


(** ** Further properties of [Drawblock] *)

Lemma land_1_testbit (t : Z) : (Z.land t 1 =? 0) = negb (Z.testbit t 0).
Proof.
  change 1 with (Z.ones 1). rewrite Z.land_ones by lia.
  rewrite Z.bit0_odd, <- Z.negb_even, negb_involutive.
  change (2 ^ 1) with 2.
  rewrite Zeven_mod. reflexivity.
Qed.

Lemma mask_55_bit (i : Z) :
  0 <= i < 32 -> Z.testbit 0x55555555 i = Z.even i.
Proof.
  intros Hi.
  assert (Hall : forallb (fun i => Bool.eqb (Z.testbit 0x55555555 i) (Z.even i))
                         (seqZ 0 32) = true) by (vm_compute; reflexivity).
  rewrite forallb_forall in Hall.
  apply eqb_prop, Hall, list_elem_of_In, elem_of_seqZ. lia.
Qed.

Lemma mask_AA_bit (i : Z) :
  0 <= i < 32 -> Z.testbit 0xAAAAAAAA i = Z.odd i.
Proof.
  intros Hi.
  assert (Hall : forallb (fun i => Bool.eqb (Z.testbit 0xAAAAAAAA i) (Z.odd i))
                         (seqZ 0 32) = true) by (vm_compute; reflexivity).
  rewrite forallb_forall in Hall.
  apply eqb_prop, Hall, list_elem_of_In, elem_of_seqZ. lia.
Qed.

(** The word of a row after the mask: bit [i] is set when bit [i] of the
    record differs from the checkerboard. *)
Lemma masked_bit (w i j : Z) :
  0 <= i < 32 -> 0 <= j ->
  Z.testbit (if Z.land j 1 =? 0 then Z.lxor w 0x55555555
             else Z.lxor w 0xAAAAAAAA) i
  = Bool.eqb (Z.testbit w i) (Z.odd (i + j)).
Proof.
  intros Hi Hj. rewrite land_1_testbit, Z.bit0_odd.
  rewrite Z.odd_add.
  destruct (Z.odd j) eqn:Hodd; cbn [negb].
  - rewrite Z.lxor_spec, mask_AA_bit by lia.
    destruct (Z.testbit w i), (Z.odd i); reflexivity.
  - rewrite Z.lxor_spec, mask_55_bit by lia. rewrite <- Z.negb_odd.
    destruct (Z.testbit w i), (Z.odd i); reflexivity.
Qed.

Section DrawFacts.
Context `{Header}.

Lemma dot_stores_iff bits x w ppx ppy bl off v :
  (off, v) ∈ dot_stores bits x w ppx ppy bl <->
  v = to_uchar bl
  /\ exists m n, 0 <= m < ppy /\ 0 <= n < ppx /\ off = bits + (x - m * w + n).
Proof.
  unfold dot_stores. rewrite list_elem_of_In, in_flat_map. split.
  - intros (m & Hm & Hin).
    apply list_elem_of_In, elem_of_seqZ in Hm.
    apply list_elem_of_In, list_elem_of_fmap in Hin as (n & Heq & Hn).
    apply elem_of_seqZ in Hn. inversion Heq; subst.
    split; [reflexivity|]. exists m, n. repeat split; lia.
  - intros (-> & m & n & Hm & Hn & ->). exists m. split.
    + apply list_elem_of_In, elem_of_seqZ. lia.
    + apply list_elem_of_In, list_elem_of_fmap. exists n.
      split; [reflexivity|]. apply elem_of_seqZ. lia.
Qed.

Lemma word_stores_iff cnt t x bits w ddx ppx ppy bl off v :
  (off, v) ∈ word_stores cnt t x bits w ddx ppx ppy bl <->
  v = to_uchar bl
  /\ exists i m n, 0 <= i < Z.of_nat cnt /\ 0 <= m < ppy /\ 0 <= n < ppx
       /\ Z.testbit t i = true
       /\ off = bits + (x + i * ddx - m * w + n).
Proof.
  revert t x. induction cnt as [|cnt IH]; intros t x.
  - cbn [word_stores]. split; [intros Hin; inversion Hin|].
    intros (_ & i & _ & _ & Hi & _). lia.
  - cbn [word_stores]. rewrite elem_of_app, IH, land_1_testbit. split.
    + intros [Hin|(-> & i & m & n & Hi & Hm & Hn & Hbit & ->)].
      * destruct (Z.testbit t 0) eqn:Hb; cbn [negb] in Hin; [|inversion Hin].
        apply dot_stores_iff in Hin as (-> & m & n & Hm & Hn & ->).
        split; [reflexivity|]. exists 0, m, n. repeat split; try lia.
        exact Hb.
      * split; [reflexivity|]. exists (i + 1), m, n.
        rewrite Z.shiftr_spec in Hbit by lia. repeat split; try lia.
        exact Hbit.
    + intros (-> & i & m & n & Hi & Hm & Hn & Hbit & ->).
      destruct (Z.eq_dec i 0) as [->|Hne].
      * left. rewrite Hbit. cbn [negb]. apply dot_stores_iff.
        split; [reflexivity|]. exists m, n. repeat split; lia.
      * right. split; [reflexivity|]. exists (i - 1), m, n.
        rewrite Z.shiftr_spec by lia. replace (i - 1 + 1) with i by lia.
        repeat split; try lia. exact Hbit.
Qed.

Lemma rows_stores_iff cnt b j bits w ddx ddy ppx ppy bl off v :
  0 <= j ->
  (off, v) ∈ rows_stores cnt b j bits w ddx ddy ppx ppy bl <->
  v = to_uchar bl
  /\ exists jj i m n, 0 <= jj < Z.of_nat cnt /\ 0 <= i < 32
       /\ 0 <= m < ppy /\ 0 <= n < ppx
       /\ Z.testbit (block_word b (j + jj)) i = Z.odd (i + (j + jj))
       /\ off = bits - jj * (ddy * w) + (i * ddx - m * w + n).
Proof.
  revert j bits. induction cnt as [|cnt IH]; intros j bits Hj.
  - cbn [rows_stores]. split; [intros Hin; inversion Hin|].
    intros (_ & jj & _ & _ & _ & Hjj & _). lia.
  - cbn [rows_stores]. rewrite elem_of_app, (IH (j + 1)) by lia.
    rewrite word_stores_iff. split.
    + intros [(-> & i & m & n & Hi & Hm & Hn & Hbit & ->)
             |(-> & jj & i & m & n & Hjj & Hi & Hm & Hn & Hbit & ->)].
      * split; [reflexivity|]. exists 0, i, m, n.
        rewrite masked_bit in Hbit by lia. apply eqb_prop in Hbit.
        rewrite Z.add_0_r. repeat split; try lia. exact Hbit.
      * split; [reflexivity|]. exists (jj + 1), i, m, n.
        replace (j + (jj + 1)) with (j + 1 + jj) by lia.
        repeat split; try lia. exact Hbit.
    + intros (-> & jj & i & m & n & Hjj & Hi & Hm & Hn & Hbit & ->).
      destruct (Z.eq_dec jj 0) as [->|Hne].
      * left. split; [reflexivity|]. exists i, m, n.
        rewrite Z.add_0_r in Hbit. rewrite masked_bit, Hbit by lia.
        rewrite eqb_reflx. repeat split; lia.
      * right. split; [reflexivity|]. exists (jj - 1), i, m, n.
        replace (j + 1 + (jj - 1)) with (j + jj) by lia.
        repeat split; try lia. exact Hbit.
Qed.

(** X4.  The pixels that [Drawblock] sets for a cell of a page of the
    emit phase (bitmap within the range of an [int]), exactly: all get the
    value [(uchar)black], and they are the [py] by [px] pixels of every
    dot [(i, j)] of the 32 by 32 grid of the cell for which bit [i] of
    word [j] of the record differs from the checkerboard ([i + j] odd
    means 1): an all-zero record paints the dots with [i + j] even.  Row
    [y] of the page is at scan line [height - y - 1]. *)
Theorem drawblock_dots o p0 p index b off v :
  plan_width_raw o p0 <= INT_MAX ->
  plan_width o p0 * plan_height o p0 <= INT_MAX ->
  emitting o p0 p ->
  0 <= index < nx p * page_ny p ->
  let x0 := Z.rem index (nx p) * (NDOT + 3) * dx p + 2 * dx p + border p in
  let y0 := Z.quot index (nx p) * (NDOT + 3) * dy p + 2 * dy p + border p in
  (off, v) ∈ Drawblock_stores index b (width p) (page_height p) (border p)
               (nx p) (page_ny p) (dx p) (dy p) (px p) (py p) (black p) <->
  v = to_uchar (black p)
  /\ exists i j m n, 0 <= i < 32 /\ 0 <= j < 32
       /\ 0 <= m < py p /\ 0 <= n < px p
       /\ Z.testbit (block_word b j) i = Z.odd (i + j)
       /\ off = (page_height p - (y0 + j * dy p + m) - 1) * width p
                + (x0 + i * dx p + n).
Proof.
  intros _ _ _ _ x0 y0. unfold Drawblock_stores. fold x0 y0.
  rewrite rows_stores_iff by lia. split.
  - intros (-> & jj & i & m & n & Hjj & Hi & Hm & Hn & Hbit & ->).
    split; [reflexivity|]. exists i, jj, m, n.
    repeat split; try lia. exact Hbit.
  - intros (-> & i & j & m & n & Hi & Hj & Hm & Hn & Hbit & ->).
    split; [reflexivity|]. exists j, i, m, n.
    repeat split; try lia. exact Hbit.
Qed.

Lemma take_block_bytes (b : t_data) (c : Z) (e : list Z) (k : nat) :
  (k <= 4 + length (data b) + 2)%nat ->
  take k (block_bytes {| addr := addr b; data := data b; crc := c; ecc := e |})
  = take k (le_bytes 4 (addr b) ++ data b ++ le_bytes 2 c).
Proof.
  intros Hk. unfold block_bytes. cbn [addr data crc ecc].
  rewrite !app_assoc. rewrite take_app_le; [reflexivity|].
  rewrite !length_app, !length_le_bytes. lia.
Qed.

Lemma take_addr_data (b : t_data) (c : Z) (e : list Z) :
  0 <= NDATA -> length (data b) = Z.to_nat NDATA ->
  take (Z.to_nat (NDATA + 4))
       (block_bytes {| addr := addr b; data := data b; crc := c; ecc := e |})
  = le_bytes 4 (addr b) ++ data b.
Proof.
  intros Hnd Hlen. rewrite take_block_bytes by lia.
  rewrite app_assoc. apply take_app_length'.
  rewrite length_app, length_le_bytes. lia.
Qed.

Lemma take_addr_data_crc (b : t_data) (c : Z) (e : list Z) :
  0 <= NDATA -> length (data b) = Z.to_nat NDATA ->
  take (Z.to_nat (NDATA + 6))
       (block_bytes {| addr := addr b; data := data b; crc := c; ecc := e |})
  = le_bytes 4 (addr b) ++ data b ++ le_bytes 2 c.
Proof.
  intros Hnd Hlen. rewrite take_block_bytes by lia.
  apply take_ge. rewrite !length_app, !length_le_bytes. lia.
Qed.

(** The CRC and the ECC of a record depend on its address and data only:
    encoding a record that is encoded changes nothing. *)
Lemma Drawblock_encode_idem b :
  0 <= NDATA -> length (data b) = Z.to_nat NDATA ->
  Drawblock_encode (Drawblock_encode b) = Drawblock_encode b.
Proof.
  intros Hnd Hlen.
  assert (Hb : block_bytes b = block_bytes {| addr := addr b; data := data b;
                                 crc := crc b; ecc := ecc b |})
    by (destruct b; reflexivity).
  unfold Drawblock_encode. cbn [addr data crc ecc].
  rewrite Hb, !take_addr_data, !take_addr_data_crc by assumption.
  reflexivity.
Qed.

(** X5.  The codec of [Drawblock] on a record with [NDATA] data bytes: the
    address and the data are not touched, the error correction code is
    computed over the first [NDATA + 6] bytes of the record as it is left
    (address, data and the new CRC), and drawing the record that was left
    once more leaves it as it is: the copies of a record drawn in several
    cells are the same. *)
Theorem drawblock_encode_again b :
  0 <= NDATA -> length (data b) = Z.to_nat NDATA ->
  let b' := Drawblock_encode b in
  addr b' = addr b /\ data b' = data b
  /\ ecc b' = Encode8 (take (Z.to_nat (NDATA + 6)) (block_bytes b')) 127
  /\ Drawblock_encode b' = b'.
Proof.
  intros Hnd Hlen b'.
  repeat split; [| apply Drawblock_encode_idem; assumption].
  subst b'. unfold Drawblock_encode. cbn [addr data crc ecc].
  rewrite !take_addr_data_crc by assumption. reflexivity.
Qed.

End DrawFacts.

Lemma drawblock_encode_again_witness :
  let b := {| addr := 0; data := 0x41 :: repeat 0 89; crc := 0; ecc := [] |} in
  length (data b) = Z.to_nat NDATA
  /\ Drawblock_encode (Drawblock_encode b) = Drawblock_encode b.
Proof.
  cbv zeta. split; [reflexivity|].
  apply (drawblock_encode_again
           {| addr := 0; data := 0x41 :: repeat 0 89; crc := 0; ecc := [] |});
    [vm_compute; discriminate | reflexivity].
Defined.

Lemma drawblock_dots_witness :
  let p := ready options_67 job_one_byte in
  let b := {| addr := 0; data := 0x41 :: repeat 0 89; crc := 0; ecc := [] |} in
  (386296, 64)
  ∈ Drawblock_stores 38 b (width p) (page_height p) (border p)
      (nx p) (page_ny p) (dx p) (dy p) (px p) (py p) (black p)
  /\ 64 = to_uchar (black p).
Proof.
  cbv zeta.
  assert (Hin : (386296, 64)
                ∈ Drawblock_stores 38
                    {| addr := 0; data := 0x41 :: repeat 0 89;
                       crc := 0; ecc := [] |}
                    (width (ready options_67 job_one_byte))
                    (page_height (ready options_67 job_one_byte))
                    (border (ready options_67 job_one_byte))
                    (nx (ready options_67 job_one_byte))
                    (page_ny (ready options_67 job_one_byte))
                    (dx (ready options_67 job_one_byte))
                    (dy (ready options_67 job_one_byte))
                    (px (ready options_67 job_one_byte))
                    (py (ready options_67 job_one_byte))
                    (black (ready options_67 job_one_byte))).
  { vm_compute. apply list_elem_of_here. }
  split; [exact Hin|].
  destruct (drawblock_dots options_67 job_one_byte
              (ready options_67 job_one_byte) 38
              {| addr := 0; data := 0x41 :: repeat 0 89; crc := 0; ecc := [] |}
              386296 64) as [Hdots _].
  - vm_compute. discriminate.
  - vm_compute. discriminate.
  - exact ready_one_byte_emitting.
  - vm_compute. split; [discriminate|reflexivity].
  - exact (proj1 (Hdots Hin)).
Defined.

(** ** Further properties of [Fillblock] *)

Lemma mask_left_bit (i : Z) :
  0 <= i < 32 -> Z.testbit 0xAA000000 i = Z.odd i && (25 <=? i).
Proof.
  intros Hi.
  assert (Hall : forallb (fun i => Bool.eqb (Z.testbit 0xAA000000 i)
                                             (Z.odd i && (25 <=? i)))
                         (seqZ 0 32) = true) by (vm_compute; reflexivity).
  rewrite forallb_forall in Hall.
  apply eqb_prop, Hall, list_elem_of_In, elem_of_seqZ. lia.
Qed.

Lemma mask_right_bit (i : Z) :
  0 <= i < 32 -> Z.testbit 0x000000AA i = Z.odd i && (i <=? 7).
Proof.
  intros Hi.
  assert (Hall : forallb (fun i => Bool.eqb (Z.testbit 0x000000AA i)
                                             (Z.odd i && (i <=? 7)))
                         (seqZ 0 32) = true) by (vm_compute; reflexivity).
  rewrite forallb_forall in Hall.
  apply eqb_prop, Hall, list_elem_of_In, elem_of_seqZ. lia.
Qed.

Lemma Fillblock_word_bit bx by_ cx cy i j :
  0 <= i < 32 -> 0 <= j < 32 ->
  Z.testbit (Fillblock_word bx by_ cx cy j) i = true
  <-> raster_dot bx by_ cx cy i j.
Proof.
  intros Hi Hj. unfold Fillblock_word, raster_dot.
  rewrite land_1_testbit, Z.bit0_odd, !Z.geb_leb, !Z.gtb_ltb.
  destruct (Z.odd j) eqn:Hodd; cbn [negb].
  - destruct (Z.ltb_spec by_ 0), (Z.leb_spec j 24), (Z.leb_spec cy by_),
      (Z.ltb_spec 8 j), (Z.ltb_spec bx 0), (Z.leb_spec cx bx); cbn [andb];
      rewrite ?Z.testbit_0_l, ?mask_left_bit, ?mask_right_bit, ?mask_AA_bit
        by lia;
      destruct (Z.odd i); cbn [andb];
      try destruct (Z.leb_spec 25 i); try destruct (Z.leb_spec i 7);
      (split;
       [ intros Hb; try discriminate Hb;
         right; repeat split; try reflexivity; lia
       | intros [[Ha Hb]|(_ & Ha & Hb)];
         try discriminate Ha; try reflexivity; exfalso; lia ]).
  - rewrite mask_55_bit by lia. rewrite <- Z.negb_odd.
    destruct (Z.odd i); cbn [negb]; split; try discriminate.
    + intros [[_ ?]|(? & _)]; discriminate.
    + intros _. left. split; reflexivity.
    + reflexivity.
Qed.

Section FillFacts.
Context `{Header}.

Lemma Fillblock_dot_iff x0 y0 i j w h ddx ddy ppx ppy bl off v :
  In (off, v) (Fillblock_dot x0 y0 i j w h ddx ddy ppx ppy bl) <->
  v = to_uchar bl
  /\ exists m n, 0 <= m < ppy /\ 0 <= n < ppx
       /\ 0 <= x0 + i * ddx + n < w /\ 0 <= y0 + j * ddy + m < h
       /\ off = (h - (y0 + j * ddy + m) - 1) * w + (x0 + i * ddx + n).
Proof.
  unfold Fillblock_dot. rewrite in_flat_map. split.
  - intros (m & Hm & Hin). apply in_flat_map in Hin as (n & Hn & Hin).
    apply list_elem_of_In, elem_of_seqZ in Hm, Hn. cbv zeta in Hin.
    match type of Hin with
    | In _ (if ?c then _ else _) => destruct c eqn:Hclip
    end; [inversion Hin|].
    destruct Hin as [Heq|[]]. injection Heq as <- <-.
    apply orb_false_elim in Hclip as [Hclip Hy2].
    apply orb_false_elim in Hclip as [Hclip Hy1].
    apply orb_false_elim in Hclip as [Hx1 Hx2].
    apply Z.ltb_ge in Hx1, Hy1. rewrite Z.geb_leb in Hx2, Hy2.
    apply Z.leb_gt in Hx2, Hy2.
    split; [reflexivity|]. exists m, n. repeat split; lia.
  - intros (-> & m & n & Hm & Hn & Hx & Hy & ->).
    exists m. split; [apply list_elem_of_In, elem_of_seqZ; lia|].
    apply in_flat_map. exists n.
    split; [apply list_elem_of_In, elem_of_seqZ; lia|]. cbv zeta.
    destruct (Z.ltb_spec (x0 + i * ddx + n) 0); [lia|].
    destruct (Z.ltb_spec (y0 + j * ddy + m) 0); [lia|].
    rewrite !Z.geb_leb.
    destruct (Z.leb_spec w (x0 + i * ddx + n)); [lia|].
    destruct (Z.leb_spec h (y0 + j * ddy + m)); [lia|].
    left. reflexivity.
Qed.

Lemma Fillblock_bits_iff cnt t i0 x0 y0 j w h ddx ddy ppx ppy bl off v :
  In (off, v) (Fillblock_bits cnt t i0 x0 y0 j w h ddx ddy ppx ppy bl) <->
  v = to_uchar bl
  /\ exists i m n, 0 <= i < Z.of_nat cnt /\ Z.testbit t i = true
       /\ 0 <= m < ppy /\ 0 <= n < ppx
       /\ 0 <= x0 + (i0 + i) * ddx + n < w /\ 0 <= y0 + j * ddy + m < h
       /\ off = (h - (y0 + j * ddy + m) - 1) * w + (x0 + (i0 + i) * ddx + n).
Proof.
  revert t i0. induction cnt as [|cnt IH]; intros t i0.
  - cbn [Fillblock_bits]. split; [intros []|].
    intros (_ & i & _ & _ & Hi & _). lia.
  - cbn [Fillblock_bits]. rewrite in_app_iff, IH, land_1_testbit. split.
    + intros [Hin|(-> & i & m & n & Hi & Hbit & Hm & Hn & Hx & Hy & ->)].
      * destruct (Z.testbit t 0) eqn:Hb; cbn [negb] in Hin; [|inversion Hin].
        apply Fillblock_dot_iff in Hin as (-> & m & n & Hm & Hn & Hx & Hy & ->).
        split; [reflexivity|]. exists 0, m, n. rewrite Z.add_0_r.
        repeat split; try lia. exact Hb.
      * split; [reflexivity|]. exists (i + 1), m, n.
        rewrite Z.shiftr_spec in Hbit by lia.
        replace (i0 + (i + 1)) with (i0 + 1 + i) by lia.
        repeat split; try lia. exact Hbit.
    + intros (-> & i & m & n & Hi & Hbit & Hm & Hn & Hx & Hy & ->).
      destruct (Z.eq_dec i 0) as [->|Hne].
      * left. rewrite Hbit. cbn [negb]. apply Fillblock_dot_iff.
        rewrite Z.add_0_r in *.
        split; [reflexivity|]. exists m, n. repeat split; lia.
      * right. split; [reflexivity|]. exists (i - 1), m, n.
        rewrite Z.shiftr_spec by lia. replace (i - 1 + 1) with i by lia.
        replace (i0 + 1 + (i - 1)) with (i0 + i) by lia.
        repeat split; try lia. exact Hbit.
Qed.

(** X6.  The pixels that [Fillblock] sets in a cell of the ring around the
    grid of a page of the emit phase (bitmap within the range of an
    [int]), exactly: all get the value [(uchar)black]; they are the pixels
    of the dots of the raster -- every other dot on the even rows, and on
    the odd rows the dots between them, thinned out on the side away from
    the grid -- that fall inside the bitmap; a pixel outside is skipped.
    Row [y] of the page is at scan line [height - y - 1]. *)
Theorem fillblock_raster o p0 p bx by_ off v :
  plan_width_raw o p0 <= INT_MAX ->
  plan_width o p0 * plan_height o p0 <= INT_MAX ->
  emitting o p0 p ->
  -1 <= bx <= nx p -> -1 <= by_ <= page_ny p ->
  let x0 := bx * (NDOT + 3) * dx p + 2 * dx p + border p in
  let y0 := by_ * (NDOT + 3) * dy p + 2 * dy p + border p in
  (off, v) ∈ Fillblock bx by_ (width p) (page_height p) (border p)
               (nx p) (page_ny p) (dx p) (dy p) (px p) (py p) (black p) <->
  v = to_uchar (black p)
  /\ exists i j m n, 0 <= i < 32 /\ 0 <= j < 32
       /\ 0 <= m < py p /\ 0 <= n < px p
       /\ raster_dot bx by_ (nx p) (page_ny p) i j
       /\ 0 <= x0 + i * dx p + n < width p
       /\ 0 <= y0 + j * dy p + m < page_height p
       /\ off = (page_height p - (y0 + j * dy p + m) - 1) * width p
                + (x0 + i * dx p + n).
Proof.
  intros _ _ _ _ _ x0 y0. unfold Fillblock. fold x0 y0.
  rewrite list_elem_of_In, in_flat_map. split.
  - intros (j & Hj & Hin). apply list_elem_of_In, elem_of_seqZ in Hj.
    apply Fillblock_bits_iff
      in Hin as (-> & i & m & n & Hi & Hbit & Hm & Hn & Hx & Hy & ->).
    split; [reflexivity|]. exists i, j, m, n.
    apply Fillblock_word_bit in Hbit; [|lia|lia].
    rewrite Z.add_0_l in *. repeat split; try lia. exact Hbit.
  - intros (-> & i & j & m & n & Hi & Hj & Hm & Hn & Hdot & Hx & Hy & ->).
    exists j. split; [apply list_elem_of_In, elem_of_seqZ; lia|].
    apply Fillblock_bits_iff. split; [reflexivity|]. exists i, m, n.
    rewrite Z.add_0_l.
    apply Fillblock_word_bit in Hdot; [|lia|lia].
    repeat split; try lia. exact Hdot.
Qed.

End FillFacts.

Lemma fillblock_raster_witness :
  let p := ready options_67 job_one_byte in
  (1063844, 64)
  ∈ Fillblock (-1) (-1) (width p) (page_height p) (border p)
      (nx p) (page_ny p) (dx p) (dy p) (px p) (py p) (black p)
  /\ 64 = to_uchar (black p).
Proof.
  cbv zeta.
  assert (Hin : (1063844, 64)
                ∈ Fillblock (-1) (-1)
                    (width (ready options_67 job_one_byte))
                    (page_height (ready options_67 job_one_byte))
                    (border (ready options_67 job_one_byte))
                    (nx (ready options_67 job_one_byte))
                    (page_ny (ready options_67 job_one_byte))
                    (dx (ready options_67 job_one_byte))
                    (dy (ready options_67 job_one_byte))
                    (px (ready options_67 job_one_byte))
                    (py (ready options_67 job_one_byte))
                    (black (ready options_67 job_one_byte))).
  { vm_compute. apply list_elem_of_here. }
  split; [exact Hin|].
  destruct (fillblock_raster options_67 job_one_byte
              (ready options_67 job_one_byte) (-1) (-1) 1063844 64)
    as [Hdots _].
  - vm_compute. discriminate.
  - vm_compute. discriminate.
  - exact ready_one_byte_emitting.
  - vm_compute. split; discriminate.
  - vm_compute. split; discriminate.
  - exact (proj1 (Hdots Hin)).
Defined.


(** ** The bitmap of a page *)

Lemma rowcol_unique (w r1 c1 r2 c2 : Z) :
  0 <= c1 < w -> 0 <= c2 < w -> r1 * w + c1 = r2 * w + c2 ->
  r1 = r2 /\ c1 = c2.
Proof.
  intros H1 H2 Heq.
  destruct (Z.lt_trichotomy r1 r2) as [Hlt|[->|Hgt]]; [nia|lia|nia].
Qed.

Lemma rowcol_in (w h row col : Z) :
  0 <= row < h -> 0 <= col < w -> 0 <= row * w + col < w * h.
Proof. intros. nia. Qed.

Section BitmapFacts.
Context `{Header}.

Lemma memset_stores_iff start c n off v :
  (off, v) ∈ memset_stores start c n <->
  v = to_uchar c /\ exists t, 0 <= t < n /\ off = start + t.
Proof.
  unfold memset_stores. rewrite list_elem_of_fmap. split.
  - intros (t & Heq & Ht). apply elem_of_seqZ in Ht. inversion Heq; subst.
    split; [reflexivity|]. exists t. split; [lia|reflexivity].
  - intros (-> & t & Ht & ->). exists t. split; [reflexivity|].
    apply elem_of_seqZ. lia.
Qed.

Lemma vline_stores_iff cnt basex w ppx off v :
  (off, v) ∈ vline_stores cnt basex w ppx <->
  v = 0 /\ exists j k, 0 <= j < Z.of_nat cnt /\ 0 <= k < ppx
                       /\ off = basex + j * w + k.
Proof.
  revert basex. induction cnt as [|cnt IH]; intros basex.
  - cbn [vline_stores]. split; [intros Hin; inversion Hin|].
    intros (_ & j & _ & Hj & _). lia.
  - cbn [vline_stores]. rewrite elem_of_app, IH, list_elem_of_fmap. split.
    + intros [(k & Heq & Hk)|(-> & j & k & Hj & Hk & ->)].
      * apply elem_of_seqZ in Hk. inversion Heq; subst.
        split; [reflexivity|]. exists 0, k. repeat split; lia.
      * split; [reflexivity|]. exists (j + 1), k. repeat split; lia.
    + intros (-> & j & k & Hj & Hk & ->).
      destruct (Z.eq_dec j 0) as [->|Hne].
      * left. exists k. split; [f_equal; lia|]. apply elem_of_seqZ. lia.
      * right. split; [reflexivity|]. exists (j - 1), k. repeat split; lia.
Qed.

(** Where the grid lines are: a vertical line is in the [px] columns from
    [i * (NDOT + 3) * dx + border] on, a horizontal line in the [py] scan
    lines from [j * (NDOT + 3) * dy + border] on. *)
Lemma page_vlines_in p off v :
  0 <= border p -> 0 <= py p ->
  (off, v) ∈ page_vlines p ->
  v = 0 /\ exists row i k,
    0 <= row < page_height p /\ 0 <= i <= nx p /\ 0 <= k < px p
    /\ off = row * width p + (i * (NDOT + 3) * dx p + border p + k).
Proof.
  unfold page_vlines. intros Hb Hpy Hin.
  apply list_elem_of_In, in_flat_map in Hin as (i & Hi & Hin).
  apply list_elem_of_In, elem_of_seqZ in Hi. apply list_elem_of_In in Hin.
  unfold page_height.
  destruct (negb (printborder p =? 0)).
  - apply vline_stores_iff in Hin as (-> & j & k & Hj & Hk & ->).
    split; [reflexivity|]. exists j, i, k. repeat split; lia.
  - apply vline_stores_iff in Hin as (-> & j & k & Hj & Hk & ->).
    split; [reflexivity|]. exists (border p + j), i, k.
    repeat split; lia.
Qed.

Lemma page_hlines_in p off v :
  0 <= border p -> 0 <= dy p ->
  nx p * (NDOT + 3) * dx p + px p + 2 * border p <= width p ->
  (off, v) ∈ page_hlines p ->
  v = 0 /\ exists j k col,
    0 <= j <= page_ny p /\ 0 <= k < py p /\ 0 <= col < width p
    /\ off = (j * (NDOT + 3) * dy p + k + border p) * width p + col.
Proof.
  unfold page_hlines. intros Hb Hdy Hw Hin.
  apply list_elem_of_In, in_flat_map in Hin as (j & Hj & Hin).
  apply list_elem_of_In, elem_of_seqZ in Hj.
  apply in_flat_map in Hin as (k & Hk & Hin).
  apply list_elem_of_In, elem_of_seqZ in Hk. apply list_elem_of_In in Hin.
  destruct (negb (printborder p =? 0)).
  - apply memset_stores_iff in Hin as (-> & t & Ht & ->).
    split; [reflexivity|]. exists j, k, t. repeat split; lia.
  - apply memset_stores_iff in Hin as (-> & t & Ht & ->).
    split; [reflexivity|]. exists j, k, (border p + t). repeat split; lia.
Qed.

(** The pixels of a block, by scan line and column. *)
Lemma Drawblock_stores_at index block w h bo cx cy ddx ddy ppx ppy bl off v :
  0 < cx -> 0 <= index < cx * cy ->
  h = cy * (NDOT + 3) * ddy + ppy + 2 * bo ->
  (off, v) ∈ Drawblock_stores index block w h bo cx cy ddx ddy ppx ppy bl ->
  exists c r i j m n,
    index = r * cx + c /\ 0 <= c < cx /\ 0 <= r < cy
    /\ 0 <= i < 32 /\ 0 <= j < 32 /\ 0 <= m < ppy /\ 0 <= n < ppx
    /\ off = ((cy - r) * (NDOT + 3) * ddy + bo + ppy - 1
              - 2 * ddy - j * ddy - m) * w
             + (c * (NDOT + 3) * ddx + 2 * ddx + bo + i * ddx + n).
Proof.
  intros Hcx Hidx Hh Hin. unfold Drawblock_stores in Hin.
  apply rows_stores_in in Hin as (j & i & m & n & Hj & Hi & Hm & Hn & ->).
  rewrite Z.rem_mod_nonneg, Z.quot_div_nonneg by lia.
  pose proof (Z.mod_pos_bound index cx Hcx) as Hcol.
  assert (Hrow : 0 <= index / cx < cy).
  { split; [apply Z.div_pos; lia|apply Z.div_lt_upper_bound; lia]. }
  pose proof (Z.div_mod index cx ltac:(lia)) as Hdm.
  exists (index `mod` cx), (index / cx), i, j, m, n.
  subst h. repeat split; try lia; ring.
Qed.


(** What the plan gives to every job of the emit phase. *)
Lemma emitting_geometry o p0 p :
  0 <= redundancy p0 -> plan_width_raw o p0 <= INT_MAX -> emitting o p0 p ->
  0 < nx p /\ 3 <= page_ny p <= ny p
  /\ 2 <= dx p /\ 2 <= dy p /\ 1 <= px p /\ 1 <= py p /\ 0 <= border p
  /\ nx p * (NDOT + 3) * dx p + px p + 2 * border p <= width p
  /\ page_height p = page_ny p * (NDOT + 3) * dy p + py p + 2 * border p
  /\ page_height p <= height p
  /\ (plan_width o p0 * plan_height o p0 <= INT_MAX ->
      drawbits p = Some (width p * height p)
      /\ width p * height p <= INT_MAX)
  /\ (0 <= pb_dotpercent o <= 100 -> px p <= dx p /\ py p <= dy p).
Proof.
  intros Hr Hmax Hem.
  pose proof (emitting_planned o p0 p Hem) as Hpl.
  pose proof (planned_feasible o p0 p Hpl) as (Hf1 & Hf2 & Hf3).
  destruct Hpl as (_ & _ & _ & Hr' & Hnx & Hny & Hdx & Hdy & Hpx & Hpy & Hbo
                   & Hw & Hh & _ & Hbits & _).
  pose proof (plan_dots o) as (Hd1 & Hd2 & Hd3 & Hd4).
  pose proof (plan_border_nonneg o p0) as Hb.
  pose proof (page_ny_bounds p Hf2) as Hle.
  assert (Hpos : 0 < nx p) by lia.
  assert (Hraw : 0 <= plan_width_raw o p0).
  { unfold plan_width_raw, NDOT. rewrite <- Hnx. nia. }
  pose proof (plan_width_bounds o p0 (conj Hraw Hmax)) as Hwb.
  unfold plan_width_raw in Hwb.
  rewrite <- Hnx, <- Hdx, <- Hpx, <- Hbo, <- Hw in Hwb.
  assert (Hpct : 0 <= pb_dotpercent o <= 100 ->
                 plan_px o <= plan_dx o /\ plan_py o <= plan_dy o).
  { intros Hp. unfold plan_px, plan_py.
    assert (Z.quot (plan_dx o * pb_dotpercent o) 100 <= plan_dx o).
    { rewrite Z.quot_div_nonneg by nia.
      apply Z.div_le_upper_bound; nia. }
    assert (Z.quot (plan_dy o * pb_dotpercent o) 100 <= plan_dy o).
    { rewrite Z.quot_div_nonneg by nia.
      apply Z.div_le_upper_bound; nia. }
    lia. }
  assert (Hbm : plan_width o p0 * plan_height o p0 <= INT_MAX ->
                drawbits p = Some (width p * height p)
                /\ width p * height p <= INT_MAX).
  { intros Hsize. rewrite Hbits, Hw, Hh. split; [|exact Hsize].
    rewrite to_int_small; [reflexivity|]. split; [|exact Hsize].
    rewrite <- Hw. unfold plan_height.
    rewrite <- Hny, <- Hdy, <- Hpy, <- Hbo.
    rewrite <- Hdx in Hd1. rewrite <- Hdy in Hd2.
    rewrite <- Hpx in Hd3. rewrite <- Hpy in Hd4. rewrite <- Hbo in Hb.
    unfold NDOT in *. apply Z.mul_nonneg_nonneg; nia. }
  split; [exact Hpos|]. split; [exact Hle|].
  rewrite Hdx, Hdy, Hpx, Hpy, Hbo.
  rewrite Hdx, Hpx, Hbo in Hwb.
  do 5 (split; [lia|]).
  split; [lia|].
  split; [unfold page_height; rewrite Hdy, Hpy, Hbo; reflexivity|].
  split.
  { rewrite Hh. unfold page_height, plan_height.
    rewrite Hdy, Hpy, Hbo, <- Hny. unfold NDOT. nia. }
  split; [exact Hbm|exact Hpct].
Qed.


Lemma page_cells_perm o p0 p :
  0 < NDATA -> 1 <= redundancy p0 -> plan_pagesize o p0 <= INT_MAX ->
  emitting o p0 p ->
  Permutation (fst <$> page_draws p) (seqZ 0 (nx p * page_ny p)).
Proof.
  intros Hnd Hr Hmax Hem.
  pose proof (emitting_planned o p0 p Hem) as Hpl.
  pose proof (page_capacity o p0 p Hnd Hr Hmax Hpl) as (Hns & Hfit & Hny).
  pose proof (planned_feasible o p0 p Hpl) as (Hf1 & Hf2 & Hf3).
  assert (Hr' : redundancy p = redundancy p0) by apply Hpl.
  rewrite page_draws_cells by lia.
  rewrite app_assoc.
  rewrite (strings_cells (nx p) (redundancy p) (page_nstring p)) by lia.
  set (first := (page_nstring p + 1) * (redundancy p + 1)) in *.
  replace (nx p * page_ny p) with (first + (nx p * page_ny p - first)) at 2
    by lia.
  rewrite (seqZ_app 0 first) by (unfold first; nia).
  reflexivity.
Qed.

Lemma page_draws_in_range o p0 p d :
  0 < NDATA -> 1 <= redundancy p0 -> plan_pagesize o p0 <= INT_MAX ->
  emitting o p0 p -> d ∈ page_draws p ->
  0 <= fst d < nx p * page_ny p.
Proof.
  intros Hnd Hr Hmax Hem Hin.
  assert (Hk : fst d ∈ fst <$> page_draws p)
    by (apply list_elem_of_fmap; exists d; auto).
  rewrite (page_cells_perm o p0 p Hnd Hr Hmax Hem) in Hk.
  apply elem_of_seqZ in Hk. lia.
Qed.

(** X7.  In the emit phase, for a bitmap whose width and whose size
    [width * height] fit an [int], every store that [Printnextpage] makes
    into the bitmap -- the clearing, the vertical and horizontal grid
    lines with or without border, the border raster and the dots of every
    block of the page -- is inside the bitmap of the page, [width] by the
    height of the page, which is inside the allocated buffer of
    [width * height] bytes. *)
Theorem page_stores_in_bitmap o p0 p off v :
  0 < NDATA -> 1 <= redundancy p0 -> plan_pagesize o p0 <= INT_MAX ->
  plan_width_raw o p0 <= INT_MAX ->
  plan_width o p0 * plan_height o p0 <= INT_MAX ->
  emitting o p0 p ->
  (off, v) ∈ page_stores p ->
  0 <= off < width p * page_height p
  /\ width p * page_height p <= width p * height p
  /\ drawbits p = Some (width p * height p)
  /\ width p * height p <= INT_MAX.
Proof.
  intros Hnd Hr Hmax Hwmax Hsize Hem Hin.
  pose proof (emitting_geometry o p0 p ltac:(lia) Hwmax Hem)
    as (Hnx & Hny & Hdx & Hdy & Hpx & Hpy & Hbo & Hw & Hh & Hhh & Hbits & _).
  destruct (Hbits Hsize) as [Hbm Hint].
  assert (Hwpos : 0 < width p) by (unfold NDOT in Hw; nia).
  split; [|split; [nia|split; [exact Hbm|exact Hint]]].
  unfold page_stores, page_lines in Hin.
  rewrite !elem_of_app in Hin.
  destruct Hin as [Hin|[[Hin|Hin]|[Hin|Hin]]].
  - apply memset_stores_iff in Hin as (_ & t & Ht & ->). lia.
  - apply page_vlines_in in Hin as (_ & row & i & k & Hrow & Hi & Hk & ->);
      try lia.
    apply rowcol_in; [lia|]. unfold NDOT in *. nia.
  - apply page_hlines_in in Hin as (_ & j & k & col & Hj & Hk & Hcol & ->);
      try lia.
    apply rowcol_in; [|lia]. rewrite Hh. unfold NDOT in *. nia.
  - unfold page_raster in Hin.
    destruct (negb (printborder p =? 0)); [|inversion Hin].
    assert (Hfill : forall bx by_,
              (off, v) ∈ Fillblock bx by_ (width p) (page_height p) (border p)
                           (nx p) (page_ny p) (dx p) (dy p) (px p) (py p)
                           (black p) ->
              0 <= off < width p * page_height p).
    { intros bx by_ Hf.
      apply Fillblock_in_bitmap in Hf as (row & col & Hrow & Hcol & ->).
      apply rowcol_in; assumption. }
    apply elem_of_app in Hin as [Hin|Hin];
      apply list_elem_of_In, in_flat_map in Hin as (t & _ & Hin);
      apply list_elem_of_In, elem_of_app in Hin as [Hin|Hin];
      eapply Hfill; exact Hin.
  - unfold page_block_stores in Hin.
    apply list_elem_of_In, in_flat_map in Hin as (d & Hd & Hin).
    apply list_elem_of_In in Hd, Hin.
    pose proof (page_draws_in_range o p0 p d Hnd Hr Hmax Hem Hd) as Hidx.
    apply Drawblock_stores_in in Hin as (row & col & Hrow & Hcol & ->);
      try lia; try assumption.
    apply rowcol_in; assumption.
Qed.

(** The column of a dot inside its cell, and its scan line counted from
    the line above the cell: both are at least two dot pitches from the
    start of the cell and end before the next cell. *)
Lemma dot_inside (d q i n : Z) :
  1 <= d -> 1 <= q <= d -> 0 <= i < 32 -> 0 <= n < q ->
  2 * d <= 2 * d + i * d + n < (NDOT + 3) * d
  /\ 2 * d <= (NDOT + 3) * d - (2 * d + i * d + n) - 1 + q < (NDOT + 3) * d.
Proof. intros. unfold NDOT. nia. Qed.

(** Two dots that share a pixel are in the same cell. *)
Lemma dot_pixels_apart w bo cy ddx ddy ppx ppy
  c1 r1 i1 j1 m1 n1 c2 r2 i2 j2 m2 n2 :
  1 <= ppx <= ddx -> 1 <= ppy <= ddy ->
  0 <= i1 < 32 -> 0 <= j1 < 32 -> 0 <= m1 < ppy -> 0 <= n1 < ppx ->
  0 <= i2 < 32 -> 0 <= j2 < 32 -> 0 <= m2 < ppy -> 0 <= n2 < ppx ->
  0 <= c1 * (NDOT + 3) * ddx + 2 * ddx + bo + i1 * ddx + n1 < w ->
  0 <= c2 * (NDOT + 3) * ddx + 2 * ddx + bo + i2 * ddx + n2 < w ->
  ((cy - r1) * (NDOT + 3) * ddy + bo + ppy - 1 - 2 * ddy - j1 * ddy - m1) * w
  + (c1 * (NDOT + 3) * ddx + 2 * ddx + bo + i1 * ddx + n1)
  = ((cy - r2) * (NDOT + 3) * ddy + bo + ppy - 1 - 2 * ddy - j2 * ddy - m2) * w
    + (c2 * (NDOT + 3) * ddx + 2 * ddx + bo + i2 * ddx + n2) ->
  c1 = c2 /\ r1 = r2.
Proof.
  intros Hpx Hpy Hi1 Hj1 Hm1 Hn1 Hi2 Hj2 Hm2 Hn2 Hc1 Hc2 Heq.
  pose proof (dot_inside ddx ppx i1 n1 ltac:(lia) ltac:(lia) Hi1 Hn1).
  pose proof (dot_inside ddx ppx i2 n2 ltac:(lia) ltac:(lia) Hi2 Hn2).
  pose proof (dot_inside ddy ppy j1 m1 ltac:(lia) ltac:(lia) Hj1 Hm1).
  pose proof (dot_inside ddy ppy j2 m2 ltac:(lia) ltac:(lia) Hj2 Hm2).
  apply rowcol_unique in Heq as [Hrow Hcol]; [|assumption ..].
  assert (Hc : c1 = c2).
  { apply (rowcol_unique ((NDOT + 3) * ddx) c1
             (2 * ddx + i1 * ddx + n1) c2 (2 * ddx + i2 * ddx + n2));
      lia. }
  assert (Hrr : cy - r1 = cy - r2).
  { apply (rowcol_unique ((NDOT + 3) * ddy) (cy - r1)
             ((NDOT + 3) * ddy - (2 * ddy + j1 * ddy + m1) - 1 + ppy)
             (cy - r2)
             ((NDOT + 3) * ddy - (2 * ddy + j2 * ddy + m2) - 1 + ppy));
      lia. }
  lia.
Qed.

(** A pixel of a dot of any cell is on no grid line. *)
Lemma dot_pixel_off_lines p c r i j m n v :
  0 <= border p -> 1 <= px p <= dx p -> 1 <= py p <= dy p ->
  nx p * (NDOT + 3) * dx p + px p + 2 * border p <= width p ->
  0 <= i < 32 -> 0 <= j < 32 -> 0 <= m < py p -> 0 <= n < px p ->
  0 <= c * (NDOT + 3) * dx p + 2 * dx p + border p + i * dx p + n < width p ->
  (((page_ny p - r) * (NDOT + 3) * dy p + border p + py p - 1
    - 2 * dy p - j * dy p - m) * width p
   + (c * (NDOT + 3) * dx p + 2 * dx p + border p + i * dx p + n), v)
  ∉ page_lines p.
Proof.
  intros Hbo Hpx Hpy Hw Hi Hj Hm Hn Hcol Hline.
  pose proof (dot_inside (dx p) (px p) i n ltac:(lia) ltac:(lia) Hi Hn).
  pose proof (dot_inside (dy p) (py p) j m ltac:(lia) ltac:(lia) Hj Hm).
  unfold page_lines in Hline. apply elem_of_app in Hline as [Hline|Hline].
  - apply page_vlines_in in Hline as (_ & row & i' & k' & Hrow & Hi' & Hk' & Ho');
      try lia.
    apply rowcol_unique in Ho' as [_ Hc]; [|lia|unfold NDOT in *; nia].
    assert (Hcc : c = i' /\ 2 * dx p + i * dx p + n = k').
    { apply (rowcol_unique ((NDOT + 3) * dx p)); lia. }
    lia.
  - apply page_hlines_in in Hline as (_ & j' & k' & col & Hj' & Hk' & Hcol' & Ho');
      try lia.
    apply rowcol_unique in Ho' as [Hrow _]; [|lia|lia].
    assert (Hcc : page_ny p - r - 1 = j'
                  /\ (NDOT + 3) * dy p - (2 * dy p + j * dy p + m) - 1 + py p
                     = k').
    { apply (rowcol_unique ((NDOT + 3) * dy p)); lia. }
    lia.
Qed.

(** The column of a dot of a block is inside the bitmap. *)
Lemma block_dot_column w bo cx ddx ppx c i n :
  0 <= bo -> 1 <= ppx <= ddx -> 0 <= c < cx ->
  cx * (NDOT + 3) * ddx + ppx + 2 * bo <= w ->
  0 <= i < 32 -> 0 <= n < ppx ->
  0 <= c * (NDOT + 3) * ddx + 2 * ddx + bo + i * ddx + n < w.
Proof. intros. unfold NDOT in *. nia. Qed.

(** X8.  In the emit phase, for a bitmap within the range of an [int] and
    with dots no larger than the dot pitch (a dot size of at most 100
    percent), the dots of two different cells of the page never share a
    pixel: a block never paints over another block. *)
Theorem page_blocks_apart o p0 p k1 b1 k2 b2 off v1 v2 :
  0 <= redundancy p0 -> plan_width_raw o p0 <= INT_MAX ->
  plan_width o p0 * plan_height o p0 <= INT_MAX ->
  0 <= pb_dotpercent o <= 100 ->
  emitting o p0 p ->
  0 <= k1 < nx p * page_ny p -> 0 <= k2 < nx p * page_ny p ->
  k1 <> k2 ->
  (off, v1) ∈ Drawblock_stores k1 b1 (width p) (page_height p) (border p)
                (nx p) (page_ny p) (dx p) (dy p) (px p) (py p) (black p) ->
  (off, v2) ∉ Drawblock_stores k2 b2 (width p) (page_height p) (border p)
                (nx p) (page_ny p) (dx p) (dy p) (px p) (py p) (black p).
Proof.
  intros Hr Hwmax _ Hpct Hem Hk1 Hk2 Hne Hin1 Hin2. apply Hne. clear Hne.
  pose proof (emitting_geometry o p0 p Hr Hwmax Hem)
    as (Hnx & Hny & Hdx & Hdy & Hpx & Hpy & Hbo & Hw & Hh & _ & _ & Hdots).
  destruct (Hdots Hpct) as [Hpd Hqd].
  apply Drawblock_stores_at in Hin1
    as (c1 & r1 & i1 & j1 & m1 & n1 & -> & Hc1 & Hr1 & Hi1 & Hj1 & Hm1 & Hn1 & Ho1);
    try assumption.
  apply Drawblock_stores_at in Hin2
    as (c2 & r2 & i2 & j2 & m2 & n2 & -> & Hc2 & Hr2 & Hi2 & Hj2 & Hm2 & Hn2 & Ho2);
    try assumption.
  rewrite Ho1 in Ho2.
  apply (dot_pixels_apart _ _ _ _ _ (px p) (py p)) in Ho2 as [-> ->];
    try reflexivity; try lia;
    apply (block_dot_column _ _ (nx p) _ (px p)); lia.
Qed.

(** X9.  In the emit phase, for a bitmap within the range of an [int] and
    with dots no larger than the dot pitch, no dot of a block of the page
    is on a pixel of a vertical or horizontal grid line: the blocks leave
    the grid intact. *)
Theorem page_dots_off_lines o p0 p k b off v v' :
  0 <= redundancy p0 -> plan_width_raw o p0 <= INT_MAX ->
  plan_width o p0 * plan_height o p0 <= INT_MAX ->
  0 <= pb_dotpercent o <= 100 ->
  emitting o p0 p ->
  0 <= k < nx p * page_ny p ->
  (off, v) ∈ Drawblock_stores k b (width p) (page_height p) (border p)
               (nx p) (page_ny p) (dx p) (dy p) (px p) (py p) (black p) ->
  (off, v') ∉ page_lines p.
Proof.
  intros Hr Hwmax _ Hpct Hem Hk Hin.
  pose proof (emitting_geometry o p0 p Hr Hwmax Hem)
    as (Hnx & Hny & Hdx & Hdy & Hpx & Hpy & Hbo & Hw & Hh & _ & _ & Hdots).
  destruct (Hdots Hpct) as [Hpd Hqd].
  apply Drawblock_stores_at in Hin
    as (c & r & i & j & m & n & -> & Hc & Hrr & Hi & Hj & Hm & Hn & ->);
    try assumption.
  apply dot_pixel_off_lines; try lia.
  apply (block_dot_column _ _ (nx p) _ (px p)); lia.
Qed.

(** The pixels of the raster of a border cell, by scan line and column. *)
Lemma Fillblock_at bx by_ w h bo cx cy ddx ddy ppx ppy bl off v :
  h = cy * (NDOT + 3) * ddy + ppy + 2 * bo ->
  (off, v) ∈ Fillblock bx by_ w h bo cx cy ddx ddy ppx ppy bl ->
  exists i j m n,
    0 <= i < 32 /\ 0 <= j < 32 /\ 0 <= m < ppy /\ 0 <= n < ppx
    /\ 0 <= bx * (NDOT + 3) * ddx + 2 * ddx + bo + i * ddx + n < w
    /\ off = ((cy - by_) * (NDOT + 3) * ddy + bo + ppy - 1
              - 2 * ddy - j * ddy - m) * w
             + (bx * (NDOT + 3) * ddx + 2 * ddx + bo + i * ddx + n).
Proof.
  intros Hh Hin. unfold Fillblock in Hin.
  apply list_elem_of_In, in_flat_map in Hin as (j & Hj & Hin).
  apply list_elem_of_In, elem_of_seqZ in Hj.
  apply Fillblock_bits_iff
    in Hin as (_ & i & m & n & Hi & _ & Hm & Hn & Hx & Hy & ->).
  exists i, j, m, n. rewrite Z.add_0_l in *. subst h.
  repeat split; lia.
Qed.

(** The cells of the border raster are the ring around the grid. *)
Lemma page_raster_cells p off v :
  (off, v) ∈ page_raster p ->
  exists bx by_,
    (bx < 0 \/ nx p <= bx \/ by_ < 0 \/ page_ny p <= by_)
    /\ (off, v) ∈ Fillblock bx by_ (width p) (page_height p) (border p)
                    (nx p) (page_ny p) (dx p) (dy p) (px p) (py p) (black p).
Proof.
  unfold page_raster. intros Hin.
  destruct (negb (printborder p =? 0)); [|inversion Hin].
  apply elem_of_app in Hin as [Hin|Hin];
    apply list_elem_of_In, in_flat_map in Hin as (t & _ & Hin);
    apply list_elem_of_In, elem_of_app in Hin as [Hin|Hin].
  - exists (-1), t. split; [lia|exact Hin].
  - exists (nx p), t. split; [lia|exact Hin].
  - exists t, (-1). split; [lia|exact Hin].
  - exists t, (page_ny p). split; [lia|exact Hin].
Qed.

(** X10.  In the emit phase, for a bitmap within the range of an [int]
    and with dots no larger than the dot pitch, the raster that
    [Fillblock] paints around the grid touches no pixel of a grid line and
    no pixel of a block of the page. *)
Theorem page_raster_apart o p0 p off v v' :
  0 < NDATA -> 1 <= redundancy p0 -> plan_pagesize o p0 <= INT_MAX ->
  plan_width_raw o p0 <= INT_MAX ->
  plan_width o p0 * plan_height o p0 <= INT_MAX ->
  0 <= pb_dotpercent o <= 100 ->
  emitting o p0 p ->
  (off, v) ∈ page_raster p ->
  ((off, v') ∉ page_lines p) /\ ((off, v') ∉ page_block_stores p).
Proof.
  intros Hnd Hr Hmax Hwmax _ Hpct Hem Hin.
  pose proof (emitting_geometry o p0 p ltac:(lia) Hwmax Hem)
    as (Hnx & Hny & Hdx & Hdy & Hpx & Hpy & Hbo & Hw & Hh & _ & _ & Hdots).
  destruct (Hdots Hpct) as [Hpd Hqd].
  apply page_raster_cells in Hin as (bx & by_ & Hring & Hin).
  apply Fillblock_at in Hin as (i & j & m & n & Hi & Hj & Hm & Hn & Hcol & ->);
    [|exact Hh].
  split.
  - apply dot_pixel_off_lines; lia.
  - intros Hblk. unfold page_block_stores in Hblk.
    apply list_elem_of_In, in_flat_map in Hblk as (d & Hd & Hblk).
    apply list_elem_of_In in Hd, Hblk.
    pose proof (page_draws_in_range o p0 p d Hnd Hr Hmax Hem Hd) as Hidx.
    apply Drawblock_stores_at in Hblk
      as (c2 & r2 & i2 & j2 & m2 & n2 & _ & Hc2 & Hr2 & Hi2 & Hj2 & Hm2 & Hn2 & Ho2);
      try assumption.
    apply (dot_pixels_apart _ _ _ _ _ (px p) (py p)) in Ho2 as [-> ->]; try lia.
    apply (block_dot_column _ _ (nx p) _ (px p)); lia.
Qed.

Lemma page_raster_corner p off v :
  printborder p <> 0 -> 0 <= page_ny p ->
  (off, v) ∈ Fillblock (-1) (-1) (width p) (page_height p) (border p)
               (nx p) (page_ny p) (dx p) (dy p) (px p) (py p) (black p) ->
  (off, v) ∈ page_raster p.
Proof.
  intros Hpb Hny Hin. unfold page_raster.
  destruct (Z.eqb_spec (printborder p) 0) as [|_]; [contradiction|].
  cbn [negb]. apply elem_of_app. left.
  apply list_elem_of_In, in_flat_map. exists (-1). split.
  - apply list_elem_of_In, elem_of_seqZ. lia.
  - apply list_elem_of_In, elem_of_app. left. exact Hin.
Qed.

End BitmapFacts.

Lemma first_draw_on_page :
  let p := ready options_67 job_one_byte in
  let d := hd (0, superdata_block (superdata p)) (page_draws p) in
  d ∈ page_draws p
  /\ fst d = 0
  /\ (931180, 64)
     ∈ Drawblock_stores 0 (snd d) (width p) (page_height p) (border p)
         (nx p) (page_ny p) (dx p) (dy p) (px p) (py p) (black p).
Proof.
  cbv zeta. split; [|split].
  - vm_compute. apply list_elem_of_here.
  - reflexivity.
  - vm_compute. apply list_elem_of_here.
Qed.

Lemma page_stores_in_bitmap_witness :
  let p := ready options_67 job_one_byte in
  (931180, 64) ∈ page_stores p
  /\ 0 <= 931180 < width p * page_height p
  /\ drawbits p = Some (width p * height p).
Proof.
  cbv zeta.
  destruct first_draw_on_page as (Hd & Hk & Hs).
  assert (Hin : (931180, 64) ∈ page_stores (ready options_67 job_one_byte)).
  { unfold page_stores. do 3 (apply elem_of_app; right).
    unfold page_block_stores.
    apply list_elem_of_In, in_flat_map.
    eexists. split; apply list_elem_of_In; [exact Hd|].
    rewrite Hk. exact Hs. }
  split; [exact Hin|].
  destruct (page_stores_in_bitmap options_67 job_one_byte
              (ready options_67 job_one_byte) 931180 64)
    as (Hoff & _ & Hbits & _).
  - reflexivity.
  - vm_compute. discriminate.
  - vm_compute. discriminate.
  - vm_compute. discriminate.
  - vm_compute. discriminate.
  - exact ready_one_byte_emitting.
  - exact Hin.
  - split; [exact Hoff|exact Hbits].
Defined.

Lemma page_blocks_apart_witness :
  let p := ready options_67 job_one_byte in
  let d := hd (0, superdata_block (superdata p)) (page_draws p) in
  (931180, 64)
  ∉ Drawblock_stores 1 (snd d) (width p) (page_height p) (border p)
      (nx p) (page_ny p) (dx p) (dy p) (px p) (py p) (black p).
Proof.
  cbv zeta.
  destruct first_draw_on_page as (_ & _ & Hs).
  set (d := hd _ _) in *.
  apply (page_blocks_apart options_67 job_one_byte
           (ready options_67 job_one_byte) 0 (snd d) 1 (snd d) 931180 64 64);
    [| | | | | | | |exact Hs].
  - vm_compute. discriminate.
  - vm_compute. discriminate.
  - vm_compute. discriminate.
  - vm_compute. split; discriminate.
  - exact ready_one_byte_emitting.
  - vm_compute. split; [discriminate|reflexivity].
  - vm_compute. split; [discriminate|reflexivity].
  - discriminate.
Defined.

Lemma page_dots_off_lines_witness :
  let p := ready options_67 job_one_byte in
  (931180, 0) ∉ page_lines p.
Proof.
  cbv zeta.
  destruct first_draw_on_page as (_ & _ & Hs).
  set (d := hd _ _) in *.
  apply (page_dots_off_lines options_67 job_one_byte
           (ready options_67 job_one_byte) 0 (snd d) 931180 64 0);
    [| | | | | |exact Hs].
  - vm_compute. discriminate.
  - vm_compute. discriminate.
  - vm_compute. discriminate.
  - vm_compute. split; discriminate.
  - exact ready_one_byte_emitting.
  - vm_compute. split; [discriminate|reflexivity].
Defined.

Lemma corner_raster_on_page :
  let p := ready options_67 job_one_byte in
  (1063844, 64) ∈ page_raster p.
Proof.
  cbv zeta. apply page_raster_corner.
  - vm_compute. discriminate.
  - vm_compute. discriminate.
  - vm_compute. apply list_elem_of_here.
Qed.

Lemma page_raster_apart_witness :
  let p := ready options_67 job_one_byte in
  ((1063844, 64) ∉ page_lines p) /\ ((1063844, 64) ∉ page_block_stores p).
Proof.
  cbv zeta.
  pose proof corner_raster_on_page as Hin. cbv zeta in Hin.
  exact (page_raster_apart options_67 job_one_byte
           (ready options_67 job_one_byte) 1063844 64 64
           eq_refl
           ltac:(vm_compute; discriminate) ltac:(vm_compute; discriminate)
           ltac:(vm_compute; discriminate) ltac:(vm_compute; discriminate)
           ltac:(vm_compute; split; discriminate)
           ready_one_byte_emitting Hin).
Defined.

(** ** Further properties of [Printnextpage] *)

Section PageFacts.
Context `{Header}.

Lemma reported_app (a b : list event) :
  reported (a ++ b) = reported a ++ reported b.
Proof.
  induction a as [|e a IH]; [reflexivity|].
  destruct e; cbn; rewrite ?IH; reflexivity.
Qed.

Lemma reported_Drawn (ds : list draw) : reported (uncurry Drawn <$> ds) = [].
Proof. induction ds as [|[k b] ds IH]; [reflexivity|exact IH]. Qed.

Lemma Fclose_not_Drawn (ds : list draw) : Fclose ∉ (uncurry Drawn <$> ds).
Proof.
  intros Hin. apply list_elem_of_fmap in Hin as ([k b] & Hin & _).
  discriminate.
Qed.

(** The height of the page depends on the plan and on the page number. *)
Lemma page_height_ext p q :
  alignedsize p = alignedsize q -> frompage p = frompage q ->
  pagesize p = pagesize q -> redundancy p = redundancy q ->
  nx p = nx q -> ny p = ny q -> dy p = dy q -> py p = py q ->
  border p = border q ->
  page_height p = page_height q.
Proof.
  intros Ha Hf Hp Hr Hx Hy Hdy Hpy Hb.
  unfold page_height, page_ny, page_nstring, page_offset.
  rewrite Ha, Hf, Hp, Hr, Hx, Hy, Hdy, Hpy, Hb. reflexivity.
Qed.

Lemma page_height_drawn p : page_height (page_drawn p) = page_height p.
Proof. apply page_height_ext; reflexivity. Qed.

(** The four ways through "Save bitmap to file". *)
Lemma save_page_cases q io :
  let r := save_page q io in
  let next := set_step_frompage q (step q) (frompage q + 1) in
  (fopen_ok io = false
   /\ fst r = Stopprinting q /\ length (reported (snd r)) = 1%nat
   /\ Fclose ∉ snd r)
  \/ (fopen_ok io = true /\ to_u32 (fwrite_bmfh io) <> sizeof_bmfh
      /\ fst r = next /\ reported (snd r) = [] /\ Fclose ∉ snd r)
  \/ (fopen_ok io = true /\ to_u32 (fwrite_bmfh io) = sizeof_bmfh
      /\ (to_u32 (fwrite_bmi io) <> to_u32 sizeof_bmi
          \/ to_u32 (fwrite_bits io) <> to_u32 (width q * page_height q))
      /\ fst r = Stopprinting q /\ length (reported (snd r)) = 1%nat
      /\ Fclose ∈ snd r)
  \/ (fopen_ok io = true /\ to_u32 (fwrite_bmfh io) = sizeof_bmfh
      /\ to_u32 (fwrite_bmi io) = to_u32 sizeof_bmi
      /\ to_u32 (fwrite_bits io) = to_u32 (width q * page_height q)
      /\ fst r = next /\ reported (snd r) = [] /\ Fclose ∈ snd r).
Proof.
  cbv zeta. unfold save_page.
  assert (Hno : forall l : list event,
            Forall (fun e => e <> Fclose) l -> Fclose ∉ l).
  { intros l Hl Hin. rewrite Forall_forall in Hl. exact (Hl _ Hin eq_refl). }
  destruct (fopen_ok io); cbn [negb].
  2:{ left. cbn. repeat split. apply Hno. repeat constructor; discriminate. }
  right.
  destruct (Z.eqb_spec (to_u32 (fwrite_bmfh io)) sizeof_bmfh) as [Hb|Hb];
    cbn [negb].
  2:{ left. cbn. repeat split; try assumption.
      apply Hno. repeat constructor; discriminate. }
  right.
  destruct (Z.eqb_spec (to_u32 (fwrite_bmi io)) (to_u32 sizeof_bmi)) as [Hi|Hi];
    cbn [negb].
  - destruct (Z.eqb_spec (to_u32 (fwrite_bits io))
                         (to_u32 (width q * page_height q))) as [Hw|Hw].
    + right. cbn. repeat split; try assumption.
      do 4 apply list_elem_of_further. apply list_elem_of_here.
    + left. cbn. repeat split; try assumption; [right; assumption|].
      do 4 apply list_elem_of_further. apply list_elem_of_here.
  - left. cbn. repeat split; try assumption; [left; assumption|].
    do 3 apply list_elem_of_further. apply list_elem_of_here.
Qed.

(** X11.  What a call of [Printnextpage] that has a page to print leaves
    behind, for every answer of the file system.  An error is reported
    exactly when the file cannot be opened, or when the file header is
    written in full and the info header or the pixels are not; then one
    message is reported and the job is stopped on the page it was on.
    Otherwise -- also when the write of the file header comes short -- no
    error is reported, the job stays in its step and goes to the next
    page.  The file that was opened is closed exactly when the file header
    was written in full.  In every case the whole page was drawn before,
    and the plan of the job is what it was. *)
Theorem page_save_outcome p io :
  pages_done p = false ->
  let r := Printnextpage p io in
  let failed :=
    fopen_ok io = false
    \/ (to_u32 (fwrite_bmfh io) = sizeof_bmfh
        /\ (to_u32 (fwrite_bmi io) <> to_u32 sizeof_bmi
            \/ to_u32 (fwrite_bits io) <> to_u32 (width p * page_height p))) in
  (reported (snd r) <> [] <-> failed)
  /\ (failed ->
      fst r = Stopprinting (page_drawn p)
      /\ length (reported (snd r)) = 1%nat
      /\ step (fst r) = 0 /\ frompage (fst r) = frompage p)
  /\ (~ failed ->
      fst r = set_step_frompage (page_drawn p) (step p) (frompage p + 1)
      /\ step (fst r) = step p /\ frompage (fst r) = frompage p + 1)
  /\ (Fclose ∈ snd r <->
      fopen_ok io = true /\ to_u32 (fwrite_bmfh io) = sizeof_bmfh)
  /\ drawn_cells (snd r) = fst <$> page_draws p
  /\ (nx (fst r), ny (fst r), dx (fst r), dy (fst r), px (fst r), py (fst r),
      width (fst r), height (fst r), border (fst r))
     = (nx p, ny p, dx p, dy p, px p, py p, width p, height p, border p)
  /\ (pagesize (fst r), redundancy (fst r), datasize (fst r),
      alignedsize (fst r), topage (fst r))
     = (pagesize p, redundancy p, datasize p, alignedsize p, topage p).
Proof.
  intros Hdone r failed.
  assert (Hcells0 : drawn_cells (snd r) = fst <$> page_draws p)
    by (apply Printnextpage_drawn_cells; exact Hdone).
  assert (Hcells : drawn_cells (snd (Printnextpage p io))
                   = fst <$> page_draws p) by exact Hcells0.
  assert (Hfst : fst r = fst (save_page (page_drawn p) io)).
  { subst r. unfold Printnextpage. rewrite Hdone.
    destruct (save_page (page_drawn p) io). reflexivity. }
  assert (Hrep : reported (snd r)
                 = reported (snd (save_page (page_drawn p) io))).
  { subst r. unfold Printnextpage. rewrite Hdone.
    destruct (save_page (page_drawn p) io) as [q evs]. cbn [snd reported].
    rewrite reported_app, reported_Drawn. reflexivity. }
  assert (Hcl : Fclose ∈ snd r
                <-> Fclose ∈ snd (save_page (page_drawn p) io)).
  { subst r. unfold Printnextpage. rewrite Hdone.
    destruct (save_page (page_drawn p) io) as [q evs]. cbn [snd].
    rewrite elem_of_cons, elem_of_app. split; [|tauto].
    intros [Hin|[Hin|Hin]];
      [discriminate|destruct (Fclose_not_Drawn _ Hin)|exact Hin]. }
  rewrite Hrep, Hcl, Hfst. clear Hrep Hcl Hfst.
  subst failed. clear Hcells0. subst r.
  pose proof (save_page_cases (page_drawn p) io) as Hcases. cbv zeta in Hcases.
  rewrite page_height_drawn in Hcases.
  cbn [page_drawn width step frompage] in Hcases.
  destruct Hcases
    as [(Hf & -> & Hr & Hc)
       |[(Hf & Hb & -> & Hr & Hc)
        |[(Hf & Hb & Hiw & -> & Hr & Hc)
         |(Hf & Hb & Hi & Hw & -> & Hr & Hc)]]].
  - split; [split; [intros _; left; exact Hf
                   |intros _ E; rewrite E in Hr; discriminate]|].
    split; [intros _; repeat split; exact Hr|].
    split; [intros Hn; destruct Hn; left; exact Hf|].
    split; [split; [intros Hin; destruct (Hc Hin)
                   |intros [E _]; congruence]|].
    split; [exact Hcells|split; reflexivity].
  - assert (Hnf : ~ (fopen_ok io = false
                     \/ to_u32 (fwrite_bmfh io) = sizeof_bmfh
                        /\ (to_u32 (fwrite_bmi io) <> to_u32 sizeof_bmi
                            \/ to_u32 (fwrite_bits io)
                               <> to_u32 (width p * page_height p))))
      by (intros [E|[E _]]; congruence).
    split; [split; [intros Hn; destruct (Hn Hr)|intros Hn; destruct (Hnf Hn)]|].
    split; [intros Hn; destruct (Hnf Hn)|].
    split; [intros _; repeat split|].
    split; [split; [intros Hin; destruct (Hc Hin)
                   |intros [_ E]; congruence]|].
    split; [exact Hcells|split; reflexivity].
  - split; [split; [intros _; right; split; assumption
                   |intros _ E; rewrite E in Hr; discriminate]|].
    split; [intros _; repeat split; exact Hr|].
    split; [intros Hn; destruct Hn; right; split; assumption|].
    split; [split; [intros _; split; assumption|intros _; exact Hc]|].
    split; [exact Hcells|split; reflexivity].
  - assert (Hnf : ~ (fopen_ok io = false
                     \/ to_u32 (fwrite_bmfh io) = sizeof_bmfh
                        /\ (to_u32 (fwrite_bmi io) <> to_u32 sizeof_bmi
                            \/ to_u32 (fwrite_bits io)
                               <> to_u32 (width p * page_height p))))
      by (intros [E|[_ [E|E]]]; congruence).
    split; [split; [intros Hn; destruct (Hn Hr)|intros Hn; destruct (Hnf Hn)]|].
    split; [intros Hn; destruct (Hnf Hn)|].
    split; [intros _; repeat split|].
    split; [split; [intros _; split; assumption|intros _; exact Hc]|].
    split; [exact Hcells|split; reflexivity].
Qed.

(** The copies of a record that [Drawblock] is given again and again. *)
Lemma super_draws_same cells sb :
  0 <= NDATA -> length (data sb) = Z.to_nat NDATA ->
  let r := super_draws cells sb in
  Forall (fun d => snd d = Drawblock_encode sb) (snd r)
  /\ fst <$> snd r = cells
  /\ length (snd r) = length cells
  /\ (fst r = sb \/ fst r = Drawblock_encode sb)
  /\ (cells <> [] -> fst r = Drawblock_encode sb).
Proof.
  intros Hnd. revert sb. induction cells as [|k cells IH]; intros sb Hlen.
  - cbn. repeat split; auto. congruence.
  - cbn [super_draws].
    specialize (IH (Drawblock_encode sb) Hlen).
    rewrite Drawblock_encode_idem in IH by assumption.
    destruct (super_draws cells (Drawblock_encode sb)) as [sb'' ds].
    cbn [fst snd] in *. destruct IH as (Hall & Hcells & Hn & Hlast & _).
    repeat split.
    + constructor; [reflexivity|exact Hall].
    + rewrite fmap_cons. cbn [fst]. rewrite Hcells. reflexivity.
    + cbn [length]. rewrite Hn. reflexivity.
    + right. destruct Hlast; assumption.
    + intros _. destruct Hlast; assumption.
Qed.

(** X12.  On a page of the emit phase, every copy of the superblock -- the
    [redundancy + 1] that start the strings and those that fill the cells
    left over, of which there is at least one -- is the same record: the
    superblock of the job with the page number [frompage + 1] (as a 16-bit
    value) and with the CRC and ECC that [Drawblock] computes for it.  This
    record is also what the job keeps as its superblock after the page. *)
Theorem page_superblocks o p0 p :
  0 < NDATA -> 1 <= redundancy p0 -> plan_pagesize o p0 <= INT_MAX ->
  emitting o p0 p ->
  length (data (superdata_block (superdata p))) = Z.to_nat NDATA ->
  let sb := Drawblock_encode
              (superdata_block
                 (set_sd_page (superdata p) (to_u16 (frompage p + 1)))) in
  Forall (fun d => snd d = sb) (snd (page_supers p) ++ snd (page_fillers p))
  /\ Z.of_nat (length (snd (page_supers p))) = redundancy p + 1
  /\ 1 <= Z.of_nat (length (snd (page_fillers p)))
  /\ superdata_block (superdata (page_drawn p)) = sb
  /\ sd_page (superdata (page_drawn p)) = to_u16 (frompage p + 1).
Proof.
  intros Hnd Hr Hmax Hem Hlen sb.
  pose proof (emitting_planned o p0 p Hem) as Hpl.
  pose proof (page_capacity o p0 p Hnd Hr Hmax Hpl) as (Hns & Hfit & Hny).
  assert (Hr' : redundancy p = redundancy p0) by apply Hpl.
  set (sb0 := superdata_block
                (set_sd_page (superdata p) (to_u16 (frompage p + 1)))) in *.
  assert (Hlen0 : length (data sb0) = Z.to_nat NDATA).
  { rewrite <- Hlen. unfold sb0, superdata_block. cbn [data sd_datasize
      sd_origsize sd_pagesize sd_mode sd_attributes sd_page sd_modified
      sd_filecrc sd_name set_sd_page].
    rewrite !length_app, !length_le_bytes. reflexivity. }
  pose proof (super_draws_same
                (super_cell (nx p) (redundancy p) (page_nstring p)
                   <$> seqZ 0 (redundancy p + 1)) sb0 ltac:(lia) Hlen0)
    as (Hall1 & _ & Hn1 & _ & Hlast1).
  change (super_draws _ sb0) with (page_supers p) in Hall1, Hn1, Hlast1.
  assert (Hfst1 : fst (page_supers p) = sb).
  { apply Hlast1. rewrite seqZ_cons by lia. discriminate. }
  set (first := (page_nstring p + 1) * (redundancy p + 1)) in *.
  assert (Hlen1 : length (data sb) = Z.to_nat NDATA) by exact Hlen0.
  assert (Hidem : Drawblock_encode sb = sb)
    by (apply Drawblock_encode_idem; [lia|exact Hlen0]).
  pose proof (super_draws_same
                (seqZ first (nx p * page_ny p - first)) sb
                ltac:(lia) Hlen1) as Hfill.
  cbv zeta in Hfill. rewrite Hidem in Hfill.
  unfold page_fillers. fold first. rewrite Hfst1.
  destruct Hfill as (Hall2 & _ & Hn2 & Hlast2 & _).
  split; [apply Forall_app; split; assumption|].
  split; [rewrite Hn1, length_fmap, length_seqZ; lia|].
  split; [rewrite Hn2, length_seqZ; lia|].
  assert (Hcode : fst (super_draws (seqZ first (nx p * page_ny p - first)) sb)
                  = sb) by (destruct Hlast2; assumption).
  split; [|reflexivity].
  unfold page_drawn, page_fillers. cbn [superdata]. fold first.
  rewrite Hfst1, Hcode.
  unfold superdata_block, set_sd_code. cbn.
  unfold sb, Drawblock_encode. cbn. reflexivity.
Qed.

End PageFacts.

(** ** The data of a page *)

Lemma repeat_replicate {A} (x : A) (n : nat) : repeat x n = replicate n x.
Proof. induction n as [|n IH]; [reflexivity|]. cbn. rewrite IH. reflexivity. Qed.

(** [take n (l ++ zeros)] is [l] cut or filled with zeros to [n] bytes. *)
Lemma padded_take (l : list Z) (n : nat) :
  take n (l ++ repeat 0 n) = resize n 0 l.
Proof.
  rewrite take_app, repeat_replicate, take_replicate, resize_spec.
  f_equal. f_equal. lia.
Qed.

Section DataFacts.
Context `{Header}.

(** A data block: [NDATA] bytes of the buffer from [off] on, with zeros
    where the buffer ends. *)
Lemma fill_data_resize bs size off :
  0 <= NDATA -> length bs = Z.to_nat size -> 0 <= off -> size <= INT_MAX ->
  fill_data bs size off
  = resize (Z.to_nat NDATA) 0 (drop (Z.to_nat off) bs).
Proof.
  intros Hnd Hlen Hoff Hmax. unfold fill_data. rewrite padded_take.
  destruct (Z.ltb_spec off size) as [Hlt|Hge].
  - rewrite to_int_small by lia.
    destruct (Z.gtb_spec (size - off) NDATA) as [Hbig|Hsmall].
    + apply resize_take_eq.
    + rewrite take_ge; [reflexivity|]. rewrite length_drop. lia.
  - cbn [Z.to_nat firstn]. rewrite drop_ge by lia. reflexivity.
Qed.

Lemma data_blocks_slice p ns i cnt j off ck :
  0 <= NDATA -> 0 <= off -> off + Z.of_nat cnt * NDATA < 2 ^ 32 ->
  let r := data_blocks p ns i cnt j off ck in
  fst (fst r) = off + Z.of_nat cnt * NDATA
  /\ (fun d => addr (snd d)) <$> snd r
     = (fun t => off + Z.of_nat t * NDATA) <$> seq 0 cnt
  /\ (length (buf p) = Z.to_nat (alignedsize p) ->
      alignedsize p <= INT_MAX ->
      concat ((fun d => data (snd d)) <$> snd r)
      = resize (cnt * Z.to_nat NDATA) 0 (drop (Z.to_nat off) (buf p))).
Proof.
  intros Hnd. revert j off ck.
  induction cnt as [|cnt IH]; intros j off ck Hoff Hfit.
  - cbn. rewrite resize_0. repeat split; lia || reflexivity.
  - cbn [data_blocks data].
    rewrite to_u32_small by nia.
    specialize (IH (j + 1) (off + NDATA)
                   (xor_bytes ck (fill_data (buf p) (alignedsize p) off))).
    destruct (data_blocks p ns i cnt (j + 1) _ _) as [[o' c'] ds].
    cbn [fst snd] in *.
    destruct IH as (Ho & Ha & Hd); [lia|nia|].
    rewrite !fmap_cons. cbn [snd addr data Drawblock_encode concat].
    split; [lia|]. split.
    + rewrite Ha. cbn [seq fmap list_fmap]. f_equal; [lia|].
      rewrite <- fmap_S_seq, <- list_fmap_compose.
      apply list_fmap_ext. intros _ t _. cbn. lia.
    + intros Hlen Hmax. rewrite Hd, fill_data_resize by assumption.
      change (S cnt * Z.to_nat NDATA)%nat
        with (Z.to_nat NDATA + cnt * Z.to_nat NDATA)%nat.
      rewrite resize_add, drop_drop. do 3 f_equal. lia.
Qed.

Lemma one_group_slice p ns i off :
  0 <= NDATA -> 0 <= redundancy p ->
  0 <= off -> off + redundancy p * NDATA < 2 ^ 32 ->
  let r := one_group p ns i off in
  fst r = off + redundancy p * NDATA
  /\ members_addr (snd r)
     = (fun t => off + Z.of_nat t * NDATA) <$> seq 0 (Z.to_nat (redundancy p))
  /\ parity_addr (snd r)
     = Z.lxor off (to_u32 (Z.shiftl (redundancy p) 28))
  /\ (length (buf p) = Z.to_nat (alignedsize p) ->
      alignedsize p <= INT_MAX ->
      concat (members_data (snd r))
      = resize (Z.to_nat (redundancy p) * Z.to_nat NDATA) 0
               (drop (Z.to_nat off) (buf p))).
Proof.
  intros Hnd Hr Hoff Hfit. unfold one_group.
  pose proof (data_blocks_slice p ns i (Z.to_nat (redundancy p)) 0 off
                (repeat 255 (Z.to_nat NDATA)) Hnd Hoff
                ltac:(lia)) as (Ho & Ha & Hd).
  destruct (data_blocks p ns i _ 0 off _) as [[o' c'] ds].
  cbn [fst snd] in *.
  unfold members_addr, members_data, parity_addr.
  rewrite removelast_last, last_snoc. cbn [snd addr Drawblock_encode].
  repeat split; try assumption. lia.
Qed.

Lemma groups_slice p ns cnt i off :
  0 <= NDATA -> 0 <= redundancy p ->
  0 <= off -> off + Z.of_nat cnt * (redundancy p * NDATA) < 2 ^ 32 ->
  let gs := groups p ns cnt i off in
  length gs = cnt
  /\ concat (members_addr <$> gs)
     = (fun t => off + Z.of_nat t * NDATA)
         <$> seq 0 (cnt * Z.to_nat (redundancy p))
  /\ parity_addr <$> gs
     = (fun g => Z.lxor (off + Z.of_nat g * (redundancy p * NDATA))
                        (to_u32 (Z.shiftl (redundancy p) 28)))
         <$> seq 0 cnt
  /\ (length (buf p) = Z.to_nat (alignedsize p) ->
      alignedsize p <= INT_MAX ->
      concat (concat (members_data <$> gs))
      = resize (cnt * (Z.to_nat (redundancy p) * Z.to_nat NDATA)) 0
               (drop (Z.to_nat off) (buf p))).
Proof.
  intros Hnd Hr. revert i off.
  induction cnt as [|cnt IH]; intros i off Hoff Hfit.
  - cbn. rewrite resize_0. repeat split.
  - cbn [groups].
    pose proof (one_group_slice p ns i off Hnd Hr Hoff ltac:(nia))
      as (Ho & Ha & Hp & Hd).
    destruct (one_group p ns i off) as [o' g]. cbn [fst snd] in *.
    specialize (IH (i + 1) o'). subst o'.
    destruct IH as (Hn & Has & Hps & Hds); [nia|nia|].
    rewrite !fmap_cons. cbn [concat length].
    split; [lia|]. split; [|split].
    + rewrite Ha, Has.
      change (S cnt * Z.to_nat (redundancy p))%nat
        with (Z.to_nat (redundancy p) + cnt * Z.to_nat (redundancy p))%nat.
      rewrite seq_app, fmap_app. f_equal. cbn [Nat.add].
      replace (seq (Z.to_nat (redundancy p)) (cnt * Z.to_nat (redundancy p)))
        with (Nat.add (Z.to_nat (redundancy p))
                <$> seq 0 (cnt * Z.to_nat (redundancy p)))
        by (rewrite fmap_add_seq; f_equal; lia).
      rewrite <- list_fmap_compose.
      apply list_fmap_ext. intros _ t _. cbn. lia.
    + rewrite Hp, Hps. cbn [seq fmap list_fmap]. f_equal.
      * do 2 f_equal. lia.
      * rewrite <- fmap_S_seq, <- list_fmap_compose.
        apply list_fmap_ext. intros _ t _. cbn. f_equal. lia.
    + intros Hlen Hmax. rewrite concat_app, Hd, Hds by assumption.
      change (S cnt * (Z.to_nat (redundancy p) * Z.to_nat NDATA))%nat
        with (Z.to_nat (redundancy p) * Z.to_nat NDATA
              + cnt * (Z.to_nat (redundancy p) * Z.to_nat NDATA))%nat.
      rewrite resize_add, drop_drop. do 3 f_equal. nia.
Qed.

(** The groups of a page hold what is left of the data, at most a page,
    and no more than a page. *)
Lemma strings_arith (nd r q l : Z) :
  0 < nd -> 1 <= r -> 0 <= q -> 0 <= l <= q * r * nd ->
  let n := Z.quot (l + nd - 1) nd in
  let ns := Z.quot (n + r - 1) r in
  0 <= ns /\ l <= ns * r * nd <= q * r * nd.
Proof.
  intros Hnd Hr Hq Hl n ns.
  assert (Hn : 0 <= n <= q * r /\ l <= n * nd).
  { unfold n. rewrite Z.quot_div_nonneg by lia.
    pose proof (Z.mul_succ_div_gt (l + nd - 1) nd Hnd).
    split; [split|nia].
    - apply Z.div_pos; lia.
    - apply Z.lt_succ_r, Z.div_lt_upper_bound; nia. }
  assert (Hns : 0 <= ns <= q /\ n <= ns * r).
  { unfold ns. rewrite Z.quot_div_nonneg by lia.
    pose proof (Z.mul_succ_div_gt (n + r - 1) r ltac:(lia)).
    split; [split|nia].
    - apply Z.div_pos; lia.
    - apply Z.lt_succ_r, Z.div_lt_upper_bound; nia. }
  clearbody n ns. destruct Hn as [Hn Hln], Hns as [Hns Hnn].
  assert (H1 : n * nd <= ns * r * nd) by (apply Z.mul_le_mono_nonneg_r; lia).
  assert (H2 : ns * r <= q * r) by (apply Z.mul_le_mono_nonneg_r; lia).
  assert (H3 : ns * r * nd <= q * r * nd)
    by (apply Z.mul_le_mono_nonneg_r; lia).
  lia.
Qed.

Lemma page_strings o p0 p :
  0 < NDATA -> 1 <= redundancy p0 -> plan_pagesize o p0 <= INT_MAX ->
  emitting o p0 p ->
  1 <= redundancy p /\ 0 <= page_nstring p
  /\ page_nstring p * redundancy p * NDATA <= pagesize p <= INT_MAX
  /\ 0 <= page_offset p < 2 ^ 32
  /\ (page_offset p <= alignedsize p <= INT_MAX ->
      page_length p <= page_nstring p * redundancy p * NDATA).
Proof.
  intros Hnd Hr Hmax Hem.
  pose proof (emitting_planned o p0 p Hem) as Hpl.
  pose proof (planned_feasible o p0 p Hpl) as (Hf1 & Hf2 & Hf3).
  pose proof (planned_pagesize o p0 p Hnd Hr Hmax Hpl) as [Hps Hrange].
  assert (Hr' : redundancy p = redundancy p0) by apply Hpl.
  pose proof (to_u32_range (frompage p * pagesize p)) as Hoff.
  fold (page_offset p) in Hoff.
  set (l := to_int (Z.min (to_u32 (alignedsize p - page_offset p))
                          (pagesize p))).
  assert (Hl : 0 <= l <= pagesize p).
  { unfold l.
    pose proof (to_u32_range (alignedsize p - page_offset p)).
    rewrite to_int_small; lia. }
  set (q := Z.quot (nx p * ny p - redundancy p - 2) (redundancy p + 1)) in *.
  assert (Hq : 0 <= q).
  { unfold q. rewrite Z.quot_div_nonneg by lia. apply Z.div_pos; lia. }
  rewrite Hps in Hl.
  pose proof (strings_arith NDATA (redundancy p) q l Hnd ltac:(lia) Hq Hl)
    as [Hns Hfit].
  fold l in Hns, Hfit.
  change (Z.quot (Z.quot (l + NDATA - 1) NDATA + redundancy p - 1)
                 (redundancy p)) with (page_nstring p) in Hns, Hfit.
  repeat split; try lia.
  intros Hal. unfold page_length.
  assert (Hl' : l = Z.min (alignedsize p - page_offset p) (pagesize p)).
  { unfold l. unfold INT_MAX in *.
    rewrite to_u32_small by lia. rewrite to_int_small; unfold INT_MAX; lia. }
  lia.
Qed.

(** X13.  The data blocks of a page, read in the order they are drawn, hold
    the bytes of the buffer from the offset of the page on, with zeros
    where the buffer ends: nothing is lost, repeated or moved.  They cover
    the useful bytes of the page -- what is left of the data, at most a
    page size -- and stop before the next page starts. *)
Theorem page_data_slice o p0 p :
  0 < NDATA -> 1 <= redundancy p0 -> plan_pagesize o p0 <= INT_MAX ->
  emitting o p0 p -> pages_done p = false ->
  length (buf p) = Z.to_nat (alignedsize p) ->
  datasize p <= alignedsize p <= INT_MAX ->
  let n := page_nstring p * redundancy p * NDATA in
  let rest := drop (Z.to_nat (page_offset p)) (buf p) in
  0 < page_length p <= n /\ n <= pagesize p
  /\ page_data p = resize (Z.to_nat n) 0 rest
  /\ take (Z.to_nat (page_length p)) (page_data p)
     = take (Z.to_nat (page_length p)) rest
  /\ (page_length p < pagesize p -> page_length p = Z.of_nat (length rest)).
Proof.
  intros Hnd Hr Hmax Hem Hdone Hlen Hsize n rest.
  pose proof (page_strings o p0 p Hnd Hr Hmax Hem)
    as (Hr1 & Hns & Hfit & Hoff & Hcover).
  unfold pages_done in Hdone. apply orb_false_elim in Hdone as [Hdone _].
  rewrite Z.geb_leb in Hdone. apply Z.leb_gt in Hdone.
  specialize (Hcover ltac:(lia)).
  pose proof (planned_pagesize_pos o p0 p Hnd Hr Hmax
                (emitting_planned o p0 p Hem)) as [Hpos _].
  assert (Hl : 0 < page_length p) by (unfold page_length; nia).
  assert (Hrest : Z.of_nat (length rest) = alignedsize p - page_offset p).
  { unfold rest. rewrite length_drop. lia. }
  pose proof (groups_slice p (page_nstring p) (Z.to_nat (page_nstring p)) 0
                (page_offset p) ltac:(lia) ltac:(lia) ltac:(lia))
    as (_ & _ & _ & Hd).
  { unfold INT_MAX in *. nia. }
  specialize (Hd Hlen ltac:(lia)). fold (page_groups p) in Hd.
  fold (page_data p) in Hd. fold rest in Hd.
  assert (Hn : (Z.to_nat (page_nstring p)
                * (Z.to_nat (redundancy p) * Z.to_nat NDATA))%nat
               = Z.to_nat n).
  { unfold n. rewrite !Z2Nat.inj_mul by lia. lia. }
  rewrite Hn in Hd.
  split; [fold n in Hcover; lia|]. split; [lia|]. split; [exact Hd|].
  split.
  - rewrite Hd, take_resize_le by (fold n in Hcover; lia).
    rewrite resize_le; [reflexivity|].
    unfold page_length in *. lia.
  - unfold page_length in *. lia.
Qed.

Lemma lxor_tag (a r : Z) :
  0 <= a < 2 ^ 28 -> 0 <= r < 16 ->
  Z.lxor a (to_u32 (Z.shiftl r 28)) = a + r * 2 ^ 28.
Proof.
  intros Ha Hr. rewrite Z.shiftl_mul_pow2 by lia.
  rewrite to_u32_small by lia. symmetry. apply Z.add_nocarry_lxor.
  apply Z.bits_inj'. intros k Hk. rewrite Z.land_spec, Z.bits_0.
  destruct (Z.lt_ge_cases k 28) as [Hlow|Hhigh].
  - rewrite Z.mul_pow2_bits_low by lia. apply andb_false_r.
  - destruct (Z.eq_dec a 0) as [->|Hne]; [rewrite Z.bits_0; reflexivity|].
    rewrite (Z.bits_above_log2 a k); [reflexivity|lia|].
    apply Z.log2_lt_pow2; [lia|].
    apply Z.lt_le_trans with (2 ^ 28); [lia|].
    apply Z.pow_le_mono_r; lia.
Qed.

(** X14.  The addresses of the blocks of a page.  The data blocks, in the
    order they are drawn, have the addresses [offset, offset + NDATA,
    offset + 2 * NDATA, ...] from the offset of the page on, without gap
    and below the next page.  The recovery block of a group has the
    address of the first data block of the group, XOR [redundancy << 28];
    for data below [2 ^ 28] bytes and a redundancy below 16 this is that
    address plus [redundancy * 2 ^ 28], so that both can be read back. *)
Theorem page_addresses o p0 p :
  0 < NDATA -> 1 <= redundancy p0 -> plan_pagesize o p0 <= INT_MAX ->
  emitting o p0 p -> pages_done p = false -> datasize p <= INT_MAX ->
  let first (g : nat) := page_offset p + Z.of_nat g * (redundancy p * NDATA) in
  Z.of_nat (length (page_groups p)) = page_nstring p
  /\ concat (members_addr <$> page_groups p)
     = (fun t => page_offset p + Z.of_nat t * NDATA)
         <$> seq 0 (Z.to_nat (page_nstring p * redundancy p))
  /\ page_nstring p * redundancy p * NDATA <= pagesize p
  /\ parity_addr <$> page_groups p
     = (fun g => Z.lxor (first g) (to_u32 (Z.shiftl (redundancy p) 28)))
         <$> seq 0 (Z.to_nat (page_nstring p))
  /\ (redundancy p < 16 -> page_offset p + pagesize p <= 2 ^ 28 ->
      parity_addr <$> page_groups p
      = (fun g => first g + redundancy p * 2 ^ 28)
          <$> seq 0 (Z.to_nat (page_nstring p))).
Proof.
  intros Hnd Hr Hmax Hem Hdone Hsize first.
  pose proof (page_strings o p0 p Hnd Hr Hmax Hem)
    as (Hr1 & Hns & Hfit & Hoff & _).
  unfold pages_done in Hdone. apply orb_false_elim in Hdone as [Hdone _].
  rewrite Z.geb_leb in Hdone. apply Z.leb_gt in Hdone.
  pose proof (groups_slice p (page_nstring p) (Z.to_nat (page_nstring p)) 0
                (page_offset p) ltac:(lia) ltac:(lia) ltac:(lia))
    as (Hlen & Ha & Hp & _).
  { unfold INT_MAX in *. nia. }
  fold (page_groups p) in Hlen, Ha, Hp.
  assert (Hn : (Z.to_nat (page_nstring p) * Z.to_nat (redundancy p))%nat
               = Z.to_nat (page_nstring p * redundancy p)).
  { rewrite Z2Nat.inj_mul by lia. reflexivity. }
  rewrite Hn in Ha.
  split; [lia|]. split; [exact Ha|]. split; [lia|]. split; [exact Hp|].
  intros Hr16 Hlow. rewrite Hp.
  apply list_fmap_ext. intros i g Hg.
  apply lookup_seq in Hg as [-> Hg]. cbn [Nat.add].
  apply lxor_tag; [|lia]. unfold first. nia.
Qed.

Lemma xor_bytes_comm (a b : list Z) : xor_bytes a b = xor_bytes b a.
Proof.
  unfold xor_bytes. revert b.
  induction a as [|x a IH]; intros [|y b]; cbn; try reflexivity.
  rewrite IH, Z.lxor_comm. reflexivity.
Qed.

Lemma xor_bytes_self (a : list Z) : xor_bytes a a = repeat 0 (length a).
Proof.
  unfold xor_bytes. induction a as [|x a IH]; cbn; [reflexivity|].
  rewrite IH, Z.lxor_nilpotent. reflexivity.
Qed.

Lemma xor_bytes_zeros_l (a : list Z) (n : nat) :
  length a = n -> xor_bytes (repeat 0 n) a = a.
Proof.
  intros <-. unfold xor_bytes. induction a as [|x a IH]; cbn; [reflexivity|].
  rewrite IH. reflexivity.
Qed.

Lemma length_xor_all (acc : list Z) (ds : list (list Z)) (n : nat) :
  length acc = n -> Forall (fun d => length d = n) ds ->
  length (xor_all acc ds) = n.
Proof.
  unfold xor_all. revert acc.
  induction ds as [|d ds IH]; intros acc Hacc Hall; [exact Hacc|].
  inversion Hall; subst. cbn [fold_left]. apply IH; [|assumption].
  apply length_xor_bytes; auto.
Qed.

(** The XOR of the blocks with one block taken out. *)
Lemma xor_all_without (acc d : list Z) (pre post : list (list Z)) :
  xor_all acc (pre ++ d :: post) = xor_bytes d (xor_all acc (pre ++ post)).
Proof.
  unfold xor_all. rewrite !fold_left_app. cbn [fold_left].
  fold (xor_all (xor_bytes (fold_left xor_bytes pre acc) d) post).
  rewrite (xor_bytes_comm _ d), xor_all_acc. reflexivity.
Qed.

(** X15.  What the recovery block is for: in every group of a page, any
    one data block is the XOR of 0xFF, the recovery block and the other
    data blocks of the group, byte by byte.  A data block that is lost can
    be rebuilt from the rest of its group. *)
Theorem group_rebuild p g pre d post :
  g ∈ page_groups p ->
  members_data g = pre ++ d :: post ->
  d = xor_bytes (xor_bytes (repeat 0xFF (Z.to_nat NDATA)) (parity_data g))
                (xor_all (repeat 0 (Z.to_nat NDATA)) (pre ++ post)).
Proof.
  intros Hin Hmem.
  pose proof (groups_parity p _ _ _ _ g Hin) as (_ & Hall & _ & Hpar).
  rewrite Hmem in Hall, Hpar.
  assert (Hlens : Forall (fun d => length d = Z.to_nat NDATA)
                         (pre ++ d :: post)).
  { eapply Forall_impl; [exact Hall|]. intros x [Hx _]. exact Hx. }
  assert (Hd : length d = Z.to_nat NDATA).
  { rewrite Forall_forall in Hlens. apply Hlens.
    apply elem_of_app. right. apply list_elem_of_here. }
  assert (Hrest : Forall (fun d => length d = Z.to_nat NDATA) (pre ++ post)).
  { apply Forall_app in Hlens as [Hpre Hpost]. inversion Hpost; subst.
    apply Forall_app. split; assumption. }
  set (Y := xor_all (repeat 0 (Z.to_nat NDATA)) (pre ++ post)).
  assert (HY : length Y = Z.to_nat NDATA)
    by (apply length_xor_all; [apply repeat_length|exact Hrest]).
  rewrite xor_all_without in Hpar. fold Y in Hpar.
  rewrite Hpar, <- xor_bytes_assoc, xor_bytes_self, repeat_length.
  rewrite xor_bytes_zeros_l by (apply length_xor_bytes; assumption).
  rewrite xor_bytes_assoc, xor_bytes_self, HY, xor_bytes_comm.
  symmetry. apply xor_bytes_zeros_l. exact Hd.
Qed.

End DataFacts.

(** ** The pages of a job *)

Section PagesFacts.
Context `{Header}.

(** On a file system that writes all that is asked, a page is saved and
    the job goes to the next. *)
Lemma Printnextpage_saved p :
  pages_done p = false ->
  fst (Printnextpage p (io_saved p))
  = set_step_frompage (page_drawn p) (step p) (frompage p + 1).
Proof.
  intros Hdone. unfold Printnextpage, save_page, io_saved. rewrite Hdone.
  cbn [fopen_ok fwrite_bmfh fwrite_bmi fwrite_bits negb].
  change (to_u32 sizeof_bmfh =? sizeof_bmfh) with true.
  rewrite Z.eqb_refl. cbn [negb].
  rewrite page_height_drawn. cbn [page_drawn width].
  rewrite Z.eqb_refl. reflexivity.
Qed.

(** The test that ends the step, by the page number. *)
Lemma pages_done_iff o p0 p :
  0 < NDATA -> 1 <= redundancy p0 -> plan_pagesize o p0 <= INT_MAX ->
  0 <= datasize p0 <= INT_MAX ->
  emitting o p0 p ->
  frompage p <= Z.min (page_npages p) 10000 ->
  (pages_done p = true <-> frompage p = Z.min (page_npages p) 10000).
Proof.
  intros Hnd Hr Hmax Hdata Hem Hle.
  pose proof (emitting_planned o p0 p Hem) as Hpl.
  pose proof (planned_pagesize_pos o p0 p Hnd Hr Hmax Hpl) as [[Hpos Hps] Hpm].
  destruct Hpl as (_ & _ & _ & _ & _ & _ & _ & _ & _ & _ & _ & _ & _ & _ & _
                   & Htop & Hfrom & Hds & _).
  unfold INT_MAX in *.
  assert (Hnp : page_npages p = (datasize p + pagesize p - 1) / pagesize p).
  { unfold page_npages. rewrite to_u32_small by lia.
    apply Z.quot_div_nonneg; lia. }
  pose proof (Z.mul_div_le (datasize p + pagesize p - 1) (pagesize p)
                ltac:(lia)) as Hlo.
  pose proof (Z.mul_succ_div_gt (datasize p + pagesize p - 1) (pagesize p)
                ltac:(lia)) as Hhi.
  rewrite <- Hnp in Hlo, Hhi.
  assert (Hnn : 0 <= page_npages p)
    by (rewrite Hnp; apply Z.div_pos; lia).
  unfold pages_done, page_offset. rewrite Htop.
  rewrite to_u32_small by nia.
  rewrite orb_true_iff, Z.geb_leb, Z.gtb_ltb, Z.leb_le, Z.ltb_lt.
  split.
  - intros [Hd|Hd]; [|lia].
    destruct (Z.eq_dec (frompage p) (Z.min (page_npages p) 10000)); [auto|].
    exfalso. nia.
  - intros Heq.
    destruct (Z.le_gt_cases (page_npages p) 10000); [left; nia|right; lia].
Qed.

Lemma save_pages_run o p0 n p :
  0 < NDATA -> 1 <= redundancy p0 -> plan_pagesize o p0 <= INT_MAX ->
  0 <= datasize p0 <= INT_MAX ->
  emitting o p0 p ->
  frompage p + Z.of_nat n <= Z.min (page_npages p) 10000 ->
  let q := save_pages n p in
  emitting o p0 q /\ step q = step p
  /\ frompage q = frompage p + Z.of_nat n
  /\ page_npages q = page_npages p.
Proof.
  intros Hnd Hr Hmax Hdata. revert p.
  induction n as [|n IH]; intros p Hem Hle.
  - cbn. repeat split; [assumption|lia].
  - cbn [save_pages].
    assert (Hdone : pages_done p = false).
    { destruct (pages_done p) eqn:Hd; [|reflexivity].
      apply (pages_done_iff o p0 p) in Hd; try assumption; lia. }
    pose proof (Printnextpage_saved p Hdone) as Hp.
    assert (Hem' : emitting o p0 (fst (Printnextpage p (io_saved p)))).
    { apply emitting_next; [exact Hem|]. rewrite Hp. reflexivity. }
    assert (Hnp : page_npages (fst (Printnextpage p (io_saved p)))
                  = page_npages p) by (rewrite Hp; reflexivity).
    assert (Hf : frompage (fst (Printnextpage p (io_saved p)))
                 = frompage p + 1) by (rewrite Hp; reflexivity).
    assert (Hs : step (fst (Printnextpage p (io_saved p))) = step p)
      by (rewrite Hp; reflexivity).
    specialize (IH _ Hem'). cbv zeta in IH.
    rewrite Hnp, Hf, Hs in IH.
    destruct IH as (He & Hst & Hfr & Hn); [lia|].
    repeat split; try assumption. lia.
Qed.

(** X16.  The number of pages of a job.  After [Initializeprinting]
    succeeded, on a file system that creates every file and writes all
    that is asked, the calls of [Printnextpage] save the pages one after
    the other: after [k] calls the job is on page [k], in the same step.
    The pages are over exactly after [last] calls, where [last] is the
    number of pages that the data fill, [(datasize + pagesize - 1) /
    pagesize], and at most 10000; the call that follows draws and reports
    nothing and moves the job to the next step.  Empty data give no
    page. *)
Theorem pages_saved o p0 m k :
  0 < NDATA -> 1 <= redundancy p0 -> plan_pagesize o p0 <= INT_MAX ->
  0 <= datasize p0 <= INT_MAX ->
  reported (snd (Initializeprinting o p0 m)) = [] -> step p0 + 1 <> 0 ->
  let p1 := fst (Initializeprinting o p0 m) in
  let last := Z.min (page_npages p1) 10000 in
  0 <= k <= last ->
  let pk := save_pages (Z.to_nat k) p1 in
  emitting o p0 pk /\ step pk = step p1 /\ frompage pk = k
  /\ (pages_done pk = true <-> k = last)
  /\ (k = last ->
      forall io,
        Printnextpage pk io = (set_step_frompage pk (step pk + 1) k, []))
  /\ (datasize p0 = 0 -> last = 0).
Proof.
  intros Hnd Hr Hmax Hdata Hok Hstep p1 last Hk pk.
  assert (Hem1 : emitting o p0 p1) by (apply emitting_first; assumption).
  assert (Hf1 : frompage p1 = 0).
  { apply init_ok_inv in Hok as (Hsmall & Hout & ->).
    subst p1. unfold Initializeprinting. rewrite Hsmall.
    destruct (outbmp p0) as [|c rest]; [congruence|]. reflexivity. }
  pose proof (save_pages_run o p0 (Z.to_nat k) p1 Hnd Hr Hmax Hdata Hem1)
    as (Hem & Hst & Hfr & Hnp).
  { rewrite Hf1. fold last. lia. }
  fold pk in Hem, Hst, Hfr, Hnp. rewrite Hf1 in Hfr.
  assert (Hfk : frompage pk = k) by lia.
  pose proof (pages_done_iff o p0 pk Hnd Hr Hmax Hdata Hem) as Hiff.
  rewrite Hnp, Hfk in Hiff. fold last in Hiff. specialize (Hiff ltac:(lia)).
  split; [exact Hem|]. split; [exact Hst|]. split; [exact Hfk|].
  split; [exact Hiff|]. split.
  - intros Hlast io. apply Hiff in Hlast.
    unfold Printnextpage. rewrite Hlast, Hfk. reflexivity.
  - intros Hzero. subst last.
    pose proof (emitting_planned o p0 p1 Hem1) as Hpl.
    pose proof (planned_pagesize_pos o p0 p1 Hnd Hr Hmax Hpl)
      as [[Hpos Hps] Hpm].
    assert (Hds : datasize p1 = 0).
    { destruct Hpl as (_ & _ & _ & _ & _ & _ & _ & _ & _ & _ & _ & _ & _ & _
                       & _ & _ & _ & Hds & _). lia. }
    unfold page_npages. rewrite Hds. unfold INT_MAX in *.
    rewrite to_u32_small by lia.
    rewrite Z.quot_small by lia. reflexivity.
Qed.

End PagesFacts.

Lemma page_save_outcome_witness :
  let p := ready options_67 job_one_byte in
  let io := {| fopen_ok := false; fwrite_bmfh := 0; fwrite_bmi := 0;
               fwrite_bits := 0 |} in
  pages_done p = false
  /\ fst (Printnextpage p io) = Stopprinting (page_drawn p)
  /\ step (fst (Printnextpage p io)) = 0.
Proof.
  cbv zeta.
  assert (Hdone : pages_done (ready options_67 job_one_byte) = false)
    by (vm_compute; reflexivity).
  split; [exact Hdone|].
  destruct (page_save_outcome (ready options_67 job_one_byte)
              {| fopen_ok := false; fwrite_bmfh := 0; fwrite_bmi := 0;
                 fwrite_bits := 0 |} Hdone)
    as (_ & Hfail & _).
  destruct Hfail as (Hp & _ & Hs & _); [left; reflexivity|].
  split; [exact Hp|exact Hs].
Defined.

Lemma page_superblocks_witness :
  let p := ready options_67 job_one_byte in
  let sb := Drawblock_encode
              (superdata_block
                 (set_sd_page (superdata p) (to_u16 (frompage p + 1)))) in
  length (data (superdata_block (superdata p))) = Z.to_nat NDATA
  /\ Forall (fun d => snd d = sb) (snd (page_supers p) ++ snd (page_fillers p))
  /\ superdata_block (superdata (page_drawn p)) = sb.
Proof.
  cbv zeta.
  assert (Hlen : length (data (superdata_block
                                 (superdata (ready options_67 job_one_byte))))
                 = Z.to_nat NDATA) by (vm_compute; reflexivity).
  split; [exact Hlen|].
  destruct (page_superblocks options_67 job_one_byte
              (ready options_67 job_one_byte))
    as (Hall & _ & _ & Hsb & _).
  - reflexivity.
  - vm_compute. discriminate.
  - vm_compute. discriminate.
  - exact ready_one_byte_emitting.
  - exact Hlen.
  - split; [exact Hall|exact Hsb].
Defined.

Lemma page_data_slice_witness :
  let p := ready options_67 job_one_byte in
  length (buf p) = Z.to_nat (alignedsize p)
  /\ take (Z.to_nat (page_length p)) (page_data p)
     = take (Z.to_nat (page_length p)) (drop (Z.to_nat (page_offset p)) (buf p)).
Proof.
  cbv zeta.
  assert (Hlen : length (buf (ready options_67 job_one_byte))
                 = Z.to_nat (alignedsize (ready options_67 job_one_byte)))
    by (vm_compute; reflexivity).
  split; [exact Hlen|].
  destruct (page_data_slice options_67 job_one_byte
              (ready options_67 job_one_byte))
    as (_ & _ & _ & Htake & _).
  - reflexivity.
  - vm_compute. discriminate.
  - vm_compute. discriminate.
  - exact ready_one_byte_emitting.
  - vm_compute. reflexivity.
  - exact Hlen.
  - vm_compute. split; discriminate.
  - exact Htake.
Defined.

Lemma page_addresses_witness :
  let p := ready options_67 job_one_byte in
  concat (members_addr <$> page_groups p)
  = (fun t => page_offset p + Z.of_nat t * NDATA)
      <$> seq 0 (Z.to_nat (page_nstring p * redundancy p))
  /\ parity_addr <$> page_groups p
     = (fun g => page_offset p + Z.of_nat g * (redundancy p * NDATA)
                 + redundancy p * 2 ^ 28)
         <$> seq 0 (Z.to_nat (page_nstring p)).
Proof.
  cbv zeta.
  destruct (page_addresses options_67 job_one_byte
              (ready options_67 job_one_byte))
    as (_ & Ha & _ & _ & Hp).
  - reflexivity.
  - vm_compute. discriminate.
  - vm_compute. discriminate.
  - exact ready_one_byte_emitting.
  - vm_compute. reflexivity.
  - vm_compute. discriminate.
  - split; [exact Ha|].
    apply Hp; vm_compute; [reflexivity|discriminate].
Defined.

Lemma group_rebuild_witness :
  let p := ready options_67 job_one_byte in
  let g := hd [] (page_groups p) in
  let d := 0x41 :: repeat 0 89 in
  g ∈ page_groups p
  /\ members_data g = [] ++ d :: []
  /\ d = xor_bytes (xor_bytes (repeat 0xFF (Z.to_nat NDATA)) (parity_data g))
                   (xor_all (repeat 0 (Z.to_nat NDATA)) ([] ++ [])).
Proof.
  cbv zeta.
  assert (Hin : hd [] (page_groups (ready options_67 job_one_byte))
                ∈ page_groups (ready options_67 job_one_byte)).
  { vm_compute. apply list_elem_of_here. }
  assert (Hmem : members_data
                   (hd [] (page_groups (ready options_67 job_one_byte)))
                 = [] ++ (0x41 :: repeat 0 89) :: [])
    by (vm_compute; reflexivity).
  split; [exact Hin|]. split; [exact Hmem|].
  exact (group_rebuild (ready options_67 job_one_byte) _ [] _ [] Hin Hmem).
Defined.

Lemma pages_saved_witness :
  let p1 := fst (Initializeprinting options_67 job_one_byte true) in
  0 <= 1 <= Z.min (page_npages p1) 10000
  /\ frompage (save_pages 1 p1) = 1
  /\ pages_done (save_pages 1 p1) = true.
Proof.
  cbv zeta.
  assert (Hk : 0 <= 1 <= Z.min (page_npages
                                  (fst (Initializeprinting options_67
                                          job_one_byte true))) 10000)
    by (vm_compute; split; discriminate).
  split; [exact Hk|].
  destruct (pages_saved options_67 job_one_byte true 1)
    as (_ & _ & Hf & Hd & _).
  - reflexivity.
  - vm_compute. discriminate.
  - vm_compute. discriminate.
  - vm_compute. split; discriminate.
  - vm_compute. reflexivity.
  - vm_compute. discriminate.
  - exact Hk.
  - split; [exact Hf|]. apply Hd. vm_compute. reflexivity.
Defined.
